(** * proto-sync: manifest annotation parser and sync orchestrator

    A shallow embedding of
      - [internal/infrastructure/gomod_repository.go] ([ParseProtobufLibraries])
      - [internal/app] service ([ValidateConfig], [Sync], [processRepository],
        [dryRunRepository], [copySpecificFile], [copyAllProtoFiles])
    together with the properties the specification states about them.

    Go strings are byte strings and are modelled by [string].  The functions
    of package [strings] that the parser uses are modelled on ASCII text:
    for bytes below 128 they coincide with Go's Unicode-aware versions, and
    the theorems about the parser are stated for ASCII manifests. *)

From Stdlib Require Import String Ascii List Bool Arith ZArith Lia DecimalString.
Import ListNotations.
Open Scope string_scope.
Open Scope list_scope.
Open Scope nat_scope.

(** ** Errors

    A Go [error] built by [fmt.Errorf]: its message, and the error it wraps
    with [%w] when there is one.  The message of a wrapping error already
    contains the message of the wrapped one. *)

#[warnings="-register-all"]
Inductive GoError : Type :=
| MkError (msg : string) (wrapped : option GoError).

Definition errMsg (e : GoError) : string :=
  match e with MkError m _ => m end.

(** [fmt.Errorf(prefix + "%w", err)] *)
Definition wrapf (prefix : string) (err : GoError) : GoError :=
  MkError (prefix ++ errMsg err) (Some err).

(** [fmt.Errorf(msg)] without a wrapped error. *)
Definition errorf (msg : string) : GoError := MkError msg None.

(** ** Package [domain]: entities *)

Module Repository.
Record t : Type := {
  Name : string;
  Version : string;
  URL : string
}.
End Repository.

Module ProtoFile.
Record t : Type := {
  Name : string;
  Path : string;
  Size : Z;           (* int64 *)
  ModifiedTime : Z    (* time.Time, as an instant *)
}.
End ProtoFile.

Module SyncConfig.
Record t : Type := {
  Repositories : list Repository.t;
  SourcePath : string;
  TargetPath : string;
  BufYamlPath : string;
  GoModPath : string;
  SpecificFile : string;
  DryRun : bool;
  SingleRepo : bool;
  ListVersions : bool;
  SpecifiedVersion : string
}.
End SyncConfig.

Module SyncResult.
Record t : Type := {
  Repository : Repository.t;
  FilesUpdated : list ProtoFile.t;
  Success : bool;
  Error : option GoError
}.
End SyncResult.

Module ModuleInfo.
Record t : Type := {
  Name : string;
  Path : string
}.
End ModuleInfo.

Module GoModInfo.
Record t : Type := {
  Repositories : list Repository.t;
  ModuleName : string
}.
End GoModInfo.

(** ** Package [strings] on ASCII text

    [ToLower], [TrimSpace] and [Fields] are Go's functions on strings of
    bytes below 128 ([isASCII]), where Go itself works byte by byte.  On
    other strings Go decodes runes: it also trims and splits at Unicode
    white space (U+0085, U+00A0, ...) and lower-cases Unicode letters
    (U+0130 becomes [i]), which these definitions do not.  A statement whose
    truth depends on the value of one of the three therefore carries an
    [isASCII] hypothesis.  [HasPrefix], [Contains], [TrimPrefix], [Join],
    [Split] and [ReplaceAll] compare bytes in Go too and are modelled for
    every string. *)

Module Strings.

Definition code (c : ascii) : nat := nat_of_ascii c.

(** [unicode.IsSpace] on ASCII: tab, line feed, vertical tab, form feed,
    carriage return and space. *)
Definition isSpace (c : ascii) : bool :=
  ((9 <=? code c) && (code c <=? 13)) || (code c =? 32).

Definition isUpper (c : ascii) : bool :=
  (65 <=? code c) && (code c <=? 90).

Definition toLowerChar (c : ascii) : ascii :=
  if isUpper c then ascii_of_nat (code c + 32) else c.

(** [strings.ToLower(s)] for an ASCII [s]: the letters [A] to [Z] become
    [a] to [z]. *)
Fixpoint ToLower (s : string) : string :=
  match s with
  | EmptyString => EmptyString
  | String c s' => String (toLowerChar c) (ToLower s')
  end.

Fixpoint TrimLeft (s : string) : string :=
  match s with
  | EmptyString => EmptyString
  | String c s' => if isSpace c then TrimLeft s' else s
  end.

(** Drops the trailing white space: a character is kept when it is not a
    space or when something is kept after it. *)
Fixpoint TrimRight (s : string) : string :=
  match s with
  | EmptyString => EmptyString
  | String c s' =>
      match TrimRight s' with
      | EmptyString => if isSpace c then EmptyString else String c EmptyString
      | t => String c t
      end
  end.

(** [strings.TrimSpace(s)] for an ASCII [s]: without its leading and
    trailing [isSpace] characters. *)
Definition TrimSpace (s : string) : string := TrimRight (TrimLeft s).

Fixpoint HasPrefix (s p : string) {struct p} : bool :=
  match p, s with
  | EmptyString, _ => true
  | String a p', String b s' => Ascii.eqb a b && HasPrefix s' p'
  | String _ _, EmptyString => false
  end.

Fixpoint Contains (s sub : string) : bool :=
  HasPrefix s sub ||
  match s with
  | EmptyString => false
  | String _ s' => Contains s' sub
  end.

(** [s] without the leading [p], when [p] is a prefix of [s]. *)
Fixpoint stripPrefix (p s : string) {struct p} : option string :=
  match p, s with
  | EmptyString, _ => Some s
  | String a p', String b s' =>
      if Ascii.eqb a b then stripPrefix p' s' else None
  | String _ _, EmptyString => None
  end.

Definition TrimPrefix (s p : string) : string :=
  match stripPrefix p s with
  | Some rest => rest
  | None => s
  end.

Fixpoint Join (elems : list string) (sep : string) : string :=
  match elems with
  | [] => ""
  | [e] => e
  | e :: rest => e ++ sep ++ Join rest sep
  end.

Definition isASCII (s : string) : bool :=
  forallb (fun c => code c <? 128) (list_ascii_of_string s).

(** The tokens of [s] between separators: its maximal runs of characters
    that are not separators.  [cur] is the token being read. *)
Fixpoint tokensOf (isSep : ascii -> bool) (cur : string) (s : string)
  : list string :=
  match s with
  | EmptyString => if String.eqb cur "" then [] else [cur]
  | String c rest =>
      if isSep c then
        if String.eqb cur "" then tokensOf isSep "" rest
        else cur :: tokensOf isSep "" rest
      else tokensOf isSep (cur ++ String c "") rest
  end.

Definition notSpace (c : ascii) : bool := negb (isSpace c).

(** [strings.Fields(s)] for an ASCII [s]: its maximal runs of characters
    that are not [isSpace]. *)
Definition Fields (s : string) : list string := tokensOf isSpace "" s.

(** [strings.Split(s, sep)] for a separator of one character; [cur] is the
    piece being read. *)
Fixpoint splitAt (sep : ascii) (cur : string) (s : string) : list string :=
  match s with
  | EmptyString => [cur]
  | String c rest =>
      if Ascii.eqb c sep then cur :: splitAt sep "" rest
      else splitAt sep (cur ++ String c "") rest
  end.

Definition Split (s : string) (sep : ascii) : list string := splitAt sep "" s.

(** [strings.ReplaceAll(s, old, new)] for an [old] of one character. *)
Fixpoint ReplaceAll (s : string) (old : ascii) (new : string) : string :=
  match s with
  | EmptyString => EmptyString
  | String c rest =>
      if Ascii.eqb c old then new ++ ReplaceAll rest old new
      else String c (ReplaceAll rest old new)
  end.

End Strings.

(** ** Package [regexp], for the fragment the parser's pattern uses

    A pattern is a sequence of literals and greedy repetitions of a
    character class, some of them capturing.  Matching is anchored at the
    start of the text and explores the alternatives in the order of a
    backtracking matcher (longest repetition first), which is the
    leftmost-first match that [regexp] returns. *)

Module Regexp.

Inductive CharClass : Type :=
| Space      (* \s  = [\t\n\f\r ] *)
| NonSpace.  (* [^\s] *)

Definition isPerlSpace (c : ascii) : bool :=
  let n := Strings.code c in
  (n =? 9) || (n =? 10) || (n =? 12) || (n =? 13) || (n =? 32).

Definition nonSpace (c : ascii) : bool := negb (isPerlSpace c).

Definition inClass (cl : CharClass) (c : ascii) : bool :=
  match cl with
  | Space => isPerlSpace c
  | NonSpace => negb (isPerlSpace c)
  end.

Inductive Item : Type :=
| Lit (s : string)          (* literal text *)
| Star (cl : CharClass)     (* cl*  *)
| Plus (cl : CharClass)     (* cl+  *)
| Group (cl : CharClass).   (* (cl+) *)

Section Repetition.
Context {R : Type}.
Variable cls : ascii -> bool.
(** The continuation receives the text consumed by the repetition and
    the text that is left. *)
Variable k : string -> string -> option R.

Fixpoint star (acc s : string) : option R :=
  match s with
  | String c s' =>
      if cls c then
        match star (acc ++ String c "") s' with
        | Some r => Some r
        | None => k acc s
        end
      else k acc s
  | EmptyString => k acc s
  end.

Definition plus (s : string) : option R :=
  match s with
  | String c s' => if cls c then star (String c "") s' else None
  | EmptyString => None
  end.
End Repetition.

(** Every character of [s] is in the class. *)
Fixpoint allIn (cls : ascii -> bool) (s : string) : bool :=
  match s with
  | EmptyString => true
  | String c s' => cls c && allIn cls s'
  end.

(** A repetition of the class cannot go on into [s]. *)
Definition stopsAt (cls : ascii -> bool) (s : string) : bool :=
  match s with
  | EmptyString => true
  | String c _ => negb (cls c)
  end.

(** The captured groups, in order, and the text after the match. *)
Fixpoint matchItems (p : list Item) (s : string) : option (list string * string) :=
  match p with
  | [] => Some ([], s)
  | Lit l :: p' =>
      match Strings.stripPrefix l s with
      | Some rest => matchItems p' rest
      | None => None
      end
  | Star cl :: p' => star (inClass cl) (fun _ rest => matchItems p' rest) "" s
  | Plus cl :: p' => plus (inClass cl) (fun _ rest => matchItems p' rest) s
  | Group cl :: p' =>
      plus (inClass cl)
        (fun g rest =>
           match matchItems p' rest with
           | Some (caps, r) => Some (g :: caps, r)
           | None => None
           end) s
  end.

(** [re.FindStringSubmatch(s)] for a pattern anchored with [^]: the whole
    match followed by the groups, or nil. *)
Definition FindStringSubmatch (re : list Item) (s : string) : list string :=
  match matchItems re s with
  | Some (caps, rest) =>
      substring 0 (String.length s - String.length rest) s :: caps
  | None => []
  end.

End Regexp.

(** ** [ParseProtobufLibraries] *)

Module GoMod.
Import Strings Regexp.

(** [^\s*replace\s+([^\s]+)\s+([^\s]+)\s*=>\s*([^\s]+)\s+([^\s]+)] *)
Definition replaceRegex : list Item :=
  [ Star Space; Lit "replace"; Plus Space; Group NonSpace; Plus Space;
    Group NonSpace; Star Space; Lit "=>"; Star Space; Group NonSpace;
    Plus Space; Group NonSpace ].

(** What [os.Open] and the [bufio.Scanner] give for the manifest: the open
    fails, or the scanner delivers [lines] (the values of
    [scanner.Text()]) and [scanner.Err()] is [scanErr] after the loop. *)
Inductive GoModFile : Type :=
| OpenError (err : GoError)
| Content (lines : list string) (scanErr : option GoError).

(** The body of the [if len(matches) == 5] branch. *)
Definition repositoryOf (matches : list string) : Repository.t :=
  let remoteRepo := nth 3 matches "" in
  let remoteVersion := nth 4 matches "" in
  let remoteRepo :=
    if HasPrefix remoteRepo "github.com/"
    then TrimPrefix remoteRepo "github.com/"
    else remoteRepo in
  {| Repository.Name := "github.com/" ++ remoteRepo;
     Repository.Version := remoteVersion;
     Repository.URL := "https://github.com/" ++ remoteRepo |}.

(** The [for scanner.Scan()] loop; the result is [foundComment] and
    [repositories] when the loop is left (at the end of the lines or by
    [break]).  The logger calls are left out. *)
Fixpoint scanLoop (foundComment : bool) (repositories : list Repository.t)
         (lines : list string) : bool * list Repository.t :=
  match lines with
  | [] => (foundComment, repositories)
  | text :: rest =>
      let line := TrimSpace text in
      if Contains (ToLower line) "// protobuf libraries" then
        scanLoop true repositories rest
      else if foundComment then
        if String.eqb line ""
           || (HasPrefix line "//" && negb (Contains (ToLower line) "protobuf"))
        then (foundComment, repositories)
        else
          let matches := FindStringSubmatch replaceRegex line in
          if length matches =? 5 then
            scanLoop foundComment (repositories ++ [repositoryOf matches]) rest
          else scanLoop foundComment repositories rest
      else scanLoop foundComment repositories rest
  end.

Definition OpenFailed (goModPath : string) (err : GoError) : GoError :=
  wrapf ("failed to open go.mod file at " ++ goModPath ++ ": ") err.

Definition ReadFailed (err : GoError) : GoError :=
  wrapf "error reading go.mod file: " err.

Definition MarkerNotFound (goModPath : string) : GoError :=
  errorf ("could not find '// Protobuf libraries' comment in " ++ goModPath).

Definition ParseProtobufLibraries (goModPath : string) (file : GoModFile)
  : GoError + GoModInfo.t :=
  match file with
  | OpenError err => inl (OpenFailed goModPath err)
  | Content lines scanErr =>
      let '(foundComment, repositories) := scanLoop false [] lines in
      match scanErr with
      | Some err => inl (ReadFailed err)
      | None =>
          if negb foundComment then inl (MarkerNotFound goModPath)
          else inr {| GoModInfo.Repositories := repositories;
                      GoModInfo.ModuleName := "" |}
      end
  end.

(** *** The lines of a manifest, as the loop sees them *)

(** The test of the first [if] of the loop. *)
Definition isMarker (text : string) : bool :=
  Contains (ToLower (TrimSpace text)) "// protobuf libraries".

Definition notMarker (text : string) : bool := negb (isMarker text).

(** The test that leaves the loop: "Stop at empty lines or other
    comments". *)
Definition endsSection (text : string) : bool :=
  let line := TrimSpace text in
  String.eqb line ""
  || (HasPrefix line "//" && negb (Contains (ToLower line) "protobuf")).

(** What the loop appends for a line that it gives to the pattern. *)
Definition directive (text : string) : list Repository.t :=
  let matches := FindStringSubmatch replaceRegex (TrimSpace text) in
  if length matches =? 5 then [repositoryOf matches] else [].

(** The repository of a directive with this remote path and version. *)
Definition source (remoteRepo remoteVersion : string) : Repository.t :=
  repositoryOf [""; ""; ""; remoteRepo; remoteVersion].

(** The lines after a marker line up to the line that ends the section,
    without the marker lines among them. *)
Fixpoint sectionBody (lines : list string) : list string :=
  match lines with
  | [] => []
  | text :: rest =>
      if isMarker text then sectionBody rest
      else if endsSection text then []
      else text :: sectionBody rest
  end.

(** The annotated section: the body after the first marker line. *)
Fixpoint annotatedSection (lines : list string) : list string :=
  match lines with
  | [] => []
  | text :: rest =>
      if isMarker text then sectionBody rest else annotatedSection rest
  end.

Definition asciiLines (lines : list string) : bool := forallb isASCII lines.

Definition asciiFile (file : GoModFile) : bool :=
  match file with
  | OpenError _ => true
  | Content lines _ => asciiLines lines
  end.

(** *** The lines of a manifest, as the specification describes them *)

(** The tokens of a line: its maximal runs of characters that are not
    white space.  [cur] is the token being read. *)
Fixpoint tokens (cur : string) (s : string) : list string :=
  match s with
  | EmptyString => if String.eqb cur "" then [] else [cur]
  | String c rest =>
      if isPerlSpace c then
        if String.eqb cur "" then tokens "" rest else cur :: tokens "" rest
      else tokens (cur ++ String c "") rest
  end.

Definition fields (s : string) : list string := tokens "" s.

(** Stated from the specification: a directive line has the shape
    [replace <local-name> <local-version> => <remote-path>
    <remote-version>]; lines with another token count or without [=>] are
    malformed. *)
Definition specWellFormed (text : string) : bool :=
  match fields (TrimSpace text) with
  | [keyword; _; _; arrow; _; _] =>
      String.eqb keyword "replace" && String.eqb arrow "=>"
  | _ => false
  end.

(** Stated from the specification: a comment line containing the phrase
    [Protobuf libraries], in any case. *)
Definition specMarker (text : string) : bool :=
  HasPrefix (TrimSpace text) "//"
  && Contains (ToLower (TrimSpace text)) "protobuf libraries".

(** Stated from the specification: the parser returns exactly as many
    sources as the annotated section has well-formed directive lines. *)
Definition returnsWellFormedOnly (lines : list string) : Prop :=
  forall info,
    ParseProtobufLibraries "go.mod" (Content lines None) = inr info ->
    length (GoModInfo.Repositories info)
    = length (filter specWellFormed (annotatedSection lines)).

(** Stated from the specification: the parser fails with [MarkerNotFound]
    exactly when no comment line contains the phrase. *)
Definition markerIsAnyCommentWithPhrase (lines : list string) : Prop :=
  ParseProtobufLibraries "go.mod" (Content lines None)
  = inl (MarkerNotFound "go.mod")
  <-> existsb specMarker lines = false.

End GoMod.


(** ** Package [path/filepath], lexical processing of slash-separated paths *)

Module Filepath.

Definition slash : ascii := "/"%char.

(** The elements of a path between its slashes; [cur] is the element
    being read. *)
Fixpoint elements (cur : string) (path : string) : list string :=
  match path with
  | EmptyString => [cur]
  | String c rest =>
      if Ascii.eqb c slash then cur :: elements "" rest
      else elements (cur ++ String c "") rest
  end.

(** One element of [Clean]'s loop; [out] holds the elements written so
    far, the last one first. *)
Definition cleanStep (rooted : bool) (out : list string) (elem : string)
  : list string :=
  if String.eqb elem "" || String.eqb elem "." then out
  else if String.eqb elem ".." then
    match out with
    | top :: below => if String.eqb top ".." then elem :: out else below
    | [] => if rooted then [] else [elem]
    end
  else elem :: out.

Definition isRooted (path : string) : bool :=
  match path with
  | String c _ => Ascii.eqb c slash
  | EmptyString => false
  end.

Definition Clean (path : string) : string :=
  let rooted := isRooted path in
  let out := fold_left (cleanStep rooted) (elements "" path) [] in
  let text : string :=
    ((if rooted then "/" else "") ++ Strings.Join (rev out) "/")%string in
  if String.eqb text "" then "." else text.

Definition noSlash (s : string) : bool :=
  forallb (fun c => negb (Ascii.eqb c slash)) (list_ascii_of_string s).

(** A file name proper: not empty, not [.] or [..], and without a slash. *)
Definition plainName (name : string) : bool :=
  negb (String.eqb name "") && negb (String.eqb name ".")
  && negb (String.eqb name "..") && noSlash name.

(** [filepath.Join(a, b)] *)
Definition Join (a b : string) : string :=
  if negb (String.eqb a "") then Clean (a ++ "/" ++ b)
  else if negb (String.eqb b "") then Clean b
  else "".

End Filepath.

(** ** Package [domain]: collaborator interfaces

    A method of a collaborator is a function of the state of the outside
    world (file system, module cache, network) that returns its Go results
    and the world it leaves. *)

Module Domain.

Section Interfaces.
Variable World : Type.
(** [context.Context] *)
Variable Context : Type.

Record FileRepository : Type := {
  FileExists : string -> World -> bool * World;
  CreateDir : string -> World -> option GoError * World;
  CopyFile : string -> string -> World -> option GoError * World;
  ListFiles : string -> string -> World
              -> (list ProtoFile.t * option GoError) * World;
  MakeWritable : string -> World -> option GoError * World
}.

Record GoModRepository : Type := {
  ParseProtobufLibraries : string -> World -> (GoError + GoModInfo.t) * World;
  DownloadModule : Context -> string -> string -> World
                   -> option GoError * World;
  GetModulePath : string -> string -> World -> (GoError + string) * World
}.

Record BufRepository : Type := {
  ParseBufYaml : string -> World -> (GoError + ModuleInfo.t) * World
}.
End Interfaces.

Arguments FileExists {World}.
Arguments CreateDir {World}.
Arguments CopyFile {World}.
Arguments ListFiles {World}.
Arguments MakeWritable {World}.
Arguments ParseProtobufLibraries {World Context}.
Arguments DownloadModule {World Context}.
Arguments GetModulePath {World Context}.
Arguments ParseBufYaml {World}.

Inductive Level : Type := Info | Success | Warning | Error.

(** What the service does to its collaborators, in the order it does it:
    the method calls with their arguments, the messages given to the
    [Logger], and the text printed with [fmt.Printf]. *)
Inductive Call : Type :=
| CallFileExists (path : string)
| CallCreateDir (path : string)
| CallCopyFile (src dst : string)
| CallListFiles (path pattern : string)
| CallMakeWritable (path : string)
| CallReadFile (path : string)
| CallWriteFile (path : string)
| CallParseProtobufLibraries (goModPath : string)
| CallDownloadModule (repo version : string)
| CallGetModulePath (repo version : string)
| CallParseBufYaml (bufYamlPath : string)
| CallLogger (level : Level) (msg : string)
| Printf (text : string).

(** The methods of [FileRepository] that change the file system. *)
Definition isWrite (c : Call) : bool :=
  match c with
  | CallCopyFile _ _ | CallWriteFile _ | CallCreateDir _
  | CallMakeWritable _ => true
  | _ => false
  end.

Definition noWrite (c : Call) : bool := negb (isWrite c).

(** The calls before any source is processed: existence tests, the two
    configuration parsers and the logger. *)
Definition isSetupCall (c : Call) : bool :=
  match c with
  | CallFileExists _ | CallParseBufYaml _ | CallParseProtobufLibraries _
  | CallLogger _ _ => true
  | _ => false
  end.

(** The calls that neither fetch a module nor change the file system. *)
Definition isPreviewCall (c : Call) : bool :=
  match c with
  | CallFileExists _ | CallListFiles _ _ | CallGetModulePath _ _
  | CallParseBufYaml _ | CallParseProtobufLibraries _
  | CallLogger _ _ | Printf _ => true
  | _ => false
  end.

(** The calls that the processing of a source may make. *)
Definition isSourceCall (c : Call) : bool :=
  match c with
  | CallParseBufYaml _ | CallParseProtobufLibraries _
  | CallReadFile _ | CallWriteFile _ => false
  | _ => true
  end.

Definition isManifestCall (c : Call) : bool :=
  match c with
  | CallParseProtobufLibraries _ => true
  | _ => false
  end.

Definition isCopyFile (c : Call) : bool :=
  match c with
  | CallCopyFile _ _ => true
  | _ => false
  end.

Definition noCopy (c : Call) : bool := negb (isCopyFile c).

End Domain.

(** ** Package [app]: the sync service *)

Module App.
Import Domain.

(** [%d] *)
Definition itoa (n : nat) : string := NilZero.string_of_uint (Nat.to_uint n).

Section Service.
Variable World : Type.
Variable Context : Type.
(** The fields of [ProtoSyncServiceImpl]. *)
Variable fileRepo : FileRepository World.
Variable goModRepo : GoModRepository World Context.
Variable bufRepo : BufRepository World.

(** A computation of the service: from the world it starts in to its
    result, the world it leaves and the calls it made. *)
Definition M (A : Type) : Type := World -> A * World * list Call.

Definition ret {A} (a : A) : M A := fun w => (a, w, []).

Definition bind {A B} (m : M A) (k : A -> M B) : M B :=
  fun w =>
    let '(a, w1, c1) := m w in
    let '(b, w2, c2) := k a w1 in
    (b, w2, c1 ++ c2).

(** A collaborator method [f], recorded as the call [c]. *)
Definition call {A} (c : Call) (f : World -> A * World) : M A :=
  fun w => let '(a, w1) := f w in (a, w1, [c]).

Definition logger (level : Level) (msg : string) : M unit :=
  fun w => (tt, w, [CallLogger level msg]).

Definition printf (text : string) : M unit :=
  fun w => (tt, w, [Printf text]).

Notation "x <- m ;; k" := (bind m (fun x => k))
  (at level 61, m at next level, right associativity).
Notation "m ;;; k" := (bind m (fun _ => k))
  (at level 61, right associativity).

Definition fileExists (path : string) : M bool :=
  call (CallFileExists path) (FileExists fileRepo path).
Definition createDir (path : string) : M (option GoError) :=
  call (CallCreateDir path) (CreateDir fileRepo path).
Definition copyFile (src dst : string) : M (option GoError) :=
  call (CallCopyFile src dst) (CopyFile fileRepo src dst).
Definition listFiles (path pattern : string)
  : M (list ProtoFile.t * option GoError) :=
  call (CallListFiles path pattern) (ListFiles fileRepo path pattern).
Definition makeWritable (path : string) : M (option GoError) :=
  call (CallMakeWritable path) (MakeWritable fileRepo path).
Definition parseProtobufLibraries (goModPath : string)
  : M (GoError + GoModInfo.t) :=
  call (CallParseProtobufLibraries goModPath)
       (ParseProtobufLibraries goModRepo goModPath).
Definition downloadModule (ctx : Context) (repo version : string)
  : M (option GoError) :=
  call (CallDownloadModule repo version)
       (DownloadModule goModRepo ctx repo version).
Definition getModulePath (repo version : string) : M (GoError + string) :=
  call (CallGetModulePath repo version)
       (GetModulePath goModRepo repo version).
Definition parseBufYaml (bufYamlPath : string) : M (GoError + ModuleInfo.t) :=
  call (CallParseBufYaml bufYamlPath) (ParseBufYaml bufRepo bufYamlPath).

(** A [*domain.SyncConfig] is [None] when it is nil. *)
Definition ValidateConfig (config : option SyncConfig.t) : M (option GoError) :=
  match config with
  | None => ret (Some (errorf "config cannot be nil"))
  | Some config =>
      if String.eqb (SyncConfig.BufYamlPath config) "" then
        ret (Some (errorf "buf.yaml path is required"))
      else if String.eqb (SyncConfig.GoModPath config) "" then
        ret (Some (errorf "go.mod path is required"))
      else if String.eqb (SyncConfig.SourcePath config) "" then
        ret (Some (errorf "source path is required"))
      else
        exists_ <- fileExists (SyncConfig.BufYamlPath config) ;;
        if negb exists_ then
          ret (Some (errorf ("buf.yaml file not found at: "
                             ++ SyncConfig.BufYamlPath config)))
        else
          match SyncConfig.Repositories config with
          | [] =>
              exists_ <- fileExists (SyncConfig.GoModPath config) ;;
              if negb exists_ then
                ret (Some (errorf ("go.mod file not found at: "
                                   ++ SyncConfig.GoModPath config)))
              else ret None
          | _ :: _ => ret None
          end
  end.

Definition copySpecificFile (sourcePath targetPath fileName : string)
  : M (GoError + ProtoFile.t) :=
  let sourceFile := Filepath.Join sourcePath fileName in
  let targetFile := Filepath.Join targetPath fileName in
  exists_ <- fileExists sourceFile ;;
  if negb exists_ then
    listed <- listFiles sourcePath "*.proto" ;;
    let availableFiles := fst listed in
    let fileNames := map ProtoFile.Name availableFiles in
    ret (inl (errorf ("specific proto file not found: " ++ sourceFile
                      ++ String "010" "Available proto files: "
                      ++ Strings.Join fileNames ", ")))
  else
    targetExists <- fileExists targetFile ;;
    werr <- (if targetExists then makeWritable targetFile else ret None) ;;
    match werr with
    | Some err => ret (inl (wrapf "failed to make target file writable: " err))
    | None =>
        logger Info ("Copying specific proto file: " ++ fileName) ;;;
        cerr <- copyFile sourceFile targetFile ;;
        match cerr with
        | Some err => ret (inl (wrapf "failed to copy file: " err))
        | None =>
            logger Success ("Successfully copied proto file: " ++ fileName) ;;;
            ret (inr {| ProtoFile.Name := fileName;
                        ProtoFile.Path := targetFile;
                        ProtoFile.Size := 0%Z;
                        ProtoFile.ModifiedTime := 0%Z |})
        end
    end.

(** [for _, file := range existingFiles] of [copyAllProtoFiles] *)
Fixpoint makeAllWritable (existingFiles : list ProtoFile.t) : M unit :=
  match existingFiles with
  | [] => ret tt
  | file :: rest =>
      werr <- makeWritable (ProtoFile.Path file) ;;
      match werr with
      | Some _ =>
          logger Warning ("Failed to make file writable: "
                          ++ ProtoFile.Path file)
      | None => ret tt
      end ;;;
      makeAllWritable rest
  end.

(** [for _, sourceFile := range sourceFiles] of [copyAllProtoFiles]; on
    the first failure the files copied so far are returned with the
    error. *)
Fixpoint copyEach (targetPath : string) (sourceFiles : list ProtoFile.t)
         (copiedFiles : list ProtoFile.t)
  : M (list ProtoFile.t * option GoError) :=
  match sourceFiles with
  | [] => ret (copiedFiles, None)
  | sourceFile :: rest =>
      let targetFile := Filepath.Join targetPath (ProtoFile.Name sourceFile) in
      cerr <- copyFile (ProtoFile.Path sourceFile) targetFile ;;
      match cerr with
      | Some err =>
          ret (copiedFiles,
               Some (wrapf ("failed to copy " ++ ProtoFile.Name sourceFile
                            ++ ": ") err))
      | None =>
          copyEach targetPath rest
            (copiedFiles ++ [{| ProtoFile.Name := ProtoFile.Name sourceFile;
                                ProtoFile.Path := targetFile;
                                ProtoFile.Size := 0%Z;
                                ProtoFile.ModifiedTime := 0%Z |}])
      end
  end.

Fixpoint printNames (files : list ProtoFile.t) : M unit :=
  match files with
  | [] => ret tt
  | file :: rest =>
      printf ("  - " ++ ProtoFile.Name file ++ String "010" "") ;;;
      printNames rest
  end.

Definition copyAllProtoFiles (sourcePath targetPath : string)
  : M (list ProtoFile.t * option GoError) :=
  listed <- listFiles sourcePath "*.proto" ;;
  match snd listed with
  | Some err => ret ([], Some (wrapf "failed to list proto files: " err))
  | None =>
      let sourceFiles := fst listed in
      match sourceFiles with
      | [] =>
          logger Warning ("No .proto files found in " ++ sourcePath) ;;;
          ret ([], None)
      | _ :: _ =>
          logger Info ("Copying " ++ itoa (length sourceFiles)
                       ++ " proto file(s) from " ++ sourcePath ++ " to "
                       ++ targetPath ++ "...") ;;;
          existing <- listFiles targetPath "*.proto" ;;
          makeAllWritable (fst existing) ;;;
          copied <- copyEach targetPath sourceFiles [] ;;
          match snd copied with
          | Some err => ret copied
          | None =>
              logger Success "Successfully copied proto files:" ;;;
              printNames (fst copied) ;;;
              ret (fst copied, None)
          end
      end
  end.

Fixpoint printFileNames (files : list ProtoFile.t) : M unit :=
  match files with
  | [] => ret tt
  | file :: rest =>
      printf ("     - " ++ ProtoFile.Name file ++ String "010" "") ;;;
      printFileNames rest
  end.

Definition dryRunRepository (repo : Repository.t) (config : SyncConfig.t)
  : M SyncResult.t :=
  let result := {| SyncResult.Repository := repo;
                   SyncResult.FilesUpdated := [];
                   SyncResult.Success := true;
                   SyncResult.Error := None |} in
  logger Info "DRY RUN MODE - Actions that would be performed:" ;;;
  printf ("  1. Download: go mod download " ++ Repository.Name repo ++ "@"
          ++ Repository.Version repo ++ String "010" "") ;;;
  located <- getModulePath (Repository.Name repo) (Repository.Version repo) ;;
  match located with
  | inl err =>
      printf ("  2. Error getting module path: " ++ errMsg err
              ++ String "010" "") ;;;
      ret result
  | inr modulePath =>
      let sourcePath := Filepath.Join modulePath (SyncConfig.SourcePath config) in
      printf ("  2. Source directory: " ++ sourcePath ++ String "010" "") ;;;
      printf ("  3. Target directory: " ++ SyncConfig.TargetPath config
              ++ String "010" "") ;;;
      sourceExists <- fileExists sourcePath ;;
      (if sourceExists then
         if negb (String.eqb (SyncConfig.SpecificFile config) "") then
           printf ("  4. Specific proto file that would be copied:"
                   ++ String "010" "") ;;;
           fileFound <- fileExists (Filepath.Join sourcePath
                                      (SyncConfig.SpecificFile config)) ;;
           if fileFound then
             printf ("     - " ++ SyncConfig.SpecificFile config
                     ++ String "010" "")
           else
             printf ("     - " ++ SyncConfig.SpecificFile config
                     ++ " (NOT FOUND - would fail)" ++ String "010" "")
         else
           printf ("  4. Proto files that would be copied:"
                   ++ String "010" "") ;;;
           listed <- listFiles sourcePath "*.proto" ;;
           match snd listed with
           | Some err =>
               printf ("     Error listing files: " ++ errMsg err
                       ++ String "010" "")
           | None => printFileNames (fst listed)
           end
       else
         printf ("  4. Source directory does not exist yet "
                 ++ "(would be created by download)" ++ String "010" "")) ;;;
      ret result
  end.

(** [result.Error = err; return result] *)
Definition failed (result : SyncResult.t) (err : GoError) : SyncResult.t :=
  {| SyncResult.Repository := SyncResult.Repository result;
     SyncResult.FilesUpdated := SyncResult.FilesUpdated result;
     SyncResult.Success := SyncResult.Success result;
     SyncResult.Error := Some err |}.

(** [result.FilesUpdated = files; result.Success = true; return result] *)
Definition succeeded (result : SyncResult.t) (files : list ProtoFile.t)
  : SyncResult.t :=
  {| SyncResult.Repository := SyncResult.Repository result;
     SyncResult.FilesUpdated := files;
     SyncResult.Success := true;
     SyncResult.Error := SyncResult.Error result |}.

(** The steps of [processRepository] before the copy: download the
    module, get its path, check the source directory and create the
    target directory when it is missing.  The result is the error of
    the step that failed, or [sourcePath]. *)
Definition fetchSource (ctx : Context) (repo : Repository.t)
           (config : SyncConfig.t) : M (GoError + string) :=
  derr <- downloadModule ctx (Repository.Name repo) (Repository.Version repo) ;;
  match derr with
  | Some err => ret (inl (wrapf "failed to download module: " err))
  | None =>
      located <- getModulePath (Repository.Name repo) (Repository.Version repo) ;;
      match located with
      | inl err => ret (inl (wrapf "failed to get module path: " err))
      | inr modulePath =>
          let sourcePath :=
            Filepath.Join modulePath (SyncConfig.SourcePath config) in
          sourceExists <- fileExists sourcePath ;;
          if negb sourceExists then
            ret (inl (errorf ("source directory not found: " ++ sourcePath)))
          else
            targetExists <- fileExists (SyncConfig.TargetPath config) ;;
            if negb targetExists then
              logger Info ("Creating target directory: "
                           ++ SyncConfig.TargetPath config) ;;;
              merr <- createDir (SyncConfig.TargetPath config) ;;
              match merr with
              | Some err =>
                  ret (inl (wrapf "failed to create target directory: " err))
              | None => ret (inr sourcePath)
              end
            else ret (inr sourcePath)
      end
  end.

Definition processRepository (ctx : Context) (repo : Repository.t)
           (config : SyncConfig.t) : M SyncResult.t :=
  let result := {| SyncResult.Repository := repo;
                   SyncResult.FilesUpdated := [];
                   SyncResult.Success := false;
                   SyncResult.Error := None |} in
  logger Info ("Processing repository: " ++ Repository.Name repo) ;;;
  if SyncConfig.DryRun config then dryRunRepository repo config
  else
    fetched <- fetchSource ctx repo config ;;
    match fetched with
    | inl err => ret (failed result err)
    | inr sourcePath =>
        if negb (String.eqb (SyncConfig.SpecificFile config) "") then
          copied <- copySpecificFile sourcePath (SyncConfig.TargetPath config)
                                     (SyncConfig.SpecificFile config) ;;
          match copied with
          | inl err => ret (failed result err)
          | inr file => ret (succeeded result [file])
          end
        else
          copied <- copyAllProtoFiles sourcePath (SyncConfig.TargetPath config) ;;
          match snd copied with
          | Some err => ret (failed result err)
          | None => ret (succeeded result (fst copied))
          end
    end.

(** [for _, repo := range repositories] of [Sync] *)
Fixpoint processAll (ctx : Context) (config : SyncConfig.t)
         (repositories : list Repository.t) (results : list SyncResult.t)
  : M (list SyncResult.t) :=
  match repositories with
  | [] => ret results
  | repo :: rest =>
      result <- processRepository ctx repo config ;;
      match SyncConfig.DryRun config, SyncResult.Error result with
      | false, Some err =>
          logger Error ("Failed to process repository " ++ Repository.Name repo
                        ++ ": " ++ errMsg err)
      | _, _ => ret tt
      end ;;;
      processAll ctx config rest (results ++ [result])
  end.

(** [repositories[i].Version = config.SpecifiedVersion] for every [i],
    when a version is specified. *)
Definition overrideVersion (specifiedVersion : string)
           (repositories : list Repository.t) : list Repository.t :=
  if negb (String.eqb specifiedVersion "") then
    map (fun repo => {| Repository.Name := Repository.Name repo;
                        Repository.Version := specifiedVersion;
                        Repository.URL := Repository.URL repo |})
        repositories
  else repositories.

(** The part of [Sync] before the loop: validation, target path, the
    repositories to process, version override and single-repo mode.
    The result is the error that ends the run, or the configuration as
    [Sync] leaves it behind its pointer (target path written, and the
    versions of [config.Repositories] overwritten in place, since
    [repositories] shares its elements) with the repositories to
    process. *)
Definition resolveRepositories (config : option SyncConfig.t)
  : M (GoError + SyncConfig.t * list Repository.t) :=
  verr <- ValidateConfig config ;;
  match verr, config with
  | Some err, _ => ret (inl (wrapf "invalid configuration: " err))
  | None, None =>
      (* not reached: [ValidateConfig] rejects nil *)
      ret (inl (errorf "invalid memory address or nil pointer dereference"))
  | None, Some config =>
      parsed <- parseBufYaml (SyncConfig.BufYamlPath config) ;;
      match parsed with
      | inl err => ret (inl (wrapf "failed to parse buf.yaml: " err))
      | inr moduleInfo =>
          let targetPath := ModuleInfo.Path moduleInfo in
          logger Info ("Target path from " ++ SyncConfig.BufYamlPath config
                       ++ ": " ++ targetPath) ;;;
          detected <-
            match SyncConfig.Repositories config with
            | [] =>
                logger Info ("Auto-detecting protobuf libraries from "
                             ++ SyncConfig.GoModPath config ++ "...") ;;;
                goMod <- parseProtobufLibraries (SyncConfig.GoModPath config) ;;
                match goMod with
                | inl err => ret (inl (wrapf "failed to parse go.mod: " err))
                | inr goModInfo => ret (inr (GoModInfo.Repositories goModInfo))
                end
            | repositories => ret (inr repositories)
            end ;;
          match detected with
          | inl err => ret (inl err)
          | inr repositories =>
              let repositories :=
                overrideVersion (SyncConfig.SpecifiedVersion config) repositories in
              let config' :=
                {| SyncConfig.Repositories :=
                     match SyncConfig.Repositories config with
                     | [] => []
                     | _ :: _ => repositories
                     end;
                   SyncConfig.SourcePath := SyncConfig.SourcePath config;
                   SyncConfig.TargetPath := targetPath;
                   SyncConfig.BufYamlPath := SyncConfig.BufYamlPath config;
                   SyncConfig.GoModPath := SyncConfig.GoModPath config;
                   SyncConfig.SpecificFile := SyncConfig.SpecificFile config;
                   SyncConfig.DryRun := SyncConfig.DryRun config;
                   SyncConfig.SingleRepo := SyncConfig.SingleRepo config;
                   SyncConfig.ListVersions := SyncConfig.ListVersions config;
                   SyncConfig.SpecifiedVersion :=
                     SyncConfig.SpecifiedVersion config |} in
              if SyncConfig.SingleRepo config && (1 <? length repositories) then
                logger Info
                  "Single repo mode: processing only the first repository" ;;;
                ret (inr (config', firstn 1 repositories))
              else ret (inr (config', repositories))
          end
      end
  end.

Definition successCount (results : list SyncResult.t) : nat :=
  length (filter SyncResult.Success results).

(** [if !config.DryRun { ... }] after the loop *)
Definition reportSummary (config : SyncConfig.t) (results : list SyncResult.t)
  : M unit :=
  if negb (SyncConfig.DryRun config) then
    if successCount results =? length results then
      logger Success "All proto files updated successfully!" ;;;
      logger Info ("You may want to run 'buf generate' to regenerate "
                   ++ "code from the updated protos")
    else
      logger Warning (itoa (successCount results) ++ " out of "
                      ++ itoa (length results)
                      ++ " repositories processed successfully")
  else ret tt.

Definition Sync (ctx : Context) (config : option SyncConfig.t)
  : M (GoError + list SyncResult.t) :=
  resolved <- resolveRepositories config ;;
  match resolved with
  | inl err => ret (inl err)
  | inr (config, repositories) =>
      logger Info ("Processing " ++ itoa (length repositories)
                   ++ " repository(ies)...") ;;;
      results <- processAll ctx config repositories [] ;;
      reportSummary config results ;;;
      ret (inr results)
  end.

End Service.

Arguments ret {World A}.
Arguments bind {World A B}.
Arguments ValidateConfig {World}.
Arguments copySpecificFile {World}.
Arguments copyAllProtoFiles {World}.
Arguments dryRunRepository {World Context}.
Arguments fetchSource {World Context}.
Arguments processRepository {World Context}.
Arguments processAll {World Context}.
Arguments resolveRepositories {World Context}.
Arguments reportSummary {World}.
Arguments Sync {World Context}.

Definition resultOf {World A} (m : M World A) (w : World) : A := fst (fst (m w)).
Definition callsOf {World A} (m : M World A) (w : World) : list Call := snd (m w).

(** Every run of [m] returns a result in [Q] and makes only calls in
    [P]. *)
Definition sat {World A} (m : M World A) (Q : A -> Prop) (P : Call -> bool)
  : Prop :=
  forall w, Q (resultOf m w) /\ forallb P (callsOf m w) = true.

(** The configuration that [Sync] works with differs from the given one
    in its target path and repositories only. *)
Definition sameIntent (config config' : SyncConfig.t) : Prop :=
  SyncConfig.SourcePath config' = SyncConfig.SourcePath config
  /\ SyncConfig.SpecificFile config' = SyncConfig.SpecificFile config
  /\ SyncConfig.DryRun config' = SyncConfig.DryRun config
  /\ SyncConfig.SingleRepo config' = SyncConfig.SingleRepo config
  /\ SyncConfig.SpecifiedVersion config' = SyncConfig.SpecifiedVersion config.

(** [result.Success] holds exactly when [result.Error] is nil. *)
Definition flagsAgree (result : SyncResult.t) : Prop :=
  SyncResult.Success result = true <-> SyncResult.Error result = None.

(** [repositories[:1]] in single-repo mode, when there is more than one. *)
Definition selectRepositories (singleRepo : bool) (repositories : list Repository.t)
  : list Repository.t :=
  if singleRepo && (1 <? length repositories) then firstn 1 repositories
  else repositories.

(** The three steps of [Sync] that end the run with an error. *)
Definition isConfigurationError (err : GoError) : Prop :=
  exists cause,
    err = wrapf "invalid configuration: " cause
    \/ err = wrapf "failed to parse buf.yaml: " cause
    \/ err = wrapf "failed to parse go.mod: " cause.

(** What [copyAllProtoFiles] reports for a source file that it copied. *)
Definition copiedAs (targetPath : string) (sourceFile : ProtoFile.t) : ProtoFile.t :=
  {| ProtoFile.Name := ProtoFile.Name sourceFile;
     ProtoFile.Path := Filepath.Join targetPath (ProtoFile.Name sourceFile);
     ProtoFile.Size := 0%Z;
     ProtoFile.ModifiedTime := 0%Z |}.

(** The [CopyFile] call of [copyAllProtoFiles] for a source file. *)
Definition copyCall (targetPath : string) (sourceFile : ProtoFile.t) : Call :=
  CallCopyFile (ProtoFile.Path sourceFile)
               (Filepath.Join targetPath (ProtoFile.Name sourceFile)).

(** *** [ListVersions] of the service

    A Go [map[string][]string] is a list of entries with one entry per key;
    only lookups are meaningful, since a map has no order. *)

Definition VersionMap : Type := list (string * list string).

(** [m[key]], with [ok]. *)
Definition mapGet (m : VersionMap) (key : string) : option (list string) :=
  option_map snd (find (fun entry => String.eqb (fst entry) key) m).

(** [m[key] = versions] *)
Definition mapSet (m : VersionMap) (key : string) (versions : list string)
  : VersionMap :=
  (key, versions) :: filter (fun entry => negb (String.eqb (fst entry) key)) m.

Section Versions.
Variable World : Type.
(** [p.goModRepo.ListVersions] *)
Variable listVersions : string -> World -> (GoError + list string) * World.

(** [for _, repo := range repositories] of [ListVersions]; the calls are
    the messages given to the logger. *)
Fixpoint listEach (repositories : list Repository.t) (result : VersionMap)
  : M World VersionMap :=
  fun w =>
    match repositories with
    | [] => (result, w, [])
    | repo :: rest =>
        let '(listed, w1) := listVersions (Repository.Name repo) w in
        match listed with
        | inl err =>
            let '(out, w2, cs) := listEach rest result w1 in
            (out, w2,
             CallLogger Error ("Failed to list versions for "
                               ++ Repository.Name repo ++ ": " ++ errMsg err)
             :: cs)
        | inr versions =>
            listEach rest (mapSet result (Repository.Name repo) versions) w1
        end
    end.

Definition ListVersions (repositories : list Repository.t)
  : M World (VersionMap * option GoError) :=
  fun w => let '(result, w1, cs) := listEach repositories [] w in
           ((result, None), w1, cs).
End Versions.

Arguments listEach {World}.
Arguments ListVersions {World}.

(** [name] is the name of one of the repositories. *)
Definition isNamed (repositories : list Repository.t) (name : string) : bool :=
  existsb (fun repo => String.eqb (Repository.Name repo) name) repositories.

Definition isFailure {A} (r : GoError + A) : bool :=
  match r with
  | inl _ => true
  | inr _ => false
  end.

End App.

(** ** Package [infrastructure]: versions of a module

    [GetLatestVersion] and [ListVersions] of [GoModRepositoryImpl] run
    [go list -m -versions] and fall back to the module proxy.  The command
    and the proxy are inputs: [goList] is the result of [cmd.Output()], and
    [proxyGet] gives, for a URL, the result of [client.Get]. *)

Module Versions.
Import Strings.

(** An HTTP response: its status code and the result of reading its
    body. *)
Record Response : Type := {
  StatusCode : nat;
  Body : GoError + string
}.

Definition newline : ascii := "010"%char.

(** A field of [strings.Fields]: not empty and without white space. *)
Definition isField (t : string) : Prop :=
  t <> "" /\ Regexp.allIn notSpace t = true.

Definition encodeRepo (repo : string) : string := ReplaceAll repo "/" "%2F".

Section Proxy.
Variable proxyGet : string -> GoError + Response.
(** [json.Unmarshal(body, &versionInfo)] followed by
    [versionInfo.Version]. *)
Variable decodeVersion : string -> GoError + string.

Definition GetLatestVersion (repo : string) (goList : GoError + string)
  : GoError + string :=
  let fromGo :=
    match goList with
    | inr output =>
        let versions := Fields output in
        if 1 <? length versions then Some (last versions "") else None
    | inl _ => None
    end in
  match fromGo with
  | Some version => inr version
  | None =>
      let proxyURL : string :=
        ("https://proxy.golang.org/" ++ encodeRepo repo ++ "/@latest")%string in
      match proxyGet proxyURL with
      | inl err =>
          inl (wrapf ("failed to fetch latest version for " ++ repo ++ ": ") err)
      | inr resp =>
          if negb (StatusCode resp =? 200) then
            inl (errorf ("failed to fetch latest version for " ++ repo ++ ": HTTP "
                         ++ NilZero.string_of_uint (Nat.to_uint (StatusCode resp))))
          else
            match Body resp with
            | inl err => inl (wrapf "failed to read response body: " err)
            | inr body =>
                match decodeVersion body with
                | inl err => inl (wrapf "failed to parse version response: " err)
                | inr version =>
                    if String.eqb version "" then
                      inl (errorf ("empty version returned for " ++ repo))
                    else inr version
                end
            end
      end
  end.

Definition ListVersions (repo : string) (goList : GoError + string)
  : GoError + list string :=
  let fromGo :=
    match goList with
    | inr output =>
        let versions := Fields output in
        if 1 <? length versions then Some (tl versions) else None
    | inl _ => None
    end in
  match fromGo with
  | Some versions => inr versions
  | None =>
      let proxyURL : string :=
        ("https://proxy.golang.org/" ++ encodeRepo repo ++ "/@v/list")%string in
      match proxyGet proxyURL with
      | inl err => inl (wrapf ("failed to fetch versions for " ++ repo ++ ": ") err)
      | inr resp =>
          if negb (StatusCode resp =? 200) then
            inl (errorf ("failed to fetch versions for " ++ repo ++ ": HTTP "
                         ++ NilZero.string_of_uint (Nat.to_uint (StatusCode resp))))
          else
            match Body resp with
            | inl err => inl (wrapf "failed to read response body: " err)
            | inr body =>
                let versions := Split (TrimSpace body) newline in
                if (length versions =? 1) && String.eqb (nth 0 versions "") ""
                then inr []
                else inr versions
            end
      end
  end.
End Proxy.

End Versions.

(** ** Package [infrastructure]: [MakeWritable] of [FileRepositoryImpl]

    [os.Stat] and [os.Chmod] are functions of the world; a file mode is the
    number of its bits. *)

Module FileRepo.

Definition ownerWrite : Z := 128.  (* 0o200 *)

Section OS.
Variable World : Type.
Variable Stat : string -> World -> (GoError + Z) * World.
Variable Chmod : string -> Z -> World -> option GoError * World.

Definition MakeWritable (path : string) (w : World) : option GoError * World :=
  let '(info, w1) := Stat path w in
  match info with
  | inl err => (Some err, w1)
  | inr mode => Chmod path (Z.lor mode ownerWrite) w1
  end.
End OS.

Arguments MakeWritable {World}.

End FileRepo.

(** ** Package [infrastructure]: [ParseBufYaml] of [BufRepositoryImpl]

    [yaml.Unmarshal] is an input: [unmarshal] gives the [BufConfig] that it
    fills for the bytes of a file, or its error. *)

Module Buf.
Import Domain.

Record BufModule : Type := {
  Path : string;
  Name : string
}.

Record BufConfig : Type := {
  Version : string;
  Modules : list BufModule
}.

Section Parse.
Variable World : Type.
Variable fileRepo : FileRepository World.
(** [b.fileRepo.ReadFile], the method of the file repository that the
    service has no use for. *)
Variable ReadFile : string -> World -> (GoError + string) * World.
Variable unmarshal : string -> GoError + BufConfig.

Definition ParseBufYaml (bufYamlPath : string) (w : World)
  : (GoError + ModuleInfo.t) * World :=
  let '(exists_, w1) := FileExists fileRepo bufYamlPath w in
  if negb exists_ then
    (inl (errorf ("buf.yaml file not found at: " ++ bufYamlPath)), w1)
  else
    let '(read, w2) := ReadFile bufYamlPath w1 in
    match read with
    | inl err => (inl (wrapf "failed to read buf.yaml file: " err), w2)
    | inr data =>
        match unmarshal data with
        | inl err => (inl (wrapf "failed to parse buf.yaml: " err), w2)
        | inr config =>
            match Modules config with
            | [] => (inl (errorf ("no modules found in " ++ bufYamlPath)), w2)
            | module :: _ =>
                if String.eqb (Path module) "" then
                  (inl (errorf ("module path is empty in " ++ bufYamlPath)), w2)
                else
                  (inr {| ModuleInfo.Name := Name module;
                          ModuleInfo.Path := Path module |}, w2)
            end
        end
    end.

(** [NewBufRepository(logger, fileRepo)] *)
Definition bufRepository : BufRepository World :=
  {| Domain.ParseBufYaml := ParseBufYaml |}.
End Parse.

Arguments ParseBufYaml {World}.
Arguments bufRepository {World}.

End Buf.

(** ** Package [interfaces]: [handleSync] of the command line *)

Module CLI.
Import Domain App.

(** "Assume tools are available for now" *)
Definition isCommandAvailable (command : string) : bool := true.

Definition validateRequiredTools : option GoError :=
  if negb (isCommandAvailable "go") then
    Some (errorf "go is required but not installed")
  else None.

Section Handler.
Variable World : Type.
Variable Context : Type.
(** [c.service], as [main] builds it. *)
Variable fileRepo : FileRepository World.
Variable goModRepo : GoModRepository World Context.
Variable bufRepo : BufRepository World.

Definition handleSync (ctx : Context) (config : option SyncConfig.t)
  : M World (option GoError) :=
  match validateRequiredTools with
  | Some err => ret (Some err)
  | None =>
      bind (Sync fileRepo goModRepo bufRepo ctx config)
        (fun synced =>
           match synced with
           | inl err =>
               bind (logger World Error ("Sync failed: " ++ errMsg err))
                    (fun _ => ret (Some err))
           | inr results =>
               match config with
               | None =>
                   (* not reached: [Sync] returns an error for nil *)
                   ret (Some (errorf "invalid memory address or nil pointer dereference"))
               | Some config =>
                   if SyncConfig.DryRun config then ret None
                   else
                     bind (logger World Info
                             ("Sync completed: " ++ itoa (successCount results)
                              ++ "/" ++ itoa (length results)
                              ++ " repositories processed successfully"))
                          (fun _ => ret None)
               end
           end)
  end.
End Handler.

Arguments handleSync {World Context}.

(** [handleListVersions] reads [config.Repositories] on entry, so its
    configuration is a value.  [range versions] visits the entries of the
    map in an order that Go leaves open: [rangeOver] gives it. *)

Section ListHandler.
Variable World : Type.
Variable Context : Type.
Variable fileRepo : FileRepository World.
(** [p.goModRepo.ListVersions], behind [c.service.ListVersions] *)
Variable listVersions : string -> World -> (GoError + list string) * World.
Variable rangeOver : VersionMap -> VersionMap.

(** [fmt.Println(version)] for each version *)
Fixpoint printLines (versionList : list string) : M World unit :=
  match versionList with
  | [] => ret tt
  | version :: rest =>
      bind (printf World (version ++ String "010" ""))
           (fun _ => printLines rest)
  end.

Fixpoint printVersions (entries : VersionMap) : M World unit :=
  match entries with
  | [] => ret tt
  | (repo, versionList) :: rest =>
      bind (printf World ("--- Versions for " ++ repo ++ " ---" ++ String "010" ""))
           (fun _ =>
              bind (printLines versionList)
                   (fun _ =>
                      bind (printf World (String "010" ""))
                           (fun _ => printVersions rest)))
  end.

Definition handleListVersions (ctx : Context) (config : SyncConfig.t)
  : M World (option GoError) :=
  match validateRequiredTools with
  | Some err => ret (Some err)
  | None =>
      match SyncConfig.Repositories config with
      | [] =>
          bind (ValidateConfig fileRepo (Some config))
            (fun invalid =>
               match invalid with
               | Some err => ret (Some (wrapf "invalid configuration: " err))
               | None =>
                   ret (Some (errorf "no repositories specified. Use --repo flag or ensure go.mod has '// Protobuf libraries' section"))
               end)
      | repositories =>
          bind (ListVersions listVersions repositories)
            (fun listed =>
               match snd listed with
               | Some err => ret (Some (wrapf "failed to list versions: " err))
               | None =>
                   bind (printVersions (rangeOver (fst listed)))
                        (fun _ => ret None)
               end)
      end
  end.
End ListHandler.

Arguments printLines {World}.
Arguments printVersions {World}.
Arguments handleListVersions {World Context}.

(** The existence tests of [ValidateConfig]. *)
Definition isExistenceTest (c : Call) : bool :=
  match c with
  | CallFileExists _ => true
  | _ => false
  end.

(** What the listing of versions shows: failures and printed text. *)
Definition isReport (c : Call) : bool :=
  match c with
  | CallLogger Error _ | Printf _ => true
  | _ => false
  end.

End CLI.

(** ** An in-memory world

    A file system given by the paths that exist, the manifests by their
    lines, and a module cache in which some modules cannot be downloaded.
    It implements the collaborator interfaces, so that the service runs on
    concrete inputs. *)

Module Mock.
Import Domain.

Record World : Type := {
  paths : list string;
  manifests : list (string * list string);
  unavailable : list string
}.

(** A context is [true] once it is cancelled. *)
Definition Context : Type := bool.

Definition mem (p : string) (l : list string) : bool := existsb (String.eqb p) l.

Definition hasSuffix (s suffix : string) : bool :=
  let n := String.length s in
  let m := String.length suffix in
  (m <=? n) && String.eqb (substring (n - m) m s) suffix.

Definition base (path : string) : string := last (Filepath.elements "" path) "".

Definition fileRepo : FileRepository World := {|
  FileExists path w := (mem path (paths w), w);
  CreateDir path w :=
    (None, {| paths := paths w ++ [path]; manifests := manifests w;
              unavailable := unavailable w |});
  CopyFile src dst w :=
    if mem src (paths w) then
      (None, {| paths := paths w ++ [dst]; manifests := manifests w;
                unavailable := unavailable w |})
    else (Some (errorf ("failed to open source file " ++ src)), w);
  ListFiles dir pattern w :=
    ((map (fun p => {| ProtoFile.Name := base p; ProtoFile.Path := p;
                       ProtoFile.Size := 0%Z; ProtoFile.ModifiedTime := 0%Z |})
          (filter (fun p => Strings.HasPrefix p (dir ++ "/") && hasSuffix p ".proto")
                  (paths w)),
      None), w);
  MakeWritable path w := (None, w)
|}.

Definition goModRepo : GoModRepository World Context := {|
  ParseProtobufLibraries goModPath w :=
    (GoMod.ParseProtobufLibraries goModPath
       match find (fun m => String.eqb (fst m) goModPath) (manifests w) with
       | Some m => GoMod.Content (snd m) None
       | None => GoMod.OpenError (errorf "no such file or directory")
       end, w);
  DownloadModule ctx repo version w :=
    if (ctx : bool) then (Some (errorf "context canceled"), w)
    else if mem repo (unavailable w) then
      (Some (errorf ("failed to download " ++ repo ++ "@" ++ version)), w)
    else (None, w);
  GetModulePath repo version w :=
    (inr (Filepath.Join "/cache" (repo ++ "@" ++ version)), w)
|}.

Definition bufRepo : BufRepository World := {|
  ParseBufYaml bufYamlPath w :=
    (inr {| ModuleInfo.Name := "module"; ModuleInfo.Path := "out" |}, w)
|}.

Definition Sync := App.Sync fileRepo goModRepo bufRepo.

(** The manifest of scenario A and two more sources. *)
Definition goMod : list string :=
  [ "module example.com/test-project"; "";
    "// Protobuf libraries";
    "replace local-x v0.0.0 => github.com/acme/x v1.2.3";
    "replace local-y v0.0.0 => github.com/acme/y v0.8.5" ].

(** A section with two lines that are not of the six-token shape: one
    with a seventh token, one without blanks around the arrow. *)
Definition goModLenient : list string :=
  [ "// Protobuf libraries";
    "replace local-x v0.0.0 => github.com/acme/x v1.2.3 extra";
    "replace local-y v0.0.0=>github.com/acme/y v0.8.5" ].

(** A comment with the phrase, written without a blank after the
    slashes. *)
Definition goModTightMarker : list string :=
  [ "//Protobuf libraries";
    "replace local-x v0.0.0 => github.com/acme/x v1.2.3" ].

(** A manifest without any marker. *)
Definition goModPlain : list string :=
  [ "module example.com/test-project"; ""; "go 1.21" ].

(** A remote path on another host. *)
Definition goModGitlab : list string :=
  [ "// Protobuf libraries";
    "replace local-x v0.0.0 => gitlab.com/org/x v1.0.0" ].

Definition world0 : World := {|
  paths := [ "buf.yaml"; "go.mod";
             "/cache/github.com/acme/x@v1.2.3/schemas";
             "/cache/github.com/acme/x@v1.2.3/schemas/a.proto";
             "/cache/github.com/acme/x@v1.2.3/schemas/b.proto";
             "/cache/github.com/acme/y@v0.8.5/schemas";
             "/cache/github.com/acme/y@v0.8.5/schemas/y.proto" ];
  manifests := [ ("go.mod", goMod) ];
  unavailable := [ "github.com/acme/y" ]
|}.

Definition config (specificFile : string) (dryRun : bool) (version : string)
  : SyncConfig.t := {|
  SyncConfig.Repositories := [];
  SyncConfig.SourcePath := "schemas";
  SyncConfig.TargetPath := "";
  SyncConfig.BufYamlPath := "buf.yaml";
  SyncConfig.GoModPath := "go.mod";
  SyncConfig.SpecificFile := specificFile;
  SyncConfig.DryRun := dryRun;
  SyncConfig.SingleRepo := false;
  SyncConfig.ListVersions := false;
  SyncConfig.SpecifiedVersion := version
|}.

(** Real mode, all files, versions of the manifest. *)
Definition config0 : SyncConfig.t := config "" false "".

Definition sourceX : Repository.t :=
  {| Repository.Name := "github.com/acme/x"; Repository.Version := "v1.2.3";
     Repository.URL := "https://github.com/acme/x" |}.

Definition sourceY : Repository.t :=
  {| Repository.Name := "github.com/acme/y"; Repository.Version := "v0.8.5";
     Repository.URL := "https://github.com/acme/y" |}.

(** The outcomes of a run that returned no error. *)
Definition outcomes (run : (GoError + list SyncResult.t) * World * list Call)
  : list SyncResult.t :=
  match fst (fst run) with
  | inr results => results
  | inl _ => []
  end.

Definition worldAfter {A} (run : A * World * list Call) : World := snd (fst run).
Definition callsMade {A} (run : A * World * list Call) : list Call := snd run.

(** [config] once [Sync] has written the target path of [bufRepo]. *)
Definition resolvedConfig (specificFile : string) (dryRun : bool)
           (version : string) : SyncConfig.t := {|
  SyncConfig.Repositories := [];
  SyncConfig.SourcePath := "schemas";
  SyncConfig.TargetPath := "out";
  SyncConfig.BufYamlPath := "buf.yaml";
  SyncConfig.GoModPath := "go.mod";
  SyncConfig.SpecificFile := specificFile;
  SyncConfig.DryRun := dryRun;
  SyncConfig.SingleRepo := false;
  SyncConfig.ListVersions := false;
  SyncConfig.SpecifiedVersion := version
|}.

(** The calls of [Sync] before its loop, on [world0]. *)
Definition resolveCalls : list Call :=
  [ CallFileExists "buf.yaml"; CallFileExists "go.mod";
    CallParseBufYaml "buf.yaml";
    CallLogger Info "Target path from buf.yaml: out";
    CallLogger Info "Auto-detecting protobuf libraries from go.mod...";
    CallParseProtobufLibraries "go.mod" ].

(** [world0] once the target directory is created. *)
Definition world1 : World := {|
  paths := paths world0 ++ ["out"];
  manifests := manifests world0;
  unavailable := unavailable world0
|}.

Definition dryRun0 := Sync false (Some (config "" true "")) world0.
Definition realRun0 := Sync false (Some config0) world0.

(** The first source of the manifest, processed in real mode. *)
Definition processX :=
  App.processRepository fileRepo goModRepo false sourceX (resolvedConfig "" false "")
                        world0.

(** The sources that [Sync] resolves on [world0]. *)
Definition resolved (config : SyncConfig.t) : list Repository.t :=
  match fst (fst (App.resolveRepositories fileRepo goModRepo bufRepo
                                          (Some config) world0)) with
  | inr (_, repositories) => repositories
  | inl _ => []
  end.

(** Configured repositories instead of the manifest. *)
Definition configured (singleRepo : bool) : SyncConfig.t := {|
  SyncConfig.Repositories := [sourceX; sourceY];
  SyncConfig.SourcePath := "schemas";
  SyncConfig.TargetPath := "";
  SyncConfig.BufYamlPath := "buf.yaml";
  SyncConfig.GoModPath := "go.mod";
  SyncConfig.SpecificFile := "";
  SyncConfig.DryRun := false;
  SyncConfig.SingleRepo := singleRepo;
  SyncConfig.ListVersions := false;
  SyncConfig.SpecifiedVersion := ""
|}.


(** [world0] with a manifest that has no marker. *)
Definition worldPlain : World := {|
  paths := paths world0;
  manifests := [ ("go.mod", goModPlain) ];
  unavailable := []
|}.

Definition schemasX : string := "/cache/github.com/acme/x@v1.2.3/schemas".

(** The versions that the module cache knows. *)
Definition knownVersions (name : string) : GoError + list string :=
  if String.eqb name "github.com/acme/x" then inr ["v1.0.0"; "v1.2.3"]
  else inl (errorf ("no versions for " ++ name)%string).

Definition listVersions (name : string) (w : World)
  : (GoError + list string) * World :=
  (knownVersions name, w).

(** A proxy that answers every request with two versions. *)
Definition proxy (url : string) : GoError + Versions.Response :=
  inr {| Versions.StatusCode := 200;
         Versions.Body :=
           inr ("v1.0.0" ++ String "010" ("v1.2.3" ++ String "010" ""))%string |}.

(** A proxy that cannot be reached. *)
Definition offline (url : string) : GoError + Versions.Response :=
  inl (errorf "dial tcp: no route to host").

Definition decodeNothing (body : string) : GoError + string :=
  inl (errorf "unexpected end of JSON input").

(** A [buf.yaml] with two modules. *)
Definition readFile (path : string) (w : World) : (GoError + string) * World :=
  (inr "version: v2", w).

Definition unmarshal (data : string) : GoError + Buf.BufConfig :=
  inr {| Buf.Version := "v2";
         Buf.Modules := [ {| Buf.Path := "proto"; Buf.Name := "" |};
                          {| Buf.Path := "other"; Buf.Name := "second" |} ] |}.

(** Stated from the specification: a run whose context is cancelled
    before the first source starts returns the outcomes gathered so far,
    of which there are none. *)
Definition cancellationStopsRun (config : option SyncConfig.t) (w : World)
  : Prop :=
  forall results w' cs,
    Sync true config w = (inr results, w', cs) -> results = [].

End Mock.


(** * Properties *)

(** ** Strings and paths *)

Module StringFacts.
Import Strings.

Lemma HasPrefix_app (b c : string) : HasPrefix (b ++ c) b = true.
Proof.
  induction b as [|x b IH]; simpl; [reflexivity | ].
  now rewrite Ascii.eqb_refl, IH.
Qed.

Lemma Contains_app_r (a t x : string) :
  Contains t x = true -> Contains (a ++ t) x = true.
Proof.
  intros H. induction a as [|c a IH]; simpl; [exact H | ].
  rewrite IH. apply orb_true_r.
Qed.

Lemma Contains_unfold (s x : string) :
  Contains s x
  = HasPrefix s x
    || match s with EmptyString => false | String _ s' => Contains s' x end.
Proof. destruct s; reflexivity. Qed.

Lemma Contains_refl_app (b c : string) : Contains (b ++ c) b = true.
Proof. rewrite Contains_unfold, HasPrefix_app. reflexivity. Qed.

Lemma append_empty_r (s : string) : (s ++ "")%string = s.
Proof. induction s; simpl; congruence. Qed.

Lemma append_snoc (a : string) c (b : string) :
  ((a ++ String c "") ++ b)%string = (a ++ String c b)%string.
Proof. induction a; simpl; congruence. Qed.

Lemma append_assoc (a b c : string) : ((a ++ b) ++ c = a ++ (b ++ c))%string.
Proof. induction a; simpl; congruence. Qed.

Lemma Contains_mid (a b c : string) : Contains (a ++ b ++ c) b = true.
Proof. apply Contains_app_r, Contains_refl_app. Qed.

Lemma Join_contains (l : list string) (sep x : string) :
  In x l -> Contains (Join l sep) x = true.
Proof.
  induction l as [|e l IH]; [contradiction | ]. intros [-> | Hin].
  - destruct l; simpl Join.
    + rewrite <- (append_empty_r x) at 1. apply Contains_refl_app.
    + apply Contains_refl_app.
  - destruct l as [|e' l]; [contradiction | ].
    change (Join (e :: e' :: l) sep) with (e ++ sep ++ Join (e' :: l) sep)%string.
    apply Contains_app_r, Contains_app_r, IH, Hin.
Qed.

Lemma Join_snoc (l : list string) (sep x : string) :
  exists pre, Join (l ++ [x]) sep = (pre ++ x)%string.
Proof.
  induction l as [|e l IH]; [exists ""; reflexivity | ].
  destruct IH as [pre IH]. destruct l as [|e' l].
  - exists (e ++ sep)%string. simpl. now rewrite append_assoc.
  - exists (e ++ sep ++ pre)%string.
    change (Join ((e :: e' :: l) ++ [x]) sep)
      with (e ++ sep ++ Join ((e' :: l) ++ [x]) sep)%string.
    rewrite IH. now rewrite !append_assoc.
Qed.

End StringFacts.

Module FilepathFacts.
Import Filepath.

Lemma elements_plain (name cur : string) :
  noSlash name = true -> elements cur name = [(cur ++ name)%string].
Proof.
  revert cur. induction name as [|c name IH]; intros cur H; simpl in *.
  - f_equal. induction cur; simpl; congruence.
  - apply andb_prop in H as [Hc H].
    destruct (Ascii.eqb c slash); [discriminate | ].
    rewrite (IH _ H), StringFacts.append_snoc. reflexivity.
Qed.

Lemma elements_snoc (dir name cur : string) :
  noSlash name = true ->
  elements cur (dir ++ String slash name) = elements cur dir ++ [name].
Proof.
  intros H. revert cur. induction dir as [|c dir IH]; intros cur; simpl.
  - rewrite (elements_plain _ _ H). reflexivity.
  - destruct (Ascii.eqb c slash); simpl; now rewrite IH.
Qed.

Lemma plainName_noSlash name : plainName name = true -> noSlash name = true.
Proof. unfold plainName. intros H. now apply andb_prop in H as [_ H]. Qed.

Lemma cleanStep_plain rooted out name :
  plainName name = true -> cleanStep rooted out name = name :: out.
Proof.
  unfold plainName, cleanStep. intros H.
  apply andb_prop in H as [H _]. apply andb_prop in H as [H H2].
  apply andb_prop in H as [H0 H1].
  destruct (String.eqb name ""); [discriminate | ].
  destruct (String.eqb name "."); [discriminate | ].
  destruct (String.eqb name ".."); [discriminate | ]. reflexivity.
Qed.

Lemma eqb_app_nonempty (pre name : string) :
  String.eqb name "" = false -> String.eqb (pre ++ name) "" = false.
Proof.
  intros H. destruct pre; [exact H | reflexivity].
Qed.

Lemma Clean_snoc dir name :
  plainName name = true ->
  exists pre, Clean (dir ++ String slash name) = (pre ++ name)%string.
Proof.
  intros H. unfold Clean.
  set (rooted := isRooted (dir ++ String slash name)).
  rewrite (elements_snoc _ _ _ (plainName_noSlash _ H)), fold_left_app.
  cbn [fold_left]. rewrite (cleanStep_plain _ _ _ H). cbn [rev].
  destruct (StringFacts.Join_snoc
              (rev (fold_left (cleanStep rooted) (elements "" dir) [])) "/" name)
    as [pre ->].
  rewrite <- StringFacts.append_assoc.
  assert (Hne : String.eqb name "" = false).
  { unfold plainName in H. destruct (String.eqb name ""); [discriminate | reflexivity]. }
  rewrite (eqb_app_nonempty _ _ Hne). eexists. reflexivity.
Qed.

Lemma Clean_plain name : plainName name = true -> Clean name = name.
Proof.
  intros H. unfold Clean.
  rewrite (elements_plain _ _ (plainName_noSlash _ H)). cbn [fold_left append].
  rewrite (cleanStep_plain _ _ _ H). cbn [rev app Strings.Join].
  assert (Hroot : isRooted name = false).
  { pose proof (plainName_noSlash _ H) as Hs. destruct name as [|c name]; [reflexivity | ].
    unfold noSlash in Hs. cbn in Hs |- *.
    destruct (Ascii.eqb c slash); [cbn in Hs; discriminate | reflexivity]. }
  rewrite Hroot. simpl.
  unfold plainName in H. destruct (String.eqb name ""); [discriminate | reflexivity].
Qed.

(** The path that [Join] builds for a file name proper ends with it. *)
Lemma Join_plain dir name :
  plainName name = true -> exists pre, Join dir name = (pre ++ name)%string.
Proof.
  intros H. unfold Join. destruct (negb (String.eqb dir "")).
  - apply (Clean_snoc dir name H).
  - assert (Hne : String.eqb name "" = false).
    { unfold plainName in H. destruct (String.eqb name ""); [discriminate | reflexivity]. }
    rewrite Hne. simpl. exists "". simpl. now apply Clean_plain.
Qed.

End FilepathFacts.

(** ** The pattern matcher *)

Module RegexpFacts.
Import Strings Regexp StringFacts.

Section Repetition.
Context {R : Type}.
Variable cls : ascii -> bool.
Variable k : string -> string -> option R.

(** The longest repetition is tried first. *)
Lemma star_greedy run rest acc r :
  allIn cls run = true -> stopsAt cls rest = true ->
  k (acc ++ run) rest = Some r ->
  star cls k acc (run ++ rest) = Some r.
Proof.
  revert acc. induction run as [|c run IH]; intros acc Hrun Hrest Hk.
  - rewrite append_empty_r in Hk. simpl.
    destruct rest as [|c rest]; simpl; [exact Hk | ].
    simpl in Hrest. destruct (cls c); [discriminate | exact Hk].
  - simpl in Hrun. apply andb_prop in Hrun as [Hc Hrun].
    simpl. rewrite Hc, (IH (acc ++ String c "")%string); auto.
    now rewrite append_snoc.
Qed.

Lemma plus_greedy c run rest r :
  allIn cls (String c run) = true -> stopsAt cls rest = true ->
  k (String c run) rest = Some r ->
  plus cls k (String c run ++ rest) = Some r.
Proof.
  intros Hrun Hrest Hk. simpl in Hrun.
  apply andb_prop in Hrun as [Hc Hrun]. simpl. rewrite Hc.
  now apply star_greedy.
Qed.

(** A match of a repetition consumed some run of the class. *)
Lemma star_inv s acc r :
  star cls k acc s = Some r ->
  exists run rest,
    s = (run ++ rest)%string /\ allIn cls run = true
    /\ k (acc ++ run) rest = Some r.
Proof.
  revert acc. induction s as [|c s IH]; intros acc H; simpl in H.
  - exists "", "". rewrite (append_empty_r acc). auto.
  - destruct (cls c) eqn:Hc.
    + destruct (star cls k (acc ++ String c "") s) as [r'|] eqn:Hs.
      * injection H as <-. destruct (IH _ Hs) as (run & rest & -> & Hrun & Hk).
        exists (String c run), rest. simpl. rewrite Hc, Hrun.
        rewrite append_snoc in Hk. auto.
      * exists "", (String c s). rewrite (append_empty_r acc). auto.
    + exists "", (String c s). rewrite (append_empty_r acc). auto.
Qed.

Lemma plus_inv s r :
  plus cls k s = Some r ->
  exists c run rest,
    s = String c (run ++ rest) /\ cls c = true /\ allIn cls run = true
    /\ k (String c run) rest = Some r.
Proof.
  destruct s as [|c s]; simpl; [discriminate | ].
  destruct (cls c) eqn:Hc; [ | discriminate]. intros H.
  destruct (star_inv _ _ _ H) as (run & rest & -> & Hrun & Hk).
  exists c, run, rest. auto.
Qed.
End Repetition.

Lemma stripPrefix_app l rest : stripPrefix l (l ++ rest) = Some rest.
Proof. induction l; simpl; [reflexivity | now rewrite Ascii.eqb_refl]. Qed.

Lemma stripPrefix_inv l s rest :
  stripPrefix l s = Some rest -> s = (l ++ rest)%string.
Proof.
  revert s. induction l as [|a l IH]; intros s H; simpl in H.
  - now injection H as ->.
  - destruct s as [|b s]; [discriminate | ].
    destruct (Ascii.eqb_spec a b); [subst | discriminate].
    simpl. now rewrite (IH _ H).
Qed.

(** *** Building a match, item by item *)

Lemma match_Lit l p rest res :
  matchItems p rest = Some res ->
  matchItems (Lit l :: p) (l ++ rest) = Some res.
Proof. intros H. simpl. now rewrite stripPrefix_app. Qed.

Lemma match_Star cl p run rest res :
  allIn (inClass cl) run = true -> stopsAt (inClass cl) rest = true ->
  matchItems p rest = Some res ->
  matchItems (Star cl :: p) (run ++ rest) = Some res.
Proof. intros Hrun Hrest H. simpl. now apply star_greedy. Qed.

Lemma match_Plus cl p c run rest res :
  allIn (inClass cl) (String c run) = true -> stopsAt (inClass cl) rest = true ->
  matchItems p rest = Some res ->
  matchItems (Plus cl :: p) (String c run ++ rest) = Some res.
Proof.
  intros Hrun Hrest H. cbn [matchItems]. now apply plus_greedy.
Qed.

Lemma match_Group cl p c run rest caps tail :
  allIn (inClass cl) (String c run) = true -> stopsAt (inClass cl) rest = true ->
  matchItems p rest = Some (caps, tail) ->
  matchItems (Group cl :: p) (String c run ++ rest)
  = Some (String c run :: caps, tail).
Proof.
  intros Hrun Hrest H. cbn [matchItems]. apply plus_greedy; auto.
  now rewrite H.
Qed.

(** *** Taking a match apart, item by item *)

Lemma inv_Lit l p s res :
  matchItems (Lit l :: p) s = Some res ->
  exists rest, s = (l ++ rest)%string /\ matchItems p rest = Some res.
Proof.
  simpl. destruct (stripPrefix l s) as [rest|] eqn:E; [ | discriminate].
  intros H. exists rest. split; [now apply stripPrefix_inv | exact H].
Qed.

Lemma inv_Star cl p s res :
  matchItems (Star cl :: p) s = Some res ->
  exists run rest,
    s = (run ++ rest)%string /\ allIn (inClass cl) run = true
    /\ matchItems p rest = Some res.
Proof.
  simpl. intros H. destruct (star_inv _ _ _ _ _ H) as (run & rest & -> & Hrun & Hk).
  now exists run, rest.
Qed.

Lemma inv_Plus cl p s res :
  matchItems (Plus cl :: p) s = Some res ->
  exists run rest, s = (run ++ rest)%string /\ matchItems p rest = Some res.
Proof.
  cbn [matchItems]. intros H.
  destruct (plus_inv _ _ _ _ H) as (c & run & rest & -> & _ & _ & Hk).
  now exists (String c run), rest.
Qed.

Lemma inv_Group cl p s res :
  matchItems (Group cl :: p) s = Some res ->
  exists run rest res',
    s = (run ++ rest)%string /\ matchItems p rest = Some res'.
Proof.
  cbn [matchItems]. intros H.
  destruct (plus_inv _ _ _ _ H) as (c & run & rest & -> & _ & _ & Hk).
  destruct (matchItems p rest) as [res'|] eqn:E; [ | discriminate].
  now exists (String c run), rest, res'.
Qed.

End RegexpFacts.

(** ** The parser *)

Module GoModFacts.
Import Strings Regexp GoMod RegexpFacts.

(** One turn of the loop. *)
Lemma scanLoop_cons foundComment repositories text rest :
  scanLoop foundComment repositories (text :: rest)
  = if isMarker text then scanLoop true repositories rest
    else if foundComment then
           if endsSection text then (foundComment, repositories)
           else scanLoop foundComment (repositories ++ directive text) rest
         else scanLoop foundComment repositories rest.
Proof.
  unfold isMarker, endsSection, directive. cbn [scanLoop].
  destruct (Contains _ "// protobuf libraries"); [reflexivity | ].
  destruct foundComment; [ | reflexivity].
  destruct (_ || _); [reflexivity | ].
  destruct (_ =? 5); [reflexivity | now rewrite app_nil_r].
Qed.

Lemma scanLoop_in_section repositories lines :
  scanLoop true repositories lines
  = (true, repositories ++ flat_map directive (sectionBody lines)).
Proof.
  revert repositories.
  induction lines as [|text rest IH]; intros repositories.
  - simpl. now rewrite app_nil_r.
  - rewrite scanLoop_cons. cbn [sectionBody].
    destruct (isMarker text); [apply IH | ].
    destruct (endsSection text); [simpl; now rewrite app_nil_r | ].
    rewrite IH. cbn [flat_map]. now rewrite app_assoc.
Qed.

Lemma scanLoop_before_section lines :
  scanLoop false [] lines
  = (existsb isMarker lines, flat_map directive (annotatedSection lines)).
Proof.
  induction lines as [|text rest IH]; [reflexivity | ].
  rewrite scanLoop_cons. cbn [existsb annotatedSection].
  destruct (isMarker text); [ | exact IH].
  now rewrite scanLoop_in_section.
Qed.

(** *** Tokens *)

Lemma tokens_cur s : forall cur t ts,
  cur <> "" -> tokens cur s = t :: ts ->
  exists u rest,
    s = (u ++ rest)%string /\ allIn nonSpace u = true /\ t = (cur ++ u)%string
    /\ stopsAt nonSpace rest = true /\ tokens "" rest = ts.
Proof.
  induction s as [|c s IH]; intros cur t ts Hcur H; simpl in H.
  - destruct (String.eqb_spec cur ""); [contradiction | ].
    injection H as <- <-. exists "", "".
    rewrite (StringFacts.append_empty_r cur). repeat split; auto.
  - destruct (isPerlSpace c) eqn:Hc.
    + destruct (String.eqb_spec cur ""); [contradiction | ].
      injection H as <- <-. exists "", (String c s).
      rewrite (StringFacts.append_empty_r cur). simpl. unfold nonSpace.
      rewrite Hc. repeat split; auto.
    + destruct (IH (cur ++ String c "")%string t ts) as (u & rest & -> & Hu & -> & Hrest & Hts);
        [now destruct cur | exact H | ].
      exists (String c u), rest. simpl. unfold nonSpace at 1. rewrite Hc, Hu.
      rewrite StringFacts.append_snoc. repeat split; auto.
Qed.

(** The first token of a text, the white space before it and the text
    after it. *)
Lemma tokens_first s : forall t ts,
  tokens "" s = t :: ts ->
  exists sp c u rest,
    s = (sp ++ String c u ++ rest)%string /\ allIn isPerlSpace sp = true
    /\ t = String c u /\ allIn nonSpace (String c u) = true
    /\ stopsAt nonSpace rest = true /\ tokens "" rest = ts.
Proof.
  induction s as [|c s IH]; intros t ts H; simpl in H; [discriminate | ].
  destruct (isPerlSpace c) eqn:Hc.
  - destruct (IH _ _ H) as (sp & c' & u & rest & -> & Hsp & -> & Hu & Hrest & Hts).
    exists (String c sp), c', u, rest. simpl. rewrite Hc, Hsp. repeat split; auto.
  - destruct (tokens_cur s (String c "") t ts) as (u & rest & -> & Hu & -> & Hrest & Hts);
      [discriminate | exact H | ].
    exists "", c, u, rest. simpl. unfold nonSpace at 1. rewrite Hc, Hu. repeat split; auto.
Qed.

(** The next token of a text that follows a token. *)
Lemma tokens_next s t ts :
  stopsAt nonSpace s = true -> tokens "" s = t :: ts ->
  exists c0 sp c u rest,
    s = (String c0 sp ++ String c u ++ rest)%string
    /\ allIn isPerlSpace (String c0 sp) = true
    /\ t = String c u /\ allIn nonSpace (String c u) = true
    /\ stopsAt nonSpace rest = true /\ tokens "" rest = ts.
Proof.
  intros Hs H.
  destruct (tokens_first _ _ _ H) as (sp & c & u & rest & -> & Hsp & -> & Hu & Hrest & Hts).
  destruct sp as [|c0 sp].
  - simpl in Hs, Hu. apply andb_prop in Hu as [Hc _]. rewrite Hc in Hs. discriminate.
  - exists c0, sp, c, u, rest. repeat split; auto.
Qed.

(** *** The directive pattern *)

Lemma stopsAt_space_token c u rest :
  allIn nonSpace (String c u) = true ->
  stopsAt (inClass Space) (String c u ++ rest) = true.
Proof. simpl. intros H. now apply andb_prop in H as [Hc _]. Qed.

Lemma stopsAt_token_space c sp rest :
  allIn isPerlSpace (String c sp) = true ->
  stopsAt (inClass NonSpace) (String c sp ++ rest) = true.
Proof. simpl. intros H. apply andb_prop in H as [-> _]. reflexivity. Qed.

(** A line whose tokens are [replace L V => R RV], with or without more
    tokens after them, matches the pattern, and the groups are [L], [V],
    [R] and [RV]. *)
Lemma replaceRegex_matches s L V R RV extra :
  fields s = "replace" :: L :: V :: "=>" :: R :: RV :: extra ->
  exists tail, matchItems replaceRegex s = Some ([L; V; R; RV], tail).
Proof.
  unfold fields. intros H.
  destruct (tokens_first _ _ _ H)
    as (sp0 & c0 & u0 & r1 & -> & Hsp0 & Hkw & _ & Hr1 & H1).
  destruct (tokens_next _ _ _ Hr1 H1)
    as (a1 & sp1 & cL & uL & r2 & -> & Hsp1 & -> & HL & Hr2 & H2).
  destruct (tokens_next _ _ _ Hr2 H2)
    as (a2 & sp2 & cV & uV & r3 & -> & Hsp2 & -> & HV & Hr3 & H3).
  destruct (tokens_next _ _ _ Hr3 H3)
    as (a3 & sp3 & cA & uA & r4 & -> & Hsp3 & Harrow & _ & Hr4 & H4).
  destruct (tokens_next _ _ _ Hr4 H4)
    as (a4 & sp4 & cR & uR & r5 & -> & Hsp4 & -> & HR & Hr5 & H5).
  destruct (tokens_next _ _ _ Hr5 H5)
    as (a5 & sp5 & cW & uW & r6 & -> & Hsp5 & -> & HW & Hr6 & _).
  rewrite <- Hkw, <- Harrow. exists r6. unfold replaceRegex.
  apply match_Star; [exact Hsp0 | reflexivity | ].
  apply match_Lit.
  apply match_Plus; [exact Hsp1 | now apply stopsAt_space_token | ].
  apply match_Group; [exact HL | now apply stopsAt_token_space | ].
  apply match_Plus; [exact Hsp2 | now apply stopsAt_space_token | ].
  apply match_Group; [exact HV | now apply stopsAt_token_space | ].
  apply match_Star; [exact Hsp3 | reflexivity | ].
  apply match_Lit.
  apply match_Star; [exact Hsp4 | now apply stopsAt_space_token | ].
  apply match_Group; [exact HR | now apply stopsAt_token_space | ].
  apply match_Plus; [exact Hsp5 | now apply stopsAt_space_token | ].
  apply match_Group; [exact HW | exact Hr6 | reflexivity].
Qed.

Lemma directive_of_tokens text L V R RV extra :
  fields (TrimSpace text) = "replace" :: L :: V :: "=>" :: R :: RV :: extra ->
  directive text = [source R RV].
Proof.
  intros H. destruct (replaceRegex_matches _ _ _ _ _ _ H) as [tail Hm].
  unfold directive, FindStringSubmatch. rewrite Hm. reflexivity.
Qed.

Lemma isPerlSpace_isSpace c : isPerlSpace c = true -> isSpace c = true.
Proof.
  unfold isPerlSpace, isSpace. intros H.
  repeat (apply orb_true_iff in H as [H | H]);
    apply Nat.eqb_eq in H; rewrite H; reflexivity.
Qed.

Lemma TrimRight_head c s :
  isSpace c = false -> exists t, TrimRight (String c s) = String c t.
Proof.
  intros Hc. simpl. rewrite Hc. destruct (TrimRight s); eexists; reflexivity.
Qed.

Lemma TrimLeft_head s c t : TrimLeft s = String c t -> isSpace c = false.
Proof.
  induction s as [|x s IH]; simpl; [discriminate | ].
  destruct (isSpace x) eqn:Hx; [exact IH | ]. now intros [= <- _].
Qed.

(** A trimmed line does not start with white space. *)
Lemma TrimSpace_head text c t : TrimSpace text = String c t -> isSpace c = false.
Proof.
  unfold TrimSpace. destruct (TrimLeft text) as [|x s] eqn:E; [discriminate | ].
  pose proof (TrimLeft_head _ _ _ E) as Hx.
  destruct (TrimRight_head x s Hx) as [t' ->]. now intros [= <- _].
Qed.

(** A line that yields a source starts with [replace] and has [=>]. *)
Lemma directive_inv text :
  directive text <> [] ->
  HasPrefix (TrimSpace text) "replace" = true
  /\ Contains (TrimSpace text) "=>" = true.
Proof.
  unfold directive, FindStringSubmatch.
  destruct (matchItems replaceRegex (TrimSpace text)) as [[caps rest]|] eqn:Hm;
    [intros _ | intros H; now contradiction H].
  unfold replaceRegex in Hm.
  apply inv_Star in Hm as (sp0 & s0 & E0 & Hsp0 & Hm).
  apply inv_Lit in Hm as (s1 & -> & Hm).
  apply inv_Plus in Hm as (sp1 & s2 & -> & Hm).
  apply inv_Group in Hm as (g1 & s3 & res3 & -> & Hm).
  apply inv_Plus in Hm as (sp2 & s4 & -> & Hm).
  apply inv_Group in Hm as (g2 & s5 & res5 & -> & Hm).
  apply inv_Star in Hm as (sp3 & s6 & -> & _ & Hm).
  apply inv_Lit in Hm as (s7 & -> & _).
  rewrite E0. split.
  - destruct sp0 as [|c sp0]; [reflexivity | ].
    simpl in E0, Hsp0. apply andb_prop in Hsp0 as [Hc _].
    apply isPerlSpace_isSpace in Hc.
    rewrite (TrimSpace_head _ _ _ E0) in Hc. discriminate.
  - do 7 apply StringFacts.Contains_app_r. apply StringFacts.Contains_refl_app.
Qed.

(** What the parser returns for a manifest that is read without error. *)
Lemma ParseProtobufLibraries_read goModPath lines :
  ParseProtobufLibraries goModPath (Content lines None)
  = if existsb isMarker lines
    then inr {| GoModInfo.Repositories :=
                  flat_map directive (annotatedSection lines);
                GoModInfo.ModuleName := "" |}
    else inl (MarkerNotFound goModPath).
Proof.
  unfold ParseProtobufLibraries. rewrite scanLoop_before_section.
  destruct (existsb isMarker lines); reflexivity.
Qed.

  (** *** The annotated section *)

Lemma sectionBody_bounds body stop post :
  forallb (fun t => isMarker t || negb (endsSection t)) body = true ->
  isMarker stop = false -> endsSection stop = true ->
  sectionBody (body ++ stop :: post) = filter notMarker body.
Proof.
  intros Hbody Hm Hstop. induction body as [|t body IH]; simpl.
  - now rewrite Hm, Hstop.
  - simpl in Hbody. apply andb_prop in Hbody as [Ht Hbody].
    unfold notMarker at 1. destruct (isMarker t); simpl; [now apply IH | ].
    simpl in Ht. destruct (endsSection t); [discriminate | ].
    now rewrite IH.
Qed.

Lemma sectionBody_to_end body :
  forallb (fun t => isMarker t || negb (endsSection t)) body = true ->
  sectionBody body = filter notMarker body.
Proof.
  intros Hbody. induction body as [|t body IH]; simpl; [reflexivity | ].
  simpl in Hbody. apply andb_prop in Hbody as [Ht Hbody].
  unfold notMarker at 1. destruct (isMarker t); simpl; [now apply IH | ].
  simpl in Ht. destruct (endsSection t); [discriminate | ].
  now rewrite IH.
Qed.

Lemma annotatedSection_after pre marker rest :
  forallb notMarker pre = true -> isMarker marker = true ->
  annotatedSection (pre ++ marker :: rest) = sectionBody rest.
Proof.
  intros Hpre Hm. induction pre as [|t pre IH]; simpl.
  - now rewrite Hm.
  - simpl in Hpre. apply andb_prop in Hpre as [Ht Hpre].
    unfold notMarker in Ht. destruct (isMarker t); [discriminate | now apply IH].
Qed.

Lemma sectionBody_In text lines :
  In text (sectionBody lines) -> isMarker text = false /\ endsSection text = false.
Proof.
  induction lines as [|t lines IH]; simpl; [contradiction | ].
  destruct (isMarker t) eqn:Hm; [exact IH | ].
  destruct (endsSection t) eqn:He; [contradiction | ].
  intros [<- | Hin]; auto.
Qed.

Lemma annotatedSection_In text lines :
  In text (annotatedSection lines) ->
  existsb isMarker lines = true
  /\ isMarker text = false /\ endsSection text = false.
Proof.
  induction lines as [|t lines IH]; simpl; [contradiction | ].
  destruct (isMarker t); simpl.
  - intros Hin. split; [reflexivity | now apply (sectionBody_In _ lines)].
  - exact IH.
Qed.

(** *** The claims about the parser *)

(** C3, as the code has it: for a manifest of ASCII lines that is
    scanned without error and has a marker line, the parser returns the
    sources of the lines of the annotated section that match the directive
    pattern, one per line and in line order, and skips the other lines.
    An ASCII line whose tokens are [replace L V => R RV] matches, also
    when more tokens follow; an ASCII line that matches starts with
    [replace] and has [=>].  The section runs from the first marker line
    to the first blank line or comment line without [protobuf], or to
    the end of the manifest, further marker lines left out.  When the
    scanner reports an error, the parser returns it as a read error and
    no source. *)
Theorem parser_returns_matching_directives goModPath lines :
  asciiLines lines = true ->
  existsb isMarker lines = true ->
  ParseProtobufLibraries goModPath (Content lines None)
  = inr {| GoModInfo.Repositories := flat_map directive (annotatedSection lines);
           GoModInfo.ModuleName := "" |}
  /\ (forall text L V R RV extra,
        isASCII text = true ->
        fields (TrimSpace text) = "replace" :: L :: V :: "=>" :: R :: RV :: extra ->
        directive text = [source R RV])
  /\ (forall text,
        isASCII text = true ->
        directive text <> [] ->
        HasPrefix (TrimSpace text) "replace" = true
        /\ Contains (TrimSpace text) "=>" = true)
  /\ (forall text, length (directive text) <= 1)
  /\ (forall pre marker body,
        lines = pre ++ marker :: body ->
        forallb notMarker pre = true -> isMarker marker = true ->
        forallb (fun t => isMarker t || negb (endsSection t)) body = true ->
        annotatedSection lines = filter notMarker body)
  /\ (forall pre marker body stop post,
        lines = pre ++ marker :: body ++ stop :: post ->
        forallb notMarker pre = true -> isMarker marker = true ->
        forallb (fun t => isMarker t || negb (endsSection t)) body = true ->
        isMarker stop = false -> endsSection stop = true ->
        annotatedSection lines = filter notMarker body)
  /\ (forall err,
        ParseProtobufLibraries goModPath (Content lines (Some err))
        = inl (ReadFailed err)).
Proof.
  intros _ Hmarker. repeat split.
  - now rewrite ParseProtobufLibraries_read, Hmarker.
  - intros text L V R RV extra _. apply directive_of_tokens.
  - now apply directive_inv.
  - now apply directive_inv.
  - intros text. unfold directive. destruct (_ =? 5); simpl; lia.
  - intros pre marker body -> Hpre Hm Hbody.
    rewrite (annotatedSection_after _ _ _ Hpre Hm).
    now apply sectionBody_to_end.
  - intros pre marker body stop post -> Hpre Hm Hbody Hs He.
    rewrite (annotatedSection_after _ _ _ Hpre Hm).
    now apply sectionBody_bounds.
  - intros err. cbn [ParseProtobufLibraries].
    now destruct (scanLoop false [] lines).
Qed.

(** C10: a directive line of the six-token shape whose remote path does
    not start with [github.com/] yields the source whose name is
    [github.com/] followed by the whole remote path and whose URL is
    [https://github.com/] followed by it. *)
Theorem non_github_remote_is_prefixed goModPath lines text L V R RV :
  asciiLines lines = true ->
  In text (annotatedSection lines) ->
  fields (TrimSpace text) = ["replace"; L; V; "=>"; R; RV] ->
  HasPrefix R "github.com/" = false ->
  directive text = [{| Repository.Name := "github.com/" ++ R;
                       Repository.Version := RV;
                       Repository.URL := "https://github.com/" ++ R |}]
  /\ exists info,
      ParseProtobufLibraries goModPath (Content lines None) = inr info
      /\ In {| Repository.Name := "github.com/" ++ R;
               Repository.Version := RV;
               Repository.URL := "https://github.com/" ++ R |}
            (GoModInfo.Repositories info).
Proof.
  intros _ Hin Hfields Hprefix.
  assert (Hd : directive text
               = [{| Repository.Name := "github.com/" ++ R;
                     Repository.Version := RV;
                     Repository.URL := "https://github.com/" ++ R |}]).
  { rewrite (directive_of_tokens _ _ _ _ _ _ Hfields).
    unfold source, repositoryOf. cbn [nth]. now rewrite Hprefix. }
  split; [exact Hd | ].
  destruct (annotatedSection_In _ _ Hin) as [Hmarker _].
  eexists. split.
  - rewrite ParseProtobufLibraries_read, Hmarker. reflexivity.
  - cbn [GoModInfo.Repositories]. apply in_flat_map. exists text.
    split; [exact Hin | ]. rewrite Hd. now left.
Qed.

(** *** The marker *)

Lemma ToLower_app a b : ToLower (a ++ b) = (ToLower a ++ ToLower b)%string.
Proof. induction a; simpl; congruence. Qed.

Lemma ToLower_app_inv u : forall s v,
  ToLower s = (u ++ v)%string ->
  exists s1 s2, s = (s1 ++ s2)%string /\ ToLower s1 = u /\ ToLower s2 = v.
Proof.
  induction u as [|c u IH]; intros s v H.
  - exists "", s. auto.
  - destruct s as [|x s]; [discriminate | ]. cbn [ToLower append] in H.
    injection H as Hc H. destruct (IH _ _ H) as (s1 & s2 & -> & H1 & H2).
    exists (String x s1), s2. cbn [ToLower append]. rewrite Hc, H1. auto.
Qed.

Lemma toLowerChar_space c d :
  toLowerChar c = d -> isSpace d = false -> isSpace c = false.
Proof.
  unfold toLowerChar. destruct (isUpper c) eqn:Hu; [ | now intros ->].
  intros _ _. unfold isUpper in Hu. unfold isSpace.
  apply andb_prop in Hu as [Hlo Hhi]. apply Nat.leb_le in Hlo.
  apply orb_false_iff. split.
  - apply andb_false_iff. right. apply Nat.leb_gt. lia.
  - apply Nat.eqb_neq. lia.
Qed.

Lemma TrimLeft_keeps pre c rest :
  isSpace c = false ->
  exists a, TrimLeft (pre ++ String c rest) = (a ++ String c rest)%string.
Proof.
  intros Hc. induction pre as [|x pre IH]; simpl.
  - rewrite Hc. now exists "".
  - destruct (isSpace x); [exact IH | ]. now exists (String x pre).
Qed.

Lemma TrimRight_keeps a c post :
  isSpace c = false ->
  exists b, TrimRight (a ++ String c post) = (a ++ String c b)%string.
Proof.
  intros Hc. induction a as [|x a IH].
  - destruct (TrimRight_head c post Hc) as [t Ht]. now exists t.
  - destruct IH as [b IH]. exists b.
    change (TrimRight (String x a ++ String c post))
      with (match TrimRight (a ++ String c post) with
            | EmptyString => if isSpace x then EmptyString else String x EmptyString
            | t => String x t
            end).
    rewrite IH. destruct a; reflexivity.
Qed.

(** A line is a marker line when it has the text [// protobuf libraries],
    in any case, whatever comes before and after it. *)
Lemma isMarker_anywhere pre mid post :
  ToLower mid = "// protobuf libraries" ->
  isMarker (pre ++ mid ++ post) = true.
Proof.
  intros H.
  destruct (ToLower_app_inv "// protobuf librarie" mid "s" H)
    as (m1 & m2 & -> & H1 & H2).
  destruct m2 as [|cz m2]; [discriminate | ].
  cbn [ToLower] in H2. injection H2 as Hz H2.
  destruct m2; [clear H2 | discriminate].
  destruct m1 as [|c0 m1]; [discriminate | ].
  assert (Hfirst : isSpace c0 = false).
  { cbn [ToLower] in H1. injection H1 as Hc _.
    apply (toLowerChar_space _ _ Hc). reflexivity. }
  assert (Hlast : isSpace cz = false)
    by (apply (toLowerChar_space _ _ Hz); reflexivity).
  unfold isMarker, TrimSpace.
  replace (pre ++ (String c0 m1 ++ String cz "") ++ post)%string
    with (pre ++ String c0 (m1 ++ String cz post))%string
    by (cbn [append]; now rewrite StringFacts.append_snoc).
  destruct (TrimLeft_keeps pre c0 (m1 ++ String cz post) Hfirst) as [pre' ->].
  replace (pre' ++ String c0 (m1 ++ String cz post))%string
    with ((pre' ++ String c0 m1) ++ String cz post)%string
    by (now rewrite StringFacts.append_assoc).
  destruct (TrimRight_keeps (pre' ++ String c0 m1) cz post Hlast) as [post' ->].
  rewrite !ToLower_app, H1. cbn [ToLower]. rewrite Hz.
  rewrite StringFacts.append_assoc.
  apply StringFacts.Contains_app_r.
  apply (StringFacts.Contains_refl_app "// protobuf libraries").
Qed.

(** C4, as the code has it: for a manifest of ASCII lines, the parser
    fails with [MarkerNotFound] exactly when the manifest is read without
    error and none of its lines, trimmed and in lower case, contains the
    text [// protobuf libraries] (two slashes, one blank, [protobuf], one
    blank, [libraries]).  On an ASCII line the marker is recognised in any
    case and with anything before and after that text. *)
Theorem marker_not_found_iff goModPath file :
  asciiFile file = true ->
  (ParseProtobufLibraries goModPath file = inl (MarkerNotFound goModPath)
   <-> exists lines,
      file = Content lines None
      /\ forall text, In text lines ->
                      Contains (ToLower (TrimSpace text)) "// protobuf libraries"
                      = false)
  /\ (forall pre mid post,
        isASCII (pre ++ mid ++ post) = true ->
        ToLower mid = "// protobuf libraries" ->
        isMarker (pre ++ mid ++ post) = true).
Proof.
  intros _. split; [ | intros pre mid post _; apply isMarker_anywhere]. split.
  - destruct file as [err | lines [err|]].
    + discriminate.
    + simpl. destruct (scanLoop false [] lines). discriminate.
    + rewrite ParseProtobufLibraries_read.
      destruct (existsb isMarker lines) eqn:E; [discriminate | ].
      intros _. exists lines. split; [reflexivity | ].
      intros text Hin. fold (isMarker text).
      destruct (isMarker text) eqn:Ht; [ | reflexivity].
      assert (existsb isMarker lines = true)
        by (apply existsb_exists; now exists text).
      congruence.
  - intros (lines & -> & Hnone). rewrite ParseProtobufLibraries_read.
    destruct (existsb isMarker lines) eqn:E; [ | reflexivity].
    apply existsb_exists in E as (text & Hin & Ht).
    unfold isMarker in Ht. rewrite (Hnone _ Hin) in Ht. discriminate.
Qed.

End GoModFacts.

(** ** Runs of the service *)

Module AppFacts.
Import Domain App.

Section Runs.
Variable World : Type.
Variable Context : Type.
Variable fileRepo : FileRepository World.
Variable goModRepo : GoModRepository World Context.
Variable bufRepo : BufRepository World.

Lemma sat_ret {A} (a : A) (Q : A -> Prop) P : Q a -> sat (ret (World:=World) a) Q P.
Proof. intros H w. split; [exact H | reflexivity]. Qed.

Lemma sat_bind {A B} (m : M World A) (k : A -> M World B) Q1 (Q : B -> Prop) P :
  sat m Q1 P -> (forall a, Q1 a -> sat (k a) Q P) -> sat (bind m k) Q P.
Proof.
  intros Hm Hk w. unfold resultOf, callsOf, bind.
  destruct (Hm w) as [Ha Hc]. unfold resultOf, callsOf in Ha, Hc.
  destruct (m w) as [[a w1] c1]. simpl in Ha, Hc.
  destruct (Hk a Ha w1) as [Hb Hc2]. unfold resultOf, callsOf in Hb, Hc2.
  destruct (k a w1) as [[b w2] c2]. simpl in *.
  split; [exact Hb | ]. rewrite forallb_app, Hc, Hc2. reflexivity.
Qed.

Lemma sat_weaken {A} (m : M World A) (Q Q' : A -> Prop) P :
  sat m Q P -> (forall a, Q a -> Q' a) -> sat m Q' P.
Proof. intros H HQ w. destruct (H w). split; auto. Qed.

Lemma sat_call {A} c (f : World -> A * World) P :
  P c = true -> sat (call World c f) (fun _ => True) P.
Proof.
  intros Hc w. unfold resultOf, callsOf, call.
  destruct (f w). simpl. rewrite Hc. auto.
Qed.

Lemma sat_logger level msg P :
  P (CallLogger level msg) = true -> sat (logger World level msg) (fun _ => True) P.
Proof. intros Hc w. unfold resultOf, callsOf, logger. simpl. rewrite Hc. auto. Qed.

Lemma sat_printf text P :
  P (Printf text) = true -> sat (printf World text) (fun _ => True) P.
Proof. intros Hc w. unfold resultOf, callsOf, printf. simpl. rewrite Hc. auto. Qed.

(** What [sat] says of one run. *)
Lemma sat_run {A} (m : M World A) Q P w a w' cs :
  sat m Q P -> m w = (a, w', cs) -> Q a /\ forallb P cs = true.
Proof.
  intros H E. specialize (H w). unfold resultOf, callsOf in H.
  rewrite E in H. exact H.
Qed.

Lemma sat_mono {A} (m : M World A) (Q Q' : A -> Prop) (P P' : Call -> bool) :
  sat m Q P -> (forall a, Q a -> Q' a) ->
  (forall c, P c = true -> P' c = true) -> sat m Q' P'.
Proof.
  intros H HQ HP w. destruct (H w) as [Ha Hc]. split; [auto | ].
  rewrite forallb_forall in *. auto.
Qed.

Lemma sat_any {A} (m : M World A) : sat m (fun _ => True) (fun _ => true).
Proof.
  intros w. split; [exact I | ]. unfold callsOf.
  induction (snd (m w)); simpl; auto.
Qed.

Ltac sat_step :=
  lazymatch goal with
  | |- sat (ret _) _ _ => apply sat_ret
  | |- sat (bind (logger _ _ _) _) _ _ =>
      eapply sat_bind; [apply sat_logger; reflexivity | intros _ _]
  | |- sat (bind (printf _ _) _) _ _ =>
      eapply sat_bind; [apply sat_printf; reflexivity | intros _ _]
  | |- sat (bind (call _ _ _) _) _ _ =>
      eapply sat_bind; [apply sat_call; reflexivity | intros ? _]
  | |- sat (logger _ _ _) _ _ =>
      eapply sat_weaken; [apply sat_logger; reflexivity | intros _ _]
  | |- sat (printf _ _) _ _ =>
      eapply sat_weaken; [apply sat_printf; reflexivity | intros _ _]
  | |- sat (match ?x with _ => _ end) _ _ => destruct x
  end.

(** *** Dry run *)

Lemma printFileNames_noWrite files :
  sat (printFileNames World files) (fun _ => True) noWrite.
Proof.
  induction files as [|f files IH]; simpl.
  - apply sat_ret. exact I.
  - eapply sat_bind; [apply sat_printf; reflexivity | intros _ _; exact IH].
Qed.

Lemma dryRunRepository_sat repo config :
  sat (dryRunRepository fileRepo goModRepo repo config)
      (fun r => SyncResult.Repository r = repo
                /\ SyncResult.Success r = true
                /\ SyncResult.Error r = None
                /\ SyncResult.FilesUpdated r = [])
      noWrite.
Proof.
  unfold dryRunRepository, getModulePath, fileExists, listFiles.
  repeat sat_step; auto.
  eapply sat_bind with (Q1 := fun _ => True); [ | intros _ _; apply sat_ret; auto].
  repeat sat_step; auto.
  apply printFileNames_noWrite.
Qed.

Lemma processRepository_dry ctx repo config :
  SyncConfig.DryRun config = true ->
  sat (processRepository fileRepo goModRepo ctx repo config)
      (fun r => SyncResult.Repository r = repo
                /\ SyncResult.Success r = true
                /\ SyncResult.Error r = None
                /\ SyncResult.FilesUpdated r = [])
      noWrite.
Proof.
  intros Hdry. unfold processRepository. rewrite Hdry.
  sat_step. apply dryRunRepository_sat.
Qed.

(** *** Any mode *)

Lemma processRepository_sat ctx repo config :
  sat (processRepository fileRepo goModRepo ctx repo config)
      (fun r => SyncResult.Repository r = repo /\ flagsAgree r)
      (fun _ => true).
Proof.
  unfold processRepository. sat_step.
  destruct (SyncConfig.DryRun config).
  - eapply sat_mono; [apply dryRunRepository_sat | | reflexivity].
    intros r (Hrepo & Hs & He & _). split; [exact Hrepo | ].
    unfold flagsAgree. rewrite Hs, He. tauto.
  - eapply sat_bind; [apply sat_any | intros fetched _].
    destruct fetched as [err | sourcePath].
    + apply sat_ret. split; [reflexivity | ]. unfold flagsAgree. simpl.
      split; discriminate.
    + destruct (negb _).
      * eapply sat_bind; [apply sat_any | intros copied _].
        destruct copied; apply sat_ret; (split; [reflexivity | ]);
          unfold flagsAgree; simpl; split; (discriminate || reflexivity).
      * eapply sat_bind; [apply sat_any | intros copied _].
        destruct (snd copied); apply sat_ret; (split; [reflexivity | ]);
          unfold flagsAgree; simpl; split; (discriminate || reflexivity).
Qed.

Lemma processAll_sat ctx config (R : Repository.t -> SyncResult.t -> Prop) P :
  (forall repo, sat (processRepository fileRepo goModRepo ctx repo config) (R repo) P) ->
  (forall level msg, P (CallLogger level msg) = true) ->
  forall repositories results,
    sat (processAll fileRepo goModRepo ctx config repositories results)
        (fun out => exists new, out = results ++ new /\ Forall2 R repositories new)
        P.
Proof.
  intros Hone Hlog repositories.
  induction repositories as [|repo rest IH]; intros results; simpl.
  - apply sat_ret. exists []. split; [now rewrite app_nil_r | constructor].
  - eapply sat_bind; [apply Hone | intros result Hresult].
    eapply sat_bind with (Q1 := fun _ => True).
    + destruct (SyncConfig.DryRun config); [apply sat_ret; exact I | ].
      destruct (SyncResult.Error result); [ | apply sat_ret; exact I].
      apply sat_logger. apply Hlog.
    + intros _ _. eapply sat_weaken; [apply IH | ].
      intros out (new & -> & Hnew). exists (result :: new).
      split; [now rewrite <- app_assoc | now constructor].
Qed.

Lemma overrideVersion_all version repositories :
  version <> "" ->
  Forall (fun repo => Repository.Version repo = version)
         (overrideVersion version repositories).
Proof.
  intros Hv. unfold overrideVersion.
  destruct (String.eqb_spec version ""); [contradiction | ]. simpl.
  induction repositories; simpl; constructor; auto.
Qed.

Lemma Forall_firstn {A} (Q : A -> Prop) n (l : list A) :
  Forall Q l -> Forall Q (firstn n l).
Proof.
  intros H. revert n. induction H; intros [|n]; simpl; constructor; auto.
Qed.

Lemma resolveRepositories_sat config :
  sat (resolveRepositories fileRepo goModRepo bufRepo config)
      (fun r => forall config' repositories,
           r = inr (config', repositories) ->
           exists cfg, config = Some cfg /\ sameIntent cfg config'
             /\ (SyncConfig.SpecifiedVersion cfg <> "" ->
                 Forall (fun repo => Repository.Version repo
                                     = SyncConfig.SpecifiedVersion cfg)
                        repositories))
      noWrite.
Proof.
  unfold resolveRepositories.
  eapply sat_bind with (Q1 := fun verr => config = None -> verr <> None).
  - destruct config as [cfg|]; simpl.
    + unfold fileExists.
      repeat (sat_step; try discriminate).
    + apply sat_ret. discriminate.
  - intros verr Hverr. destruct verr as [err|].
    + apply sat_ret. discriminate.
    + destruct config as [cfg|]; [ | exfalso; now apply Hverr].
      unfold parseBufYaml, parseProtobufLibraries. sat_step.
      destruct a as [err|moduleInfo]; [apply sat_ret; discriminate | ].
      sat_step.
      eapply sat_bind with (Q1 := fun _ => True).
      * destruct (SyncConfig.Repositories cfg); [ | apply sat_ret; exact I].
        repeat sat_step; exact I.
      * intros detected _. destruct detected as [err|repositories];
          [apply sat_ret; discriminate | ].
        destruct (_ && _).
        -- sat_step. apply sat_ret. intros config' repos [= <- <-].
           exists cfg. repeat split; try reflexivity.
           intros Hv. apply (Forall_firstn _ 1). now apply overrideVersion_all.
        -- apply sat_ret. intros config' repos [= <- <-].
           exists cfg. repeat split; try reflexivity.
           intros Hv. now apply overrideVersion_all.
Qed.

(** *** The run as a whole *)

Lemma Sync_inv ctx config w results w' cs :
  Sync fileRepo goModRepo bufRepo ctx config w = (inr results, w', cs) ->
  exists cfg repositories w1 c1 c2,
    resolveRepositories fileRepo goModRepo bufRepo config w
    = (inr (cfg, repositories), w1, c1)
    /\ processAll fileRepo goModRepo ctx cfg repositories [] w1
       = (results, w', c2)
    /\ exists c0 c3, cs = c1 ++ c0 :: c2 ++ c3
                     /\ forallb noWrite (c0 :: c3) = true.
Proof.
  unfold Sync, bind.
  destruct (resolveRepositories _ _ _ config w) as [[resolved w1] c1].
  destruct resolved as [err | [cfg repositories]]; [discriminate | ].
  simpl. destruct (processAll _ _ ctx cfg repositories [] w1) as [[rs w2] c2] eqn:Hall.
  assert (Hsum : exists c3, reportSummary cfg rs w2 = (tt, w2, c3)
                            /\ forallb noWrite c3 = true).
  { unfold reportSummary. destruct (negb _); [ | now exists []].
    destruct (_ =? _); eexists; split; reflexivity. }
  destruct Hsum as (c3 & -> & Hc3). simpl. intros [= <- <- <-].
  exists cfg, repositories, w1, c1, c2.
  split; [reflexivity | split; [exact Hall | ]].
  eexists _, c3. rewrite app_nil_r. split; [reflexivity | exact Hc3].
Qed.

Lemma Sync_run ctx config w cfg repositories w1 c1 results w2 c2 :
  resolveRepositories fileRepo goModRepo bufRepo config w
  = (inr (cfg, repositories), w1, c1) ->
  processAll fileRepo goModRepo ctx cfg repositories [] w1 = (results, w2, c2) ->
  exists cs, Sync fileRepo goModRepo bufRepo ctx config w = (inr results, w2, cs).
Proof.
  intros Hres Hall. unfold Sync, bind. rewrite Hres. simpl. rewrite Hall.
  unfold reportSummary. destruct (negb _); [ | eexists; reflexivity].
  destruct (_ =? _); eexists; reflexivity.
Qed.

Lemma Forall2_map_eq {A B} (f : B -> A) (l : list A) (l' : list B) :
  Forall2 (fun a b => f b = a) l l' -> map f l' = l.
Proof. induction 1; simpl; congruence. Qed.

Lemma Forall2_Forall_r {A B} (Q : B -> Prop) (l : list A) (l' : list B) :
  Forall2 (fun _ b => Q b) l l' -> Forall Q l'.
Proof. induction 1; constructor; auto. Qed.

(** One outcome per repository to process, in the same order. *)
Lemma processAll_in_order ctx cfg repositories w results w' cs :
  processAll fileRepo goModRepo ctx cfg repositories [] w = (results, w', cs) ->
  map SyncResult.Repository results = repositories.
Proof.
  intros Hall.
  destruct (sat_run _ _ _ _ _ _ _
              (processAll_sat ctx cfg
                 (fun repo r => SyncResult.Repository r = repo) (fun _ => true)
                 (fun repo => sat_mono _ _ _ _ _
                                (processRepository_sat ctx repo cfg)
                                (fun r H => proj1 H) (fun _ H => H))
                 (fun _ _ => eq_refl) repositories []) Hall)
    as [(new & -> & Hnew) _].
  simpl. now apply Forall2_map_eq.
Qed.

Lemma processRepository_dry_ctx ctx ctx' repo cfg :
  SyncConfig.DryRun cfg = true ->
  processRepository fileRepo goModRepo ctx repo cfg
  = processRepository fileRepo goModRepo ctx' repo cfg.
Proof. intros Hdry. unfold processRepository. rewrite Hdry. reflexivity. Qed.

Lemma processAll_dry_ctx ctx ctx' cfg :
  SyncConfig.DryRun cfg = true ->
  forall repositories results w,
    processAll fileRepo goModRepo ctx cfg repositories results w
    = processAll fileRepo goModRepo ctx' cfg repositories results w.
Proof.
  intros Hdry repositories.
  induction repositories as [|repo rest IH]; intros results w; [reflexivity | ].
  simpl. rewrite (processRepository_dry_ctx ctx ctx' repo cfg Hdry).
  unfold bind.
  destruct (processRepository fileRepo goModRepo ctx' repo cfg w) as [[r w1] c1].
  match goal with |- context [?m w1] => destruct (m w1) as [[u w2] c2] end.
  rewrite IH. reflexivity.
Qed.

(** *** The claims about [Sync] *)

(** C9: [ValidateConfig] on a nil configuration returns an error, and
    [Sync] on a nil configuration returns that error, wrapped, without
    calling any collaborator and without changing the world. *)
Theorem nil_config_is_rejected ctx w :
  ValidateConfig fileRepo None w
  = (Some (errorf "config cannot be nil"), w, [])
  /\ Sync fileRepo goModRepo bufRepo ctx None w
     = (inl (wrapf "invalid configuration: " (errorf "config cannot be nil")),
        w, []).
Proof. split; reflexivity. Qed.

(** C8: in every outcome that [Sync] returns, in dry-run and in real
    mode, [Success] is true exactly when [Error] is nil. *)
Theorem sync_success_iff_no_error ctx config w results w' cs :
  Sync fileRepo goModRepo bufRepo ctx config w = (inr results, w', cs) ->
  Forall (fun r => SyncResult.Success r = true <-> SyncResult.Error r = None)
         results.
Proof.
  intros Hrun.
  destruct (Sync_inv _ _ _ _ _ _ Hrun)
    as (cfg & repositories & w1 & c1 & c2 & _ & Hall & _).
  destruct (sat_run _ _ _ _ _ _ _
              (processAll_sat ctx cfg (fun _ r => flagsAgree r) (fun _ => true)
                 (fun repo => sat_mono _ _ _ _ _
                                (processRepository_sat ctx repo cfg)
                                (fun r H => proj2 H) (fun _ H => H))
                 (fun _ _ => eq_refl) repositories []) Hall)
    as [(new & -> & Hnew) _].
  simpl. exact (Forall2_Forall_r _ _ _ Hnew).
Qed.

(** C2: when [dryRun] is set, every outcome that [Sync] returns has
    [Success = true], and the run calls none of [CopyFile],
    [WriteFile], [CreateDir] and [MakeWritable]. *)
Theorem dry_run_succeeds_without_writes ctx cfg w results w' cs :
  SyncConfig.DryRun cfg = true ->
  Sync fileRepo goModRepo bufRepo ctx (Some cfg) w = (inr results, w', cs) ->
  Forall (fun r => SyncResult.Success r = true) results
  /\ Forall (fun c => isWrite c = false) cs.
Proof.
  intros Hdry Hrun.
  destruct (Sync_inv _ _ _ _ _ _ Hrun)
    as (cfg' & repositories & w1 & c1 & c2 & Hres & Hall & c0 & c3 & -> & Hc).
  destruct (sat_run _ _ _ _ _ _ _ (resolveRepositories_sat (Some cfg)) Hres)
    as [Hcfg Hc1].
  destruct (Hcfg _ _ eq_refl) as (cfg0 & [= <-] & (_ & _ & Hdry' & _) & _).
  rewrite Hdry in Hdry'.
  destruct (sat_run _ _ _ _ _ _ _
              (processAll_sat ctx cfg'
                 (fun _ r => SyncResult.Success r = true) noWrite
                 (fun repo => sat_weaken _ _ _ _
                                (processRepository_dry ctx repo cfg' Hdry')
                                (fun r H => proj1 (proj2 H)))
                 (fun _ _ => eq_refl) repositories []) Hall)
    as [(new & -> & Hnew) Hc2].
  split; [exact (Forall2_Forall_r _ _ _ Hnew) | ].
  apply Forall_forall. intros c Hin.
  assert (Hall' : forallb noWrite (c1 ++ c0 :: c2 ++ c3) = true).
  { simpl in Hc. apply andb_prop in Hc as [Hc0 Hc3].
    rewrite forallb_app. simpl. rewrite forallb_app, Hc1, Hc0, Hc2, Hc3.
    reflexivity. }
  rewrite forallb_forall in Hall'. specialize (Hall' c Hin).
  unfold noWrite in Hall'. now destruct (isWrite c).
Qed.

(** C1, as the code has it: [Sync] never looks at the cancellation
    signal.  Whatever the state of the context, it processes every
    resolved source and returns one outcome per source, in order, and no
    error; in dry-run mode the context has no influence on the run at
    all (in real mode it is only handed to [DownloadModule]). *)
Theorem sync_never_checks_cancellation ctx config w cfg repositories w1 c1 :
  resolveRepositories fileRepo goModRepo bufRepo config w
  = (inr (cfg, repositories), w1, c1) ->
  (exists results w' cs,
      Sync fileRepo goModRepo bufRepo ctx config w = (inr results, w', cs)
      /\ map SyncResult.Repository results = repositories)
  /\ (SyncConfig.DryRun cfg = true ->
      forall ctx', Sync fileRepo goModRepo bufRepo ctx' config w
                   = Sync fileRepo goModRepo bufRepo ctx config w).
Proof.
  intros Hres. split.
  - destruct (processAll fileRepo goModRepo ctx cfg repositories [] w1)
      as [[results w2] c2] eqn:Hall.
    destruct (Sync_run _ _ _ _ _ _ _ _ _ _ Hres Hall) as [cs Hrun].
    exists results, w2, cs. split; [exact Hrun | ].
    exact (processAll_in_order _ _ _ _ _ _ _ Hall).
  - intros Hdry ctx'. unfold Sync, bind. rewrite Hres. simpl.
    rewrite (processAll_dry_ctx ctx' ctx cfg Hdry). reflexivity.
Qed.

(** C5: when two sources are resolved, the first is processed with
    success and the download of the second fails, [Sync] returns two
    outcomes: the first one, and a failed one for the second source
    whose error wraps the download error.  In general the outcomes of a
    run are those of the resolved sources, one each and in their order,
    whichever of them fail. *)
Theorem failed_fetch_is_isolated ctx config w cfg a b w0 c0 r1 w1 c1 err w2 :
  resolveRepositories fileRepo goModRepo bufRepo config w
  = (inr (cfg, [a; b]), w0, c0) ->
  SyncConfig.DryRun cfg = false ->
  processRepository fileRepo goModRepo ctx a cfg w0 = (r1, w1, c1) ->
  SyncResult.Success r1 = true ->
  DownloadModule goModRepo ctx (Repository.Name b) (Repository.Version b) w1
  = (Some err, w2) ->
  (exists r2 cs,
      Sync fileRepo goModRepo bufRepo ctx config w = (inr [r1; r2], w2, cs)
      /\ SyncResult.Repository r1 = a
      /\ r2 = {| SyncResult.Repository := b;
                 SyncResult.FilesUpdated := [];
                 SyncResult.Success := false;
                 SyncResult.Error :=
                   Some (wrapf "failed to download module: " err) |})
  /\ (forall ctx' config' w' cfg' repositories w1' c1' results w2' cs',
         resolveRepositories fileRepo goModRepo bufRepo config' w'
         = (inr (cfg', repositories), w1', c1') ->
         Sync fileRepo goModRepo bufRepo ctx' config' w' = (inr results, w2', cs') ->
         map SyncResult.Repository results = repositories).
Proof.
  intros Hres Hdry Hfirst Hok Hdl. split.
  - destruct (sat_run _ _ _ _ _ _ _ (processRepository_sat ctx a cfg) Hfirst)
      as [[Hrepo Hflags] _].
    apply Hflags in Hok.
    pose (r2 := {| SyncResult.Repository := b;
                   SyncResult.FilesUpdated := [];
                   SyncResult.Success := false;
                   SyncResult.Error :=
                     Some (wrapf "failed to download module: " err) |}).
    assert (Hsecond :
              processRepository fileRepo goModRepo ctx b cfg w1
              = (r2, w2,
                 [CallLogger Info ("Processing repository: " ++ Repository.Name b);
                  CallDownloadModule (Repository.Name b) (Repository.Version b)])).
    { unfold processRepository, fetchSource, downloadModule, bind, logger, call.
      rewrite Hdry, Hdl. reflexivity. }
    assert (Hall : exists c2,
               processAll fileRepo goModRepo ctx cfg [a; b] [] w0
               = ([r1; r2], w2, c2)).
    { simpl. unfold bind. rewrite Hfirst, Hdry, Hok. simpl.
      rewrite Hsecond. simpl. eexists. reflexivity. }
    destruct Hall as [c2 Hall].
    destruct (Sync_run _ _ _ _ _ _ _ _ _ _ Hres Hall) as [cs Hrun].
    exists r2, cs. split; [exact Hrun | split; [exact Hrepo | reflexivity]].
  - intros ctx' config' w' cfg' repositories w1' c1' results w2' cs' Hres' Hrun.
    destruct (Sync_inv _ _ _ _ _ _ Hrun)
      as (cfg2 & repos2 & w3 & c3 & c4 & Hres2 & Hall & _).
    rewrite Hres' in Hres2. injection Hres2 as <- <- <- <-.
    exact (processAll_in_order _ _ _ _ _ _ _ Hall).
Qed.


(** C7: in real mode, when the steps before the copy succeed and the
    requested file is not in the source directory, the outcome of the
    source has [Success = false], no updated file, and an error whose
    message gives the path of the requested file (hence its name, for a
    file name proper) and, joined by commas, the names of the files
    that [ListFiles] finds in the source directory for [*.proto]. *)
Theorem missing_specific_file_is_reported
        ctx repo cfg w sourcePath w1 c1 w2 files lerr w3 :
  SyncConfig.DryRun cfg = false ->
  SyncConfig.SpecificFile cfg <> "" ->
  fetchSource fileRepo goModRepo ctx repo cfg w = (inr sourcePath, w1, c1) ->
  FileExists fileRepo (Filepath.Join sourcePath (SyncConfig.SpecificFile cfg)) w1
  = (false, w2) ->
  ListFiles fileRepo sourcePath "*.proto" w2 = ((files, lerr), w3) ->
  exists msg cs,
    processRepository fileRepo goModRepo ctx repo cfg w
    = ({| SyncResult.Repository := repo;
          SyncResult.FilesUpdated := [];
          SyncResult.Success := false;
          SyncResult.Error := Some (errorf msg) |}, w3, cs)
    /\ msg = ("specific proto file not found: "
              ++ Filepath.Join sourcePath (SyncConfig.SpecificFile cfg)
              ++ String "010" "Available proto files: "
              ++ Strings.Join (map ProtoFile.Name files) ", ")%string
    /\ (Filepath.plainName (SyncConfig.SpecificFile cfg) = true ->
        Strings.Contains msg (SyncConfig.SpecificFile cfg) = true)
    /\ Forall (fun file => Strings.Contains msg (ProtoFile.Name file) = true)
              files.
Proof.
  intros Hdry Hfile Hfetch Hmissing Hlist.
  eexists. eexists. split; [ | split; [reflexivity | split]].
  - unfold processRepository, bind, logger. rewrite Hdry. cbn.
    rewrite Hfetch.
    destruct (String.eqb_spec (SyncConfig.SpecificFile cfg) ""); [contradiction | ].
    cbn. unfold copySpecificFile, bind, fileExists, listFiles, call.
    rewrite Hmissing. cbn. rewrite Hlist. cbn. reflexivity.
  - intros Hplain.
    destruct (FilepathFacts.Join_plain sourcePath _ Hplain) as [pre ->].
    apply StringFacts.Contains_app_r.
    rewrite StringFacts.append_assoc.
    apply StringFacts.Contains_mid.
  - apply Forall_forall. intros file Hin.
    apply StringFacts.Contains_app_r, StringFacts.Contains_app_r.
    apply (StringFacts.Contains_app_r (String "010" "Available proto files: ")).
    apply StringFacts.Join_contains. now apply in_map.
Qed.

End Runs.
End AppFacts.

(** ** More on the parser *)

Module GoModMore.
Import Strings Regexp GoMod RegexpFacts GoModFacts.

Lemma inv_Group_caps cl p s caps rest :
  matchItems (Group cl :: p) s = Some (caps, rest) ->
  exists g caps',
    caps = g :: caps' /\ g <> "" /\ allIn (inClass cl) g = true
    /\ exists s', matchItems p s' = Some (caps', rest).
Proof.
  cbn [matchItems]. intros H.
  destruct (plus_inv _ _ _ _ H) as (c & run & s' & -> & Hc & Hrun & Hk).
  destruct (matchItems p s') as [[caps' rest']|] eqn:E; [ | discriminate].
  injection Hk as <- <-. exists (String c run), caps'.
  split; [reflexivity | split; [discriminate | split; [ | now exists s']]].
  simpl. now rewrite Hc, Hrun.
Qed.

(** The groups of a match of the directive pattern are four runs of
    characters that are not white space. *)
Lemma replaceRegex_groups s caps rest :
  matchItems replaceRegex s = Some (caps, rest) ->
  exists g1 g2 g3 g4,
    caps = [g1; g2; g3; g4]
    /\ g3 <> "" /\ allIn nonSpace g3 = true
    /\ g4 <> "" /\ allIn nonSpace g4 = true.
Proof.
  unfold replaceRegex. intros Hm.
  apply inv_Star in Hm as (sp0 & s0 & -> & _ & Hm).
  apply inv_Lit in Hm as (s1 & -> & Hm).
  apply inv_Plus in Hm as (sp1 & s2 & -> & Hm).
  apply inv_Group_caps in Hm as (g1 & caps1 & -> & _ & _ & s3 & Hm).
  apply inv_Plus in Hm as (sp2 & s4 & -> & Hm).
  apply inv_Group_caps in Hm as (g2 & caps2 & -> & _ & _ & s5 & Hm).
  apply inv_Star in Hm as (sp3 & s6 & -> & _ & Hm).
  apply inv_Lit in Hm as (s7 & -> & Hm).
  apply inv_Star in Hm as (sp4 & s8 & -> & _ & Hm).
  apply inv_Group_caps in Hm as (g3 & caps3 & -> & Hg3 & Hall3 & s9 & Hm).
  apply inv_Plus in Hm as (sp5 & s10 & -> & Hm).
  apply inv_Group_caps in Hm as (g4 & caps4 & -> & Hg4 & Hall4 & s11 & Hm).
  simpl in Hm. injection Hm as <- _.
  exists g1, g2, g3, g4. auto 10.
Qed.

Lemma allIn_app cls a b :
  allIn cls (a ++ b) = allIn cls a && allIn cls b.
Proof.
  induction a as [|c a IH]; simpl; [reflexivity | ].
  now rewrite IH, andb_assoc.
Qed.

Lemma HasPrefix_stripPrefix s p :
  HasPrefix s p = true -> exists rest, stripPrefix p s = Some rest.
Proof.
  revert s. induction p as [|a p IH]; intros s H; simpl in *; [now exists s | ].
  destruct s as [|b s]; [discriminate | ].
  apply andb_prop in H as [Hab H]. rewrite Hab. now apply IH.
Qed.

(** The name of a source is [github.com/] and a path, also when the remote
    path of the directive has that prefix already; the URL is the name
    after [https://]. *)
Lemma repositoryOf_canonical whole g1 g2 g3 g4 :
  allIn nonSpace g3 = true ->
  let repo := repositoryOf [whole; g1; g2; g3; g4] in
  HasPrefix (Repository.Name repo) "github.com/" = true
  /\ Repository.URL repo = ("https://" ++ Repository.Name repo)%string
  /\ Repository.Version repo = g4
  /\ allIn nonSpace (Repository.Name repo) = true.
Proof.
  intros Hg3. unfold repositoryOf. cbn [nth].
  set (path := if HasPrefix g3 "github.com/" then TrimPrefix g3 "github.com/" else g3).
  cbn [Repository.Name Repository.URL Repository.Version].
  split; [apply (StringFacts.HasPrefix_app "github.com/") | ].
  split; [reflexivity | split; [reflexivity | ]].
  change (allIn nonSpace ("github.com/" ++ path) = true).
  rewrite allIn_app. simpl. subst path.
  destruct (HasPrefix g3 "github.com/") eqn:Hp; [ | exact Hg3].
  destruct (HasPrefix_stripPrefix _ _ Hp) as [rest Hs].
  unfold TrimPrefix. rewrite Hs. apply stripPrefix_inv in Hs. rewrite Hs in Hg3.
  rewrite allIn_app in Hg3. now apply andb_prop in Hg3 as [_ Hg3].
Qed.

(** Every source that the parser returns has a name that starts with
    [github.com/], the URL [https://] followed by that name, and a version
    that is not empty; neither the name nor the version has a character
    of the pattern's class [\s] (tab, line feed, form feed, carriage
    return, space).  Nothing is said of other white space, such as a
    vertical tab. *)
Theorem parsed_sources_are_canonical goModPath file info repo :
  ParseProtobufLibraries goModPath file = inr info ->
  In repo (GoModInfo.Repositories info) ->
  HasPrefix (Repository.Name repo) "github.com/" = true
  /\ Repository.URL repo = ("https://" ++ Repository.Name repo)%string
  /\ Repository.Version repo <> ""
  /\ allIn nonSpace (Repository.Version repo) = true
  /\ allIn nonSpace (Repository.Name repo) = true.
Proof.
  intros Hparse Hin.
  destruct file as [err | lines [err|]].
  - discriminate.
  - simpl in Hparse. destruct (scanLoop false [] lines). discriminate.
  - rewrite ParseProtobufLibraries_read in Hparse.
    destruct (existsb isMarker lines); [ | discriminate].
    injection Hparse as <-. cbn [GoModInfo.Repositories] in Hin.
    apply in_flat_map in Hin as (text & _ & Hin).
    unfold directive, FindStringSubmatch in Hin.
    destruct (matchItems replaceRegex (TrimSpace text)) as [[caps rest]|] eqn:Hm;
      [ | contradiction].
    destruct (replaceRegex_groups _ _ _ Hm)
      as (g1 & g2 & g3 & g4 & -> & Hg3 & Hall3 & Hg4 & Hall4).
    cbn [length Nat.eqb] in Hin. destruct Hin as [<- | []].
    destruct (repositoryOf_canonical
                (substring 0 (String.length (TrimSpace text) - String.length rest)
                           (TrimSpace text)) g1 g2 g3 g4 Hall3)
      as (Hname & Hurl & Hver & Hspace).
    rewrite Hver. auto.
Qed.

(** A directive line of the six-token shape whose remote path starts with
    [github.com/] yields the source named by that remote path: the prefix
    is not doubled. *)
Theorem github_remote_keeps_its_name goModPath lines text L V (path : string) RV :
  asciiLines lines = true ->
  In text (annotatedSection lines) ->
  fields (TrimSpace text)
  = ["replace"; L; V; "=>"; ("github.com/" ++ path)%string; RV] ->
  exists info,
    ParseProtobufLibraries goModPath (Content lines None) = inr info
    /\ In {| Repository.Name := "github.com/" ++ path;
             Repository.Version := RV;
             Repository.URL := "https://github.com/" ++ path |}
          (GoModInfo.Repositories info).
Proof.
  intros _ Hin Hfields.
  destruct (annotatedSection_In _ _ Hin) as [Hmarker _].
  eexists. split.
  - rewrite ParseProtobufLibraries_read, Hmarker. reflexivity.
  - cbn [GoModInfo.Repositories]. apply in_flat_map. exists text.
    split; [exact Hin | ]. rewrite (directive_of_tokens _ _ _ _ _ _ Hfields).
    left. unfold source, repositoryOf. cbn [nth].
    rewrite (StringFacts.HasPrefix_app "github.com/" path).
    unfold TrimPrefix. now rewrite stripPrefix_app.
Qed.

End GoModMore.

(** ** Versions of a module, the target of [buf.yaml], file modes *)

Module InfrastructureFacts.
Import Strings Regexp Domain Versions.

(** *** [strings.Fields] and [strings.Split] *)

Lemma allIn_snoc cls cur c :
  allIn cls cur = true -> cls c = true -> allIn cls (cur ++ String c "") = true.
Proof.
  intros Hcur Hc. induction cur as [|x cur IH]; simpl in *.
  - now rewrite Hc.
  - apply andb_prop in Hcur as [Hx Hcur]. now rewrite Hx, IH.
Qed.

Lemma tokensOf_fields s : forall cur,
  allIn notSpace cur = true -> Forall isField (tokensOf isSpace cur s).
Proof.
  induction s as [|c s IH]; intros cur Hcur; simpl.
  - destruct (String.eqb_spec cur ""); constructor; [now split | constructor].
  - destruct (isSpace c) eqn:Hc.
    + destruct (String.eqb_spec cur ""); [now apply IH | ].
      constructor; [now split | now apply IH].
    + apply IH. apply allIn_snoc; [exact Hcur | ]. unfold notSpace. now rewrite Hc.
Qed.

Lemma Fields_fields s : Forall isField (Fields s).
Proof. now apply tokensOf_fields. Qed.

Lemma last_tl {A} (l : list A) d : 1 < length l -> last (tl l) d = last l d.
Proof. destruct l as [|a [|b l]]; simpl; intros H; (lia || reflexivity). Qed.

Lemma last_In_nonempty {A} (l : list A) d : l <> [] -> In (last l d) l.
Proof.
  induction l as [|a l IH]; [contradiction | ]. intros _.
  destruct l as [|b l]; [now left | ]. right. now apply IH.
Qed.

Lemma splitAt_hd sep s : forall cur,
  cur <> "" -> hd "" (splitAt sep cur s) <> "".
Proof.
  induction s as [|c s IH]; intros cur Hcur; simpl; [exact Hcur | ].
  destruct (Ascii.eqb c sep); [exact Hcur | ].
  apply IH. now destruct cur.
Qed.

(** *** [ListVersions] and [GetLatestVersion] *)

Section Proxy.
Variable proxyGet : string -> GoError + Versions.Response.
Variable decodeVersion : string -> GoError + string.

(** When [go list] prints ASCII text with the module and at least one
    version, both functions answer from its output alone, whatever the
    proxy would say: [ListVersions] gives the fields after the module
    name, none of them empty, and [GetLatestVersion] the last of them. *)
Theorem go_list_answers_without_the_proxy repo output
        (otherProxy : string -> GoError + Versions.Response) :
  isASCII output = true ->
  1 < length (Fields output) ->
  exists versions,
    versions = tl (Fields output) /\ versions <> []
    /\ Forall isField versions
    /\ Versions.ListVersions proxyGet repo (inr output) = inr versions
    /\ Versions.ListVersions otherProxy repo (inr output) = inr versions
    /\ Versions.GetLatestVersion proxyGet decodeVersion repo (inr output)
       = inr (last versions "")
    /\ Versions.GetLatestVersion otherProxy decodeVersion repo (inr output)
       = inr (last versions "").
Proof.
  intros _ Hlen. exists (tl (Fields output)).
  unfold Versions.ListVersions, Versions.GetLatestVersion.
  apply Nat.ltb_lt in Hlen as Hb. rewrite Hb, (last_tl _ _ Hlen).
  pose proof (Fields_fields output) as Hall.
  destruct (Fields output) as [|m [|v vs]]; simpl in Hlen; try lia.
  repeat split; try discriminate. now inversion Hall.
Qed.

(** The latest version that [GetLatestVersion] returns is never empty. *)
Theorem latest_version_is_not_empty repo goList version :
  Versions.GetLatestVersion proxyGet decodeVersion repo goList = inr version ->
  version <> "".
Proof.
  unfold Versions.GetLatestVersion.
  set (fromGo := match goList with
                 | inr output =>
                     if 1 <? length (Fields output)
                     then Some (last (Fields output) "") else None
                 | inl _ => None
                 end).
  destruct fromGo as [v|] eqn:Hgo.
  - intros [= <-]. subst fromGo. destruct goList as [err|output]; [discriminate | ].
    destruct (1 <? length (Fields output)) eqn:Hlen; [ | discriminate].
    injection Hgo as <-. apply Nat.ltb_lt in Hlen.
    pose proof (Fields_fields output) as Hall. rewrite Forall_forall in Hall.
    apply (Hall (last (Fields output) "")). apply last_In_nonempty.
    destruct (Fields output); [simpl in Hlen; lia | discriminate].
  - destruct (proxyGet _) as [err|resp]; [discriminate | ].
    destruct (negb _); [discriminate | ].
    destruct (Versions.Body resp) as [err|body]; [discriminate | ].
    destruct (decodeVersion body) as [err|v]; [discriminate | ].
    destruct (String.eqb_spec v ""); [discriminate | ]. now intros [= <-].
Qed.

(** The list that [ListVersions] returns is empty or starts with a version
    that is not empty: a blank answer of the proxy gives the empty list,
    not a list with an empty version. *)
Theorem listed_versions_start_with_a_version repo goList versions :
  Versions.ListVersions proxyGet repo goList = inr versions ->
  versions = [] \/ hd "" versions <> "".
Proof.
  unfold Versions.ListVersions.
  set (fromGo := match goList with
                 | inr output =>
                     if 1 <? length (Fields output)
                     then Some (tl (Fields output)) else None
                 | inl _ => None
                 end).
  destruct fromGo as [vs|] eqn:Hgo.
  - intros [= <-]. subst fromGo. destruct goList as [err|output]; [discriminate | ].
    destruct (1 <? length (Fields output)); [ | discriminate].
    injection Hgo as <-.
    pose proof (Fields_fields output) as Hall.
    destruct (Fields output) as [|m [|v rest]]; [now left | now left | right].
    inversion Hall as [|? ? _ Htl]; subst. inversion Htl as [|? ? [Hv _] _]; subst.
    exact Hv.
  - destruct (proxyGet _) as [err|resp]; [discriminate | ].
    destruct (negb _); [discriminate | ].
    destruct (Versions.Body resp) as [err|body]; [discriminate | ].
    unfold Split. destruct (TrimSpace body) as [|c t] eqn:Htrim.
    + cbn. intros [= <-]. now left.
    + destruct (_ && _); intros [= <-]; [now left | right].
      pose proof (GoModFacts.TrimSpace_head _ _ _ Htrim) as Hc. cbn [splitAt].
      destruct (Ascii.eqb_spec c Versions.newline) as [->|Hne]; [discriminate | ].
      apply splitAt_hd. discriminate.
Qed.

End Proxy.

(** *** [MakeWritable] *)

Lemma ownerWrite_bit i : Z.testbit FileRepo.ownerWrite i = Z.eqb 7 i.
Proof. exact (Z.pow2_bits_eqb 7 i ltac:(lia)). Qed.

Lemma lor_ownerWrite_range mode :
  (0 <= mode < 2 ^ 32 -> 0 <= Z.lor mode FileRepo.ownerWrite < 2 ^ 32)%Z.
Proof.
  intros [Hlo Hhi].
  assert (Hnn : (0 <= Z.lor mode FileRepo.ownerWrite)%Z)
    by (apply Z.lor_nonneg; split; [exact Hlo | unfold FileRepo.ownerWrite; lia]).
  split; [exact Hnn | ].
  apply Z.log2_lt_pow2.
  - assert (Z.lor mode FileRepo.ownerWrite <> 0)%Z; [ | lia].
    intros H0. apply Z.lor_eq_0_iff in H0 as [_ H0]. discriminate H0.
  - rewrite Z.log2_lor by (unfold FileRepo.ownerWrite; lia).
    apply Z.max_lub_lt; [ | reflexivity].
    destruct (Z.eq_dec mode 0) as [->|Hne]; [reflexivity | ].
    apply Z.log2_lt_pow2; lia.
Qed.

(** [MakeWritable] gives up when the file cannot be examined; otherwise it
    sets the mode of the file to its mode with the write bit of the owner
    added: no other bit changes, a mode that has the bit is kept, and a
    32-bit mode stays one. *)
Theorem MakeWritable_adds_the_owner_write_bit_only
        (World : Type) (Stat : string -> World -> (GoError + Z) * World)
        (Chmod : string -> Z -> World -> option GoError * World) path w :
  match Stat path w with
  | (inl err, w1) => FileRepo.MakeWritable Stat Chmod path w = (Some err, w1)
  | (inr mode, w1) =>
      exists mode',
        FileRepo.MakeWritable Stat Chmod path w = Chmod path mode' w1
        /\ Z.testbit mode' 7 = true
        /\ (forall i, i <> 7%Z -> Z.testbit mode' i = Z.testbit mode i)
        /\ (Z.testbit mode 7 = true -> mode' = mode)
        /\ (0 <= mode < 2 ^ 32 -> 0 <= mode' < 2 ^ 32)%Z
  end.
Proof.
  unfold FileRepo.MakeWritable. destruct (Stat path w) as [[err|mode] w1];
    [reflexivity | ].
  exists (Z.lor mode FileRepo.ownerWrite). split; [reflexivity | ].
  split; [ | split; [ | split]].
  - rewrite Z.lor_spec, ownerWrite_bit. apply orb_true_r.
  - intros i Hi. rewrite Z.lor_spec, ownerWrite_bit.
    destruct (Z.eqb_spec 7 i); [congruence | apply orb_false_r].
  - intros Hbit. apply Z.bits_inj. intros i.
    rewrite Z.lor_spec, ownerWrite_bit.
    destruct (Z.eqb_spec 7 i) as [<-|Hne]; [now rewrite Hbit | apply orb_false_r].
  - apply lor_ownerWrite_range.
Qed.

(** *** [ParseBufYaml] *)

Section Buf.
Variable World : Type.
Variable Context : Type.
Variable fileRepo : FileRepository World.
Variable goModRepo : GoModRepository World Context.
Variable ReadFile : string -> World -> (GoError + string) * World.
Variable unmarshal : string -> GoError + Buf.BufConfig.

(** What [ParseBufYaml] returns is the first module that [buf.yaml]
    declares, whatever modules follow it, and its path is not empty. *)
Theorem ParseBufYaml_gives_the_first_module bufYamlPath w info w' :
  Buf.ParseBufYaml fileRepo ReadFile unmarshal bufYamlPath w = (inr info, w') ->
  ModuleInfo.Path info <> ""
  /\ exists w0 data config first rest,
      ReadFile bufYamlPath w0 = (inr data, w')
      /\ unmarshal data = inr config
      /\ Buf.Modules config = first :: rest
      /\ info = {| ModuleInfo.Name := Buf.Name first;
                   ModuleInfo.Path := Buf.Path first |}.
Proof.
  unfold Buf.ParseBufYaml.
  destruct (FileExists fileRepo bufYamlPath w) as [found w1].
  destruct found; cbn [negb]; [ | discriminate].
  destruct (ReadFile bufYamlPath w1) as [[err|data] w2] eqn:Hread; [discriminate | ].
  destruct (unmarshal data) as [err|config] eqn:Hyaml; [discriminate | ].
  destruct (Buf.Modules config) as [|first rest] eqn:Hmods; [discriminate | ].
  destruct (String.eqb_spec (Buf.Path first) "") as [|Hpath]; [discriminate | ].
  intros [= <- <-]. split; [exact Hpath | ].
  now exists w1, data, config, first, rest.
Qed.

Lemma resolveRepositories_target (bufRepo : BufRepository World)
      config w config' repositories w' cs :
  App.resolveRepositories fileRepo goModRepo bufRepo config w
  = (inr (config', repositories), w', cs) ->
  exists path w0 w1 info,
    ParseBufYaml bufRepo path w0 = (inr info, w1)
    /\ SyncConfig.TargetPath config' = ModuleInfo.Path info.
Proof.
  unfold App.resolveRepositories, App.bind.
  destruct (App.ValidateConfig fileRepo config w) as [[verr w1] c1].
  destruct verr as [err|]; [discriminate | ].
  destruct config as [cfg|]; [ | discriminate].
  unfold App.parseBufYaml, App.call.
  destruct (ParseBufYaml bufRepo (SyncConfig.BufYamlPath cfg) w1)
    as [[err|info] w2] eqn:Hbuf; [discriminate | ].
  unfold App.logger.
  destruct (SyncConfig.Repositories cfg) as [|r0 rest].
  - unfold App.parseProtobufLibraries, App.call, App.bind.
    destruct (ParseProtobufLibraries goModRepo (SyncConfig.GoModPath cfg) w2)
      as [[err|goMod] w3]; [discriminate | ].
    cbn. destruct (_ && _); cbn; intros [= <- _ _ _];
      exists (SyncConfig.BufYamlPath cfg), w1, w2, info; now split.
  - cbn. destruct (_ && _); cbn; intros [= <- _ _ _];
      exists (SyncConfig.BufYamlPath cfg), w1, w2, info; now split.
Qed.

(** With the parser of [buf.yaml] of this repository, [Sync] never starts
    to process sources with an empty target path. *)
Theorem target_path_is_resolved_before_processing config w config' repositories w' cs :
  App.resolveRepositories fileRepo goModRepo
    (Buf.bufRepository fileRepo ReadFile unmarshal) config w
  = (inr (config', repositories), w', cs) ->
  SyncConfig.TargetPath config' <> "".
Proof.
  intros Hres.
  destruct (resolveRepositories_target _ _ _ _ _ _ _ Hres)
    as (path & w0 & w1 & info & Hbuf & ->).
  cbn [ParseBufYaml Buf.bufRepository] in Hbuf.
  unfold Buf.ParseBufYaml in Hbuf.
  destruct (FileExists fileRepo path w0) as [found w2].
  destruct found; cbn [negb] in Hbuf; [ | discriminate].
  destruct (ReadFile path w2) as [[err|data] w3]; [discriminate | ].
  destruct (unmarshal data) as [err|config0]; [discriminate | ].
  destruct (Buf.Modules config0) as [|first rest]; [discriminate | ].
  destruct (String.eqb_spec (Buf.Path first) "") as [|Hpath]; [discriminate | ].
  injection Hbuf as <- _. exact Hpath.
Qed.

End Buf.

End InfrastructureFacts.

(** ** More on the runs of the service *)

Module ServiceFacts.
Import Domain App AppFacts.

Section Runs.
Variable World : Type.
Variable Context : Type.
Variable fileRepo : FileRepository World.
Variable goModRepo : GoModRepository World Context.
Variable bufRepo : BufRepository World.

Ltac run_step :=
  lazymatch goal with
  | |- sat (ret _) _ _ => apply sat_ret
  | |- sat (bind (logger _ _ _) _) _ _ =>
      eapply sat_bind; [apply sat_logger; solve [reflexivity | auto] | intros _ _]
  | |- sat (bind (printf _ _) _) _ _ =>
      eapply sat_bind; [apply sat_printf; solve [reflexivity | auto] | intros _ _]
  | |- sat (bind (call _ _ _) _) _ _ =>
      eapply sat_bind; [apply sat_call; solve [reflexivity | auto] | intros ? _]
  | |- sat (logger _ _ _) _ _ =>
      eapply sat_weaken; [apply sat_logger; solve [reflexivity | auto] | intros _ _]
  | |- sat (printf _ _) _ _ =>
      eapply sat_weaken; [apply sat_printf; solve [reflexivity | auto] | intros _ _]
  | |- sat (call _ _ _) _ _ =>
      eapply sat_weaken; [apply sat_call; solve [reflexivity | auto] | intros ? _]
  | |- sat (match ?x with _ => _ end) _ _ => destruct x
  end.

(** *** The steps before the loop *)

Lemma selectRepositories_single repositories :
  length (selectRepositories true repositories) <= 1.
Proof.
  unfold selectRepositories. simpl.
  destruct (1 <? length repositories) eqn:E.
  - destruct repositories as [|r [|r' l]]; simpl; lia.
  - apply Nat.ltb_ge in E. exact E.
Qed.

(** What the steps before the loop return, and the calls they make: [P] is
    any class of calls with the existence tests, the parser of [buf.yaml]
    and the logger, and with the parser of the manifest when no repository
    is configured. *)
Lemma resolveRepositories_calls config (P : Call -> bool) :
  (forall path, P (CallFileExists path) = true) ->
  (forall path, P (CallParseBufYaml path) = true) ->
  (forall level msg, P (CallLogger level msg) = true) ->
  (forall cfg path, config = Some cfg -> SyncConfig.Repositories cfg = [] ->
                    P (CallParseProtobufLibraries path) = true) ->
  sat (resolveRepositories fileRepo goModRepo bufRepo config)
      (fun r =>
         match r with
         | inl err => isConfigurationError err
         | inr (config', repositories) =>
             exists cfg detected,
               config = Some cfg /\ sameIntent cfg config'
               /\ (SyncConfig.Repositories cfg <> [] ->
                   detected = SyncConfig.Repositories cfg)
               /\ repositories
                  = selectRepositories (SyncConfig.SingleRepo cfg)
                      (overrideVersion (SyncConfig.SpecifiedVersion cfg) detected)
         end)
      P.
Proof.
  intros Hexists Hbuf Hlog Hmod. unfold resolveRepositories.
  eapply sat_bind with (Q1 := fun verr => config = None -> verr <> None).
  - destruct config as [cfg|]; simpl.
    + unfold fileExists. repeat (run_step; try discriminate).
    + apply sat_ret. discriminate.
  - intros verr Hverr. destruct verr as [err|].
    + apply sat_ret. exists err. now left.
    + destruct config as [cfg|]; [ | exfalso; now apply Hverr].
      unfold parseBufYaml, parseProtobufLibraries. run_step.
      destruct a as [err|moduleInfo];
        [apply sat_ret; exists err; right; now left | ].
      run_step.
      eapply sat_bind
        with (Q1 := fun detected =>
                      match detected with
                      | inl err => isConfigurationError err
                      | inr repositories =>
                          SyncConfig.Repositories cfg <> [] ->
                          repositories = SyncConfig.Repositories cfg
                      end).
      * destruct (SyncConfig.Repositories cfg) as [|r0 rest] eqn:Hrepos.
        -- run_step.
           eapply sat_bind;
             [apply sat_call; now apply (Hmod cfg) | intros goMod _].
           destruct goMod as [err|info]; apply sat_ret.
           ++ exists err. right. now right.
           ++ intros H. now contradiction H.
        -- apply sat_ret. reflexivity.
      * intros detected Hdetected. destruct detected as [err|repositories];
          [apply sat_ret; exact Hdetected | ].
        destruct (_ && _) eqn:Hsingle.
        -- run_step. apply sat_ret. exists cfg, repositories.
           split; [reflexivity | split; [repeat split | split; [exact Hdetected | ]]].
           unfold selectRepositories. now rewrite Hsingle.
        -- apply sat_ret. exists cfg, repositories.
           split; [reflexivity | split; [repeat split | split; [exact Hdetected | ]]].
           unfold selectRepositories. now rewrite Hsingle.
Qed.

(** *** One source *)

Lemma printFileNames_calls files P :
  (forall text, P (Printf text) = true) ->
  sat (printFileNames World files) (fun _ => True) P.
Proof.
  intros HP. induction files as [|f files IH]; simpl.
  - apply sat_ret. exact I.
  - eapply sat_bind; [apply sat_printf; apply HP | intros _ _; exact IH].
Qed.

Lemma printNames_calls files P :
  (forall text, P (Printf text) = true) ->
  sat (printNames World files) (fun _ => True) P.
Proof.
  intros HP. induction files as [|f files IH]; simpl.
  - apply sat_ret. exact I.
  - eapply sat_bind; [apply sat_printf; apply HP | intros _ _; exact IH].
Qed.

Lemma makeAllWritable_calls files P :
  (forall path, P (CallMakeWritable path) = true) ->
  (forall level msg, P (CallLogger level msg) = true) ->
  sat (makeAllWritable World fileRepo files) (fun _ => True) P.
Proof.
  intros Hw Hlog. induction files as [|f files IH]; simpl.
  - apply sat_ret. exact I.
  - unfold makeWritable. run_step.
    eapply sat_bind with (Q1 := fun _ => True); [ | intros _ _; exact IH].
    destruct a; [apply sat_logger; apply Hlog | apply sat_ret; exact I].
Qed.

Lemma copyEach_calls targetPath files copied P :
  (forall src dst, P (CallCopyFile src dst) = true) ->
  sat (copyEach World fileRepo targetPath files copied) (fun _ => True) P.
Proof.
  intros Hc. revert copied. induction files as [|f files IH]; intros copied; simpl.
  - apply sat_ret. exact I.
  - unfold copyFile. run_step. destruct a; [apply sat_ret; exact I | apply IH].
Qed.

(** The processing of a source, in dry-run mode, only looks: its calls are
    existence tests, listings, the path of the module, the logger and
    [Printf]. *)
Lemma dryRunRepository_calls repo config (P : Call -> bool) :
  (forall path, P (CallFileExists path) = true) ->
  (forall path pattern, P (CallListFiles path pattern) = true) ->
  (forall name version, P (CallGetModulePath name version) = true) ->
  (forall level msg, P (CallLogger level msg) = true) ->
  (forall text, P (Printf text) = true) ->
  sat (dryRunRepository fileRepo goModRepo repo config) (fun _ => True) P.
Proof.
  intros Hexists Hlist Hpath Hlog Hprint.
  unfold dryRunRepository, getModulePath, fileExists, listFiles.
  repeat run_step; auto.
  eapply sat_bind with (Q1 := fun _ => True); [ | intros _ _; apply sat_ret; auto].
  repeat run_step; auto.
  now apply printFileNames_calls.
Qed.

(** The processing of a source never parses a configuration file and never
    reads or writes the bytes of a file. *)
Lemma processRepository_source_calls ctx repo config :
  sat (processRepository fileRepo goModRepo ctx repo config) (fun _ => True)
      isSourceCall.
Proof.
  unfold processRepository. run_step.
  destruct (SyncConfig.DryRun config).
  - apply dryRunRepository_calls; reflexivity.
  - unfold fetchSource, downloadModule, getModulePath, fileExists, createDir.
    eapply sat_bind with (Q1 := fun _ => True);
      [repeat run_step; exact I | intros fetched _].
    destruct fetched as [err|sourcePath]; [apply sat_ret; exact I | ].
    destruct (negb _).
    + unfold copySpecificFile, fileExists, listFiles, makeWritable, copyFile.
      eapply sat_bind with (Q1 := fun _ => True);
        [ | intros copied _; destruct copied; apply sat_ret; exact I].
      run_step. destruct (negb a); [repeat run_step; exact I | ].
      run_step.
      eapply sat_bind with (Q1 := fun _ => True);
        [destruct a0; [apply sat_call; reflexivity | apply sat_ret; exact I] | ].
      intros werr _. repeat run_step; exact I.
    + unfold copyAllProtoFiles, listFiles.
      eapply sat_bind with (Q1 := fun _ => True);
        [ | intros copied _; destruct (snd copied); apply sat_ret; exact I].
      run_step. destruct (snd a); [apply sat_ret; exact I | ].
      destruct (fst a); [repeat run_step; exact I | ].
      run_step. run_step.
      eapply sat_bind with (Q1 := fun _ => True);
        [apply makeAllWritable_calls; reflexivity | intros _ _].
      eapply sat_bind with (Q1 := fun _ => True);
        [apply copyEach_calls; reflexivity | intros copied _].
      destruct (snd copied); [apply sat_ret; exact I | ].
      run_step.
      eapply sat_bind with (Q1 := fun _ => True);
        [apply printNames_calls; reflexivity | intros _ _].
      apply sat_ret. exact I.
Qed.

(** An outcome without success has no updated file. *)
Lemma processRepository_no_files_on_failure ctx repo config :
  sat (processRepository fileRepo goModRepo ctx repo config)
      (fun r => SyncResult.Success r = false -> SyncResult.FilesUpdated r = [])
      (fun _ => true).
Proof.
  unfold processRepository. run_step.
  destruct (SyncConfig.DryRun config).
  - eapply sat_mono; [apply dryRunRepository_sat | | reflexivity].
    intros r (_ & _ & _ & Hfiles) _. exact Hfiles.
  - eapply sat_bind; [apply sat_any | intros fetched _].
    destruct fetched as [err | sourcePath]; [apply sat_ret; reflexivity | ].
    destruct (negb _).
    + eapply sat_bind; [apply sat_any | intros copied _].
      destruct copied; apply sat_ret; simpl; (reflexivity || discriminate).
    + eapply sat_bind; [apply sat_any | intros copied _].
      destruct (snd copied); apply sat_ret; simpl; (reflexivity || discriminate).
Qed.

(** *** Copying *)

Lemma filter_none (cs : list Call) :
  forallb noCopy cs = true -> filter isCopyFile cs = [].
Proof.
  induction cs as [|c cs IH]; simpl; [reflexivity | ].
  intros H. apply andb_prop in H as [Hc H]. unfold noCopy in Hc.
  destruct (isCopyFile c); [discriminate | now apply IH].
Qed.

Lemma filter_copyCalls targetPath files :
  filter isCopyFile (map (copyCall targetPath) files)
  = map (copyCall targetPath) files.
Proof. induction files; simpl; congruence. Qed.

(** The loop over the source files copies them in order and stops at the
    first copy that fails. *)
Lemma copyEach_accounting targetPath files : forall copied w out err w' cs,
  copyEach World fileRepo targetPath files copied w = ((out, err), w', cs) ->
  match err with
  | None =>
      out = copied ++ map (copiedAs targetPath) files
      /\ cs = map (copyCall targetPath) files
  | Some e =>
      exists n failed cause,
        nth_error files n = Some failed
        /\ e = wrapf ("failed to copy " ++ ProtoFile.Name failed ++ ": ") cause
        /\ out = copied ++ map (copiedAs targetPath) (firstn n files)
        /\ cs = map (copyCall targetPath) (firstn (S n) files)
  end.
Proof.
  induction files as [|f files IH]; intros copied w out err w' cs H.
  - injection H as <- <- <- <-. split; [now rewrite app_nil_r | reflexivity].
  - cbn [copyEach] in H. unfold bind, copyFile, call in H.
    destruct (CopyFile fileRepo (ProtoFile.Path f)
                (Filepath.Join targetPath (ProtoFile.Name f)) w) as [cerr w1].
    destruct cerr as [cause|].
    + injection H as <- <- <- <-. exists 0, f, cause.
      repeat split. simpl. now rewrite app_nil_r.
    + destruct (copyEach World fileRepo targetPath files
                  (copied ++ [{| ProtoFile.Name := ProtoFile.Name f;
                                 ProtoFile.Path :=
                                   Filepath.Join targetPath (ProtoFile.Name f);
                                 ProtoFile.Size := 0%Z;
                                 ProtoFile.ModifiedTime := 0%Z |}]) w1)
        as [[out' err'] c'] eqn:Hrest.
      destruct out' as [out' err''].
      injection H as <- <- <- <-.
      specialize (IH _ _ _ _ _ _ Hrest). destruct err''.
      * destruct IH as (n & failed & cause & Hnth & -> & -> & ->).
        exists (S n), failed, cause. repeat split; try assumption.
        cbn [firstn map]. now rewrite <- app_assoc.
      * destruct IH as [-> ->]. split; [ | reflexivity].
        cbn [map]. now rewrite <- app_assoc.
Qed.

(** [copyAllProtoFiles] reports a copy for every listed file, in the order
    of the listing, when no copy fails, whatever [MakeWritable] returns;
    when a copy fails it has tried the files up to that one and no
    other, and reports the ones before it. *)
Theorem copyAll_follows_the_listing sourcePath targetPath w files w1 out err w' cs :
  ListFiles fileRepo sourcePath "*.proto" w = ((files, None), w1) ->
  copyAllProtoFiles fileRepo sourcePath targetPath w = ((out, err), w', cs) ->
  match err with
  | None =>
      out = map (copiedAs targetPath) files
      /\ filter isCopyFile cs = map (copyCall targetPath) files
  | Some e =>
      exists n failed cause,
        nth_error files n = Some failed
        /\ e = wrapf ("failed to copy " ++ ProtoFile.Name failed ++ ": ") cause
        /\ out = map (copiedAs targetPath) (firstn n files)
        /\ filter isCopyFile cs = map (copyCall targetPath) (firstn (S n) files)
  end.
Proof.
  intros Hlist. unfold copyAllProtoFiles, bind, listFiles, call, logger.
  rewrite Hlist. cbn [fst snd].
  destruct files as [|f files].
  - intros [= <- <- <- <-]. split; reflexivity.
  - destruct (ListFiles fileRepo targetPath "*.proto" w1) as [existing w2].
    destruct (makeAllWritable World fileRepo (fst existing) w2)
      as [[u w3] c3] eqn:Hmw.
    pose proof (proj2 (sat_run _ _ _ _ _ _ _ _
                         (makeAllWritable_calls (fst existing) noCopy
                            (fun _ => eq_refl) (fun _ _ => eq_refl)) Hmw)) as Hc3.
    apply filter_none in Hc3.
    destruct (copyEach World fileRepo targetPath (f :: files) [] w3)
      as [[[copied cerr] w4] c4] eqn:Hcopy.
    pose proof (copyEach_accounting _ _ _ _ _ _ _ _ Hcopy) as Hacc.
    cbn [fst snd]. destruct cerr as [e|].
    + intros [= <- <- <- <-].
      destruct Hacc as (n & failed & cause & Hnth & -> & -> & ->).
      exists n, failed, cause. repeat split; try assumption.
      repeat progress (rewrite ?filter_app; cbn [app filter isCopyFile]).
      rewrite Hc3, filter_copyCalls. cbn [app filter]. now rewrite ?app_nil_r.
    + destruct (printNames World copied w4) as [[u' w5] c5] eqn:Hprint.
      pose proof (proj2 (sat_run _ _ _ _ _ _ _ _
                           (printNames_calls copied noCopy (fun _ => eq_refl))
                           Hprint)) as Hc5.
      apply filter_none in Hc5.
      intros [= <- <- <- <-]. destruct Hacc as [-> ->]. split; [reflexivity | ].
      repeat progress (rewrite ?filter_app; cbn [app filter isCopyFile]).
      rewrite Hc3, Hc5, filter_copyCalls. cbn [app filter]. now rewrite !app_nil_r.
Qed.

(** [copySpecificFile] reports the file under its name and target path
    after one copy; when the target cannot be made writable it attempts no
    copy, and when the file is not in the source directory it changes
    nothing. *)
Theorem copySpecificFile_outcomes sourcePath targetPath fileName w r w' cs :
  copySpecificFile fileRepo sourcePath targetPath fileName w = (r, w', cs) ->
  let copy := CallCopyFile (Filepath.Join sourcePath fileName)
                           (Filepath.Join targetPath fileName) in
  match r with
  | inr file =>
      file = {| ProtoFile.Name := fileName;
                ProtoFile.Path := Filepath.Join targetPath fileName;
                ProtoFile.Size := 0%Z;
                ProtoFile.ModifiedTime := 0%Z |}
      /\ filter isCopyFile cs = [copy]
  | inl err =>
      (exists cause, err = wrapf "failed to copy file: " cause
                     /\ filter isCopyFile cs = [copy])
      \/ (exists cause, err = wrapf "failed to make target file writable: " cause
                        /\ filter isCopyFile cs = []
                        /\ In (CallMakeWritable (Filepath.Join targetPath fileName)) cs)
      \/ (exists msg, err = errorf msg /\ forallb noWrite cs = true)
  end.
Proof.
  unfold copySpecificFile, bind, fileExists, listFiles, makeWritable, copyFile,
    call, logger, ret.
  destruct (FileExists fileRepo (Filepath.Join sourcePath fileName) w) as [found w1].
  destruct found; cbn [negb].
  - destruct (FileExists fileRepo (Filepath.Join targetPath fileName) w1)
      as [targetExists w2].
    destruct targetExists.
    + destruct (MakeWritable fileRepo (Filepath.Join targetPath fileName) w2)
        as [werr w3].
      destruct werr as [cause|].
      * intros [= <- <- <-]. right. left. exists cause.
        split; [reflexivity | split; [reflexivity | cbn; auto 10]].
      * destruct (CopyFile fileRepo (Filepath.Join sourcePath fileName)
                    (Filepath.Join targetPath fileName) w3) as [cerr w4].
        destruct cerr as [cause|]; intros [= <- <- <-].
        -- left. exists cause. cbn. auto.
        -- cbn. auto.
    + destruct (CopyFile fileRepo (Filepath.Join sourcePath fileName)
                  (Filepath.Join targetPath fileName) w2) as [cerr w4].
      destruct cerr as [cause|]; intros [= <- <- <-].
      * left. exists cause. cbn. auto.
      * cbn. auto.
  - destruct (ListFiles fileRepo sourcePath "*.proto" w1) as [listed w2].
    intros [= <- <- <-]. right. right. eexists. split; reflexivity.
Qed.

(** Before the copy, the processing of a source first downloads the
    module, and changes the file system at most once and last: by creating
    the target directory, after the module is downloaded, its path known
    and the source directory found. *)
Theorem fetchSource_creates_the_target_last ctx repo config w r w' cs :
  fetchSource fileRepo goModRepo ctx repo config w = (r, w', cs) ->
  (exists rest,
      cs = CallDownloadModule (Repository.Name repo) (Repository.Version repo)
           :: rest)
  /\ (forallb noWrite cs = true
      \/ exists sourcePath,
          cs = [ CallDownloadModule (Repository.Name repo) (Repository.Version repo);
                 CallGetModulePath (Repository.Name repo) (Repository.Version repo);
                 CallFileExists sourcePath;
                 CallFileExists (SyncConfig.TargetPath config);
                 CallLogger Info ("Creating target directory: "
                                  ++ SyncConfig.TargetPath config);
                 CallCreateDir (SyncConfig.TargetPath config) ])
  /\ (forall sourcePath, r = inr sourcePath -> In (CallFileExists sourcePath) cs).
Proof.
  unfold fetchSource, bind, downloadModule, getModulePath, fileExists, createDir,
    call, logger, ret.
  destruct (DownloadModule goModRepo ctx (Repository.Name repo)
              (Repository.Version repo) w) as [derr w1].
  destruct derr as [err|].
  { intros [= <- <- <-]. cbn. repeat split; eauto. discriminate. }
  destruct (GetModulePath goModRepo (Repository.Name repo)
              (Repository.Version repo) w1) as [located w2].
  destruct located as [err|modulePath].
  { intros [= <- <- <-]. cbn. repeat split; eauto. discriminate. }
  destruct (FileExists fileRepo
              (Filepath.Join modulePath (SyncConfig.SourcePath config)) w2)
    as [sourceExists w3].
  destruct sourceExists; cbn [negb].
  2: { intros [= <- <- <-]. cbn. repeat split; eauto. discriminate. }
  destruct (FileExists fileRepo (SyncConfig.TargetPath config) w3)
    as [targetExists w4].
  destruct targetExists; cbn [negb].
  { intros [= <- <- <-]. cbn. repeat split; eauto.
    intros sourcePath [= <-]. auto. }
  destruct (CreateDir fileRepo (SyncConfig.TargetPath config) w4) as [merr w5].
  destruct merr as [err|]; intros [= <- <- <-]; cbn.
  - split; [eauto | split; [right; eauto | discriminate]].
  - split; [eauto | split; [right; eauto | ]].
    intros sourcePath [= <-]. auto.
Qed.

(** *** The summary *)

Lemma successCount_all results :
  successCount results = length results
  <-> Forall (fun r => SyncResult.Success r = true) results.
Proof.
  unfold successCount. induction results as [|r results IH]; simpl.
  - split; auto.
  - pose proof (filter_length_le SyncResult.Success results) as Hle.
    destruct (SyncResult.Success r) eqn:Hr; simpl.
    + split.
      * intros H. constructor; [exact Hr | ]. apply IH. lia.
      * intros H. inversion H; subst. f_equal. now apply IH.
    + split.
      * intros H. lia.
      * intros H. inversion H; subst. congruence.
Qed.

(** After the loop, in real mode, the success message is given to the
    logger exactly when every outcome has succeeded, and a warning with the
    count otherwise; in dry-run mode nothing is logged. *)
Theorem summary_reports_success_iff_all_succeeded config results (w : World) :
  (SyncConfig.DryRun config = true -> reportSummary config results w = (tt, w, []))
  /\ (SyncConfig.DryRun config = false ->
      (In (CallLogger Success "All proto files updated successfully!")
          (callsOf (reportSummary config results) w)
       <-> Forall (fun r => SyncResult.Success r = true) results)
      /\ (In (CallLogger Warning
                (itoa (successCount results) ++ " out of "
                 ++ itoa (length results) ++ " repositories processed successfully"))
             (callsOf (reportSummary config results) w)
          <-> ~ Forall (fun r => SyncResult.Success r = true) results)).
Proof.
  unfold callsOf, reportSummary. split; intros Hdry; rewrite Hdry; cbn [negb].
  - reflexivity.
  - rewrite <- successCount_all.
    destruct (Nat.eqb_spec (successCount results) (length results)) as [Heq|Hne];
      unfold bind, logger; cbn.
    + split; split; try tauto.
      * intros [H | [H | []]]; discriminate.
    + split; split; try tauto.
      * intros [H | []]. discriminate.
Qed.

(** *** The run as a whole *)

Lemma Sync_calls ctx config (P : Call -> bool) :
  (forall path, P (CallFileExists path) = true) ->
  (forall path, P (CallParseBufYaml path) = true) ->
  (forall level msg, P (CallLogger level msg) = true) ->
  (forall cfg path, config = Some cfg -> SyncConfig.Repositories cfg = [] ->
                    P (CallParseProtobufLibraries path) = true) ->
  (forall cfg cfg' repo,
      config = Some cfg -> sameIntent cfg cfg' ->
      sat (processRepository fileRepo goModRepo ctx repo cfg') (fun _ => True) P) ->
  sat (Sync fileRepo goModRepo bufRepo ctx config) (fun _ => True) P.
Proof.
  intros Hexists Hbuf Hlog Hmod Hone. unfold Sync.
  eapply sat_bind;
    [apply (resolveRepositories_calls config P Hexists Hbuf Hlog Hmod) | ].
  intros resolved Hres. destruct resolved as [err | [cfg' repositories]];
    [apply sat_ret; exact I | ].
  destruct Hres as (cfg & detected & Hcfg & Hsame & _).
  run_step.
  eapply sat_bind;
    [apply (processAll_sat _ _ _ _ ctx cfg' (fun _ _ => True) P
              (fun repo => Hone cfg cfg' repo Hcfg Hsame) Hlog) | intros results _].
  eapply sat_bind with (Q1 := fun _ => True); [ | intros _ _; apply sat_ret; exact I].
  unfold reportSummary. destruct (negb _); [ | apply sat_ret; exact I].
  destruct (_ =? _); repeat run_step; exact I.
Qed.

Lemma forallb_Forall {A} (P : A -> bool) (l : list A) :
  forallb P l = true -> Forall (fun x => P x = true) l.
Proof. intros H. apply Forall_forall. now apply forallb_forall. Qed.


(** When [Sync] returns an error, it is the error of the validation, of
    the parser of [buf.yaml] or of the parser of the manifest, and the run
    has not touched a source: it made no call besides existence tests, the
    two parsers and the logger. *)
Theorem configuration_error_touches_no_source ctx config w err w' cs :
  Sync fileRepo goModRepo bufRepo ctx config w = (inl err, w', cs) ->
  isConfigurationError err /\ Forall (fun c => isSetupCall c = true) cs.
Proof.
  unfold Sync, bind.
  destruct (resolveRepositories fileRepo goModRepo bufRepo config w)
    as [[resolved w1] c1] eqn:Hres.
  destruct (sat_run _ _ _ _ _ _ _ _
              (resolveRepositories_calls config isSetupCall
                 (fun _ => eq_refl) (fun _ => eq_refl) (fun _ _ => eq_refl)
                 (fun _ _ _ _ => eq_refl)) Hres) as [Hq Hc1].
  destruct resolved as [e | [cfg' repositories]].
  - simpl. intros [= <- <- <-]. split; [exact Hq | ].
    rewrite app_nil_r. now apply forallb_Forall.
  - simpl. destruct (processAll _ _ ctx cfg' repositories [] w1) as [[rs w2] c2].
    destruct (reportSummary cfg' rs w2) as [[u w3] c3]. discriminate.
Qed.

(** In dry-run mode the run only looks and prints: it fetches no module
    and changes nothing, whatever it returns. *)
Theorem dry_run_only_previews ctx cfg w r w' cs :
  SyncConfig.DryRun cfg = true ->
  Sync fileRepo goModRepo bufRepo ctx (Some cfg) w = (r, w', cs) ->
  Forall (fun c => isPreviewCall c = true) cs.
Proof.
  intros Hdry Hrun. apply forallb_Forall.
  refine (proj2 (sat_run _ _ _ _ _ _ _ _
                   (Sync_calls ctx (Some cfg) isPreviewCall
                      (fun _ => eq_refl) (fun _ => eq_refl) (fun _ _ => eq_refl)
                      (fun _ _ _ _ => eq_refl) _) Hrun)).
  intros cfg0 cfg' repo [= <-] (_ & _ & Hdry' & _).
  unfold processRepository. rewrite Hdry', Hdry. run_step.
  apply dryRunRepository_calls; reflexivity.
Qed.

(** With configured repositories the manifest is never parsed, and the
    outcomes are those of the configured repositories, with the version
    override, cut to the first one in single-repo mode. *)
Theorem configured_repositories_are_used_verbatim ctx cfg w r w' cs :
  SyncConfig.Repositories cfg <> [] ->
  Sync fileRepo goModRepo bufRepo ctx (Some cfg) w = (r, w', cs) ->
  Forall (fun c => isManifestCall c = false) cs
  /\ forall results,
      r = inr results ->
      map SyncResult.Repository results
      = selectRepositories (SyncConfig.SingleRepo cfg)
          (overrideVersion (SyncConfig.SpecifiedVersion cfg)
                           (SyncConfig.Repositories cfg)).
Proof.
  intros Hrepos Hrun. split.
  - pose (P := fun c => negb (isManifestCall c)).
    assert (Hall : forallb P cs = true).
    { refine (proj2 (sat_run _ _ _ _ _ _ _ _
                       (Sync_calls ctx (Some cfg) P
                          (fun _ => eq_refl) (fun _ => eq_refl) (fun _ _ => eq_refl)
                          _ _) Hrun)).
      - intros cfg0 path [= <-] Hnil. now contradiction Hrepos.
      - intros cfg0 cfg' repo _ _.
        eapply sat_mono; [apply processRepository_source_calls | auto | ].
        intros c. now destruct c. }
    apply Forall_forall. intros c Hin.
    rewrite forallb_forall in Hall. specialize (Hall c Hin).
    unfold P in Hall. now destruct (isManifestCall c).
  - intros results ->.
    destruct (Sync_inv _ _ _ _ _ _ _ _ _ _ _ Hrun)
      as (cfg' & repositories & w1 & c1 & c2 & Hres & Hall & _).
    pose proof (proj1 (sat_run _ _ _ _ _ _ _ _
                         (resolveRepositories_calls (Some cfg) (fun _ => true)
                            (fun _ => eq_refl) (fun _ => eq_refl)
                            (fun _ _ => eq_refl) (fun _ _ _ _ => eq_refl)) Hres))
      as (cfg0 & detected & [= <-] & _ & Hdet & ->).
    rewrite (processAll_in_order _ _ _ _ _ _ _ _ _ _ _ Hall).
    now rewrite (Hdet Hrepos).
Qed.

(** In single-repo mode [Sync] returns at most one outcome, and with
    configured repositories it is the outcome of the first one. *)
Theorem single_repo_processes_the_first ctx cfg w results w' cs :
  SyncConfig.SingleRepo cfg = true ->
  Sync fileRepo goModRepo bufRepo ctx (Some cfg) w = (inr results, w', cs) ->
  length results <= 1
  /\ forall first rest,
      SyncConfig.Repositories cfg = first :: rest ->
      map SyncResult.Repository results
      = overrideVersion (SyncConfig.SpecifiedVersion cfg) [first].
Proof.
  intros Hsingle Hrun.
  destruct (Sync_inv _ _ _ _ _ _ _ _ _ _ _ Hrun)
    as (cfg' & repositories & w1 & c1 & c2 & Hres & Hall & _).
  pose proof (proj1 (sat_run _ _ _ _ _ _ _ _
                       (resolveRepositories_calls (Some cfg) (fun _ => true)
                          (fun _ => eq_refl) (fun _ => eq_refl)
                          (fun _ _ => eq_refl) (fun _ _ _ _ => eq_refl)) Hres))
    as (cfg0 & detected & [= <-] & _ & Hdet & Hsel).
  pose proof (processAll_in_order _ _ _ _ _ _ _ _ _ _ _ Hall) as Horder.
  rewrite Hsingle in Hsel. split.
  - rewrite <- (length_map SyncResult.Repository), Horder, Hsel.
    apply selectRepositories_single.
  - intros first rest Hrepos. rewrite Horder, Hsel, Hdet by (rewrite Hrepos; discriminate).
    rewrite Hrepos. unfold selectRepositories, overrideVersion.
    destruct (negb _); destruct rest; reflexivity.
Qed.

(** An outcome that [Sync] returns without success lists no updated file,
    also when some files of the source were copied before a copy failed. *)
Theorem failed_outcome_lists_no_file ctx config w results w' cs :
  Sync fileRepo goModRepo bufRepo ctx config w = (inr results, w', cs) ->
  Forall (fun r => SyncResult.Success r = false -> SyncResult.FilesUpdated r = [])
         results.
Proof.
  intros Hrun.
  destruct (Sync_inv _ _ _ _ _ _ _ _ _ _ _ Hrun)
    as (cfg & repositories & w1 & c1 & c2 & _ & Hall & _).
  destruct (sat_run _ _ _ _ _ _ _ _
              (processAll_sat _ _ _ _ ctx cfg
                 (fun _ r => SyncResult.Success r = false
                             -> SyncResult.FilesUpdated r = [])
                 (fun _ => true)
                 (fun repo => processRepository_no_files_on_failure ctx repo cfg)
                 (fun _ _ => eq_refl) repositories []) Hall)
    as [(new & -> & Hnew) _].
  simpl. exact (Forall2_Forall_r _ _ _ Hnew).
Qed.

(** *** The command line *)

(** [handleSync] fails exactly when [Sync] returns an error, and with that
    error: outcomes without success, even all of them, do not make it
    fail.  It leaves the world as [Sync] leaves it. *)
Theorem handleSync_fails_only_with_Sync ctx config w :
  resultOf (CLI.handleSync fileRepo goModRepo bufRepo ctx config) w
  = match resultOf (Sync fileRepo goModRepo bufRepo ctx config) w with
    | inl err => Some err
    | inr _ => None
    end
  /\ snd (fst (CLI.handleSync fileRepo goModRepo bufRepo ctx config w))
     = snd (fst (Sync fileRepo goModRepo bufRepo ctx config w)).
Proof.
  unfold resultOf, CLI.handleSync, CLI.validateRequiredTools,
    CLI.isCommandAvailable, bind.
  cbn [negb].
  destruct (Sync fileRepo goModRepo bufRepo ctx config w) as [[synced w1] c1] eqn:Hrun.
  destruct synced as [err|results]; [split; reflexivity | ].
  destruct (Sync_inv _ _ _ _ _ _ _ _ _ _ _ Hrun)
    as (cfg' & repositories & w0 & c0 & c2 & Hres & _).
  pose proof (proj1 (sat_run _ _ _ _ _ _ _ _
                       (resolveRepositories_calls config (fun _ => true)
                          (fun _ => eq_refl) (fun _ => eq_refl)
                          (fun _ _ => eq_refl) (fun _ _ _ _ => eq_refl)) Hres))
    as (cfg & detected & -> & _).
  destruct (SyncConfig.DryRun cfg); split; reflexivity.
Qed.

End Runs.

(** *** [ListVersions] *)

Section Versions.
Variable World : Type.
Variable listVersions : string -> World -> (GoError + list string) * World.
(** The answer of the collaborator depends on the name only. *)
Variable answer : string -> GoError + list string.
Hypothesis listVersions_answer :
  forall name w, fst (listVersions name w) = answer name.

Lemma find_filter_other (m : VersionMap) key name :
  String.eqb key name = false ->
  find (fun entry => String.eqb (fst entry) name)
       (filter (fun entry => negb (String.eqb (fst entry) key)) m)
  = find (fun entry => String.eqb (fst entry) name) m.
Proof.
  intros Hne. induction m as [|[k v] m IH]; simpl; [reflexivity | ].
  destruct (String.eqb_spec k key) as [->|Hk]; simpl.
  - rewrite Hne. exact IH.
  - destruct (String.eqb k name); [reflexivity | exact IH].
Qed.

(** A lookup after an assignment. *)
Lemma mapGet_mapSet (m : VersionMap) key versions name :
  mapGet (mapSet m key versions) name
  = if String.eqb key name then Some versions else mapGet m name.
Proof.
  unfold mapGet, mapSet. simpl.
  destruct (String.eqb key name) eqn:E; [reflexivity | ].
  now rewrite find_filter_other.
Qed.

Lemma listEach_lookup repositories : forall result w name,
  mapGet (resultOf (listEach listVersions repositories result) w) name
  = match answer name with
    | inr versions =>
        if isNamed repositories name then Some versions else mapGet result name
    | inl _ => mapGet result name
    end.
Proof.
  unfold resultOf.
  induction repositories as [|repo rest IH]; intros result w name.
  - simpl. now destruct (answer name).
  - cbn [listEach isNamed existsb].
    pose proof (listVersions_answer (Repository.Name repo) w) as Hans.
    destruct (listVersions (Repository.Name repo) w) as [listed w1].
    simpl in Hans. subst listed.
    destruct (answer (Repository.Name repo)) as [err|versions] eqn:Hrepo.
    + specialize (IH result w1 name).
      destruct (listEach listVersions rest result w1) as [[out w2] cs].
      simpl in *. rewrite IH.
      destruct (answer name) eqn:Hname; [reflexivity | ].
      destruct (String.eqb_spec (Repository.Name repo) name) as [<-|Hne];
        [congruence | reflexivity].
    + rewrite IH, mapGet_mapSet.
      destruct (answer name) eqn:Hname.
      * destruct (String.eqb_spec (Repository.Name repo) name) as [<-|Hne];
          [congruence | reflexivity].
      * destruct (String.eqb_spec (Repository.Name repo) name) as [<-|Hne];
          simpl; [ | reflexivity].
        rewrite Hrepo in Hname. injection Hname as ->.
        now destruct (isNamed rest (Repository.Name repo)).
Qed.

Lemma listEach_messages repositories : forall result w,
  length (callsOf (listEach listVersions repositories result) w)
  = length (filter (fun repo => isFailure (answer (Repository.Name repo)))
                   repositories).
Proof.
  unfold callsOf.
  induction repositories as [|repo rest IH]; intros result w; [reflexivity | ].
  cbn [listEach filter].
  pose proof (listVersions_answer (Repository.Name repo) w) as Hans.
  destruct (listVersions (Repository.Name repo) w) as [listed w1].
  simpl in Hans. subst listed.
  destruct (answer (Repository.Name repo)) as [err|versions]; cbn [isFailure].
  - specialize (IH result w1).
    destruct (listEach listVersions rest result w1) as [[out w2] cs].
    simpl in *. now rewrite IH.
  - apply IH.
Qed.

(** [ListVersions] never fails and asks for every repository: its map has
    the versions of exactly the repositories whose listing succeeds, and
    the logger gets one message for each listing that fails. *)
Theorem ListVersions_keeps_every_listing repositories w :
  let run := ListVersions listVersions repositories w in
  snd (fst (fst run)) = None
  /\ (forall name,
         mapGet (fst (fst (fst run))) name
         = match answer name with
           | inr versions =>
               if isNamed repositories name then Some versions else None
           | inl _ => None
           end)
  /\ length (snd run)
     = length (filter (fun repo => isFailure (answer (Repository.Name repo)))
                      repositories).
Proof.
  unfold ListVersions.
  pose proof (listEach_lookup repositories [] w) as Hget.
  pose proof (listEach_messages repositories [] w) as Hlen.
  unfold resultOf, callsOf in Hget, Hlen.
  destruct (listEach listVersions repositories [] w) as [[out w1] cs].
  simpl in *. split; [reflexivity | split; [ | exact Hlen]].
  intros name. rewrite Hget. now destruct (answer name).
Qed.

End Versions.

(** *** [handleListVersions] *)

Section ListHandler.
Variable World : Type.
Variable Context : Type.
Variable fileRepo : FileRepository World.
Variable listVersions : string -> World -> (GoError + list string) * World.
Variable rangeOver : VersionMap -> VersionMap.

Lemma ValidateConfig_only_tests config :
  sat (ValidateConfig fileRepo config) (fun _ => True) CLI.isExistenceTest.
Proof.
  unfold ValidateConfig. destruct config as [cfg|]; [ | now apply sat_ret].
  destruct (String.eqb (SyncConfig.BufYamlPath cfg) ""); [now apply sat_ret | ].
  destruct (String.eqb (SyncConfig.GoModPath cfg) ""); [now apply sat_ret | ].
  destruct (String.eqb (SyncConfig.SourcePath cfg) ""); [now apply sat_ret | ].
  eapply sat_bind; [apply sat_call; reflexivity | intros exists_ _].
  destruct (negb exists_); [now apply sat_ret | ].
  destruct (SyncConfig.Repositories cfg); [ | now apply sat_ret].
  eapply sat_bind; [apply sat_call; reflexivity | intros exists' _].
  destruct (negb exists'); now apply sat_ret.
Qed.

Lemma listEach_only_reports repositories : forall result w,
  forallb CLI.isReport (callsOf (listEach listVersions repositories result) w)
  = true.
Proof.
  unfold callsOf.
  induction repositories as [|repo rest IH]; intros result w; [reflexivity | ].
  cbn [listEach].
  destruct (listVersions (Repository.Name repo) w) as [[err|versions] w1].
  - specialize (IH result w1).
    destruct (listEach listVersions rest result w1) as [[out w2] cs].
    simpl in *. exact IH.
  - apply IH.
Qed.

Lemma ListVersions_only_reports repositories :
  sat (ListVersions listVersions repositories)
      (fun listed => snd listed = None) CLI.isReport.
Proof.
  intros w. pose proof (listEach_only_reports repositories [] w) as H.
  unfold resultOf, callsOf, ListVersions in *.
  destruct (listEach listVersions repositories [] w) as [[out w1] cs].
  simpl in *. auto.
Qed.

Lemma printLines_only_reports versionList :
  sat (CLI.printLines (World:=World) versionList) (fun _ => True) CLI.isReport.
Proof.
  induction versionList as [|version rest IH]; simpl; [now apply sat_ret | ].
  eapply sat_bind; [apply sat_printf; reflexivity | intros _ _; exact IH].
Qed.

Lemma printVersions_only_reports entries :
  sat (CLI.printVersions (World:=World) entries) (fun _ => True) CLI.isReport.
Proof.
  induction entries as [|[repo versionList] rest IH]; simpl; [now apply sat_ret | ].
  eapply sat_bind; [apply sat_printf; reflexivity | intros _ _].
  eapply sat_bind; [apply printLines_only_reports | intros _ _].
  eapply sat_bind; [apply sat_printf; reflexivity | intros _ _; exact IH].
Qed.

(** Without configured repositories [handleListVersions] always returns an
    error, whatever the manifest holds.  Its run is the run of
    [ValidateConfig]: the same calls, all of them existence tests, and the
    same world at the end.  So it never lists a version and never prints:
    with any other version lister the run is the same. *)
Theorem list_versions_needs_configured_repositories (ctx : Context) config w :
  SyncConfig.Repositories config = [] ->
  let run := CLI.handleListVersions fileRepo listVersions rangeOver ctx config w in
  let validation := ValidateConfig fileRepo (Some config) w in
  (exists err, fst (fst run) = Some err)
  /\ snd run = snd validation
  /\ snd (fst run) = snd (fst validation)
  /\ forallb CLI.isExistenceTest (snd run) = true
  /\ forall otherLister otherRange,
      CLI.handleListVersions fileRepo otherLister otherRange ctx config w = run.
Proof.
  intros Hnone run validation.
  assert (Hrun : forall lister range,
             CLI.handleListVersions fileRepo lister range ctx config w
             = (Some match fst (fst validation) with
                     | Some err => wrapf "invalid configuration: " err
                     | None =>
                         errorf "no repositories specified. Use --repo flag or ensure go.mod has '// Protobuf libraries' section"
                     end,
                snd (fst validation), snd validation)).
  { intros lister range.
    unfold CLI.handleListVersions, CLI.validateRequiredTools,
      CLI.isCommandAvailable. cbn [negb]. rewrite Hnone. unfold bind.
    subst validation.
    destruct (ValidateConfig fileRepo (Some config) w) as [[[err|] w1] cs];
      cbn [fst snd ret]; now rewrite app_nil_r. }
  subst run. rewrite Hrun. cbn [fst snd].
  split; [eauto | ]. split; [reflexivity | ]. split; [reflexivity | ].
  split; [ | intros otherLister otherRange; apply Hrun].
  exact (proj2 (ValidateConfig_only_tests (Some config) w)).
Qed.

(** With configured repositories [handleListVersions] never fails, even
    when no listing succeeds, and never validates the configuration: it
    only reports failed listings and prints. *)
Theorem list_versions_of_configured_repositories_never_fails (ctx : Context)
        config w :
  SyncConfig.Repositories config <> [] ->
  resultOf (CLI.handleListVersions fileRepo listVersions rangeOver ctx config) w
  = None
  /\ forallb CLI.isReport
       (callsOf (CLI.handleListVersions fileRepo listVersions rangeOver ctx config) w)
     = true.
Proof.
  intros Hsome.
  assert (Hsat : sat (CLI.handleListVersions fileRepo listVersions rangeOver
                                             ctx config)
                     (fun r => r = None) CLI.isReport).
  { unfold CLI.handleListVersions, CLI.validateRequiredTools,
      CLI.isCommandAvailable. cbn [negb].
    destruct (SyncConfig.Repositories config) as [|repo rest];
      [contradiction | ].
    eapply sat_bind; [apply ListVersions_only_reports | intros listed Hnil].
    simpl in Hnil. rewrite Hnil.
    eapply sat_bind; [apply printVersions_only_reports | intros _ _].
    now apply sat_ret. }
  exact (Hsat w).
Qed.

End ListHandler.
End ServiceFacts.

(** ** The claims on concrete runs *)

Module Scenarios.
Import Domain.

(** C3, as stated, fails: the section has no well-formed directive line
    and two malformed ones (seven tokens; four tokens), and the parser
    returns two sources. *)
Lemma malformed_lines_are_accepted :
  ~ GoMod.returnsWellFormedOnly Mock.goModLenient.
Proof.
  intros Hcount.
  pose proof (Hcount {| GoModInfo.Repositories :=
                          [Mock.sourceX; Mock.sourceY];
                        GoModInfo.ModuleName := "" |} eq_refl) as Hlen.
  vm_compute in Hlen. discriminate Hlen.
Qed.

Lemma manifest_sources_in_line_order :
  GoMod.ParseProtobufLibraries "go.mod" (GoMod.Content Mock.goMod None)
  = inr {| GoModInfo.Repositories :=
             flat_map GoMod.directive (GoMod.annotatedSection Mock.goMod);
           GoModInfo.ModuleName := "" |}.
Proof.
  exact (proj1 (GoModFacts.parser_returns_matching_directives
                  "go.mod" Mock.goMod eq_refl eq_refl)).
Defined.

(** C4, as stated, fails: the first line is a comment line containing
    the phrase, and the parser fails with [MarkerNotFound]. *)
Lemma tight_comment_is_not_a_marker :
  ~ GoMod.markerIsAnyCommentWithPhrase Mock.goModTightMarker.
Proof.
  intros [Hfails _]. specialize (Hfails eq_refl).
  vm_compute in Hfails. discriminate Hfails.
Qed.

Lemma plain_manifest_has_no_marker :
  GoMod.ParseProtobufLibraries "go.mod" (GoMod.Content Mock.goModPlain None)
  = inl (GoMod.MarkerNotFound "go.mod").
Proof.
  apply (proj1 (GoModFacts.marker_not_found_iff
                  "go.mod" (GoMod.Content Mock.goModPlain None) eq_refl)).
  exists Mock.goModPlain. split; [reflexivity | ].
  intros text Hin. simpl in Hin.
  repeat (destruct Hin as [<- | Hin]; [reflexivity | ]). contradiction.
Defined.

Lemma gitlab_remote_gets_github_prefix :
  exists info,
    GoMod.ParseProtobufLibraries "go.mod" (GoMod.Content Mock.goModGitlab None)
    = inr info
    /\ In {| Repository.Name := "github.com/gitlab.com/org/x";
             Repository.Version := "v1.0.0";
             Repository.URL := "https://github.com/gitlab.com/org/x" |}
          (GoModInfo.Repositories info).
Proof.
  exact (proj2 (GoModFacts.non_github_remote_is_prefixed
                  "go.mod" Mock.goModGitlab
                  "replace local-x v0.0.0 => gitlab.com/org/x v1.0.0"
                  "local-x" "v0.0.0" "gitlab.com/org/x" "v1.0.0"
                  eq_refl (or_introl eq_refl) eq_refl eq_refl)).
Defined.

(** C1, as stated, fails: the context is cancelled before the first source
    starts, and [Sync] still processes both sources of the manifest and
    returns their two outcomes instead of the empty list gathered so
    far. *)
Lemma cancelled_run_is_not_stopped :
  ~ Mock.cancellationStopsRun (Some Mock.config0) Mock.world0.
Proof.
  intros Hstop.
  pose (run := Mock.Sync true (Some Mock.config0) Mock.world0).
  pose proof (Hstop (Mock.outcomes run) (Mock.worldAfter run) (Mock.callsMade run)
                    eq_refl) as Hnone.
  vm_compute in Hnone. discriminate Hnone.
Qed.

Lemma cancelled_run_processes_every_source :
  exists results w' cs,
    Mock.Sync true (Some Mock.config0) Mock.world0 = (inr results, w', cs)
    /\ map SyncResult.Repository results = [Mock.sourceX; Mock.sourceY].
Proof.
  exact (proj1 (AppFacts.sync_never_checks_cancellation
                  Mock.World Mock.Context Mock.fileRepo Mock.goModRepo Mock.bufRepo
                  true (Some Mock.config0) Mock.world0
                  (Mock.resolvedConfig "" false "") [Mock.sourceX; Mock.sourceY]
                  Mock.world0 Mock.resolveCalls eq_refl)).
Defined.

Lemma dry_run_on_manifest :
  Forall (fun r => SyncResult.Success r = true) (Mock.outcomes Mock.dryRun0)
  /\ Forall (fun c => isWrite c = false) (Mock.callsMade Mock.dryRun0).
Proof.
  exact (AppFacts.dry_run_succeeds_without_writes
           Mock.World Mock.Context Mock.fileRepo Mock.goModRepo Mock.bufRepo
           false (Mock.config "" true "") Mock.world0
           (Mock.outcomes Mock.dryRun0) (Mock.worldAfter Mock.dryRun0)
           (Mock.callsMade Mock.dryRun0) eq_refl eq_refl).
Defined.

Lemma real_run_flags_agree :
  Forall (fun r => SyncResult.Success r = true <-> SyncResult.Error r = None)
         (Mock.outcomes Mock.realRun0).
Proof.
  exact (AppFacts.sync_success_iff_no_error
           Mock.World Mock.Context Mock.fileRepo Mock.goModRepo Mock.bufRepo
           false (Some Mock.config0) Mock.world0
           (Mock.outcomes Mock.realRun0) (Mock.worldAfter Mock.realRun0)
           (Mock.callsMade Mock.realRun0) eq_refl).
Defined.

(** Scenario C. *)
Lemma second_fetch_fails :
  exists r2 cs,
    Mock.realRun0
    = (inr [fst (fst Mock.processX); r2], Mock.worldAfter Mock.processX, cs)
    /\ SyncResult.Repository (fst (fst Mock.processX)) = Mock.sourceX
    /\ r2 = {| SyncResult.Repository := Mock.sourceY;
               SyncResult.FilesUpdated := [];
               SyncResult.Success := false;
               SyncResult.Error :=
                 Some (wrapf "failed to download module: "
                             (errorf "failed to download github.com/acme/y@v0.8.5")) |}.
Proof.
  exact (proj1 (AppFacts.failed_fetch_is_isolated
                  Mock.World Mock.Context Mock.fileRepo Mock.goModRepo Mock.bufRepo
                  false (Some Mock.config0) Mock.world0
                  (Mock.resolvedConfig "" false "") Mock.sourceX Mock.sourceY
                  Mock.world0 Mock.resolveCalls
                  (fst (fst Mock.processX)) (snd (fst Mock.processX)) (snd Mock.processX)
                  (errorf "failed to download github.com/acme/y@v0.8.5")
                  (snd (fst Mock.processX))
                  eq_refl eq_refl eq_refl eq_refl eq_refl)).
Defined.


(** Scenario B. *)
Lemma missing_file_on_manifest :
  exists msg cs,
    App.processRepository Mock.fileRepo Mock.goModRepo false Mock.sourceX
                          (Mock.resolvedConfig "c.proto" false "") Mock.world0
    = ({| SyncResult.Repository := Mock.sourceX;
          SyncResult.FilesUpdated := [];
          SyncResult.Success := false;
          SyncResult.Error := Some (errorf msg) |}, Mock.world1, cs)
    /\ Strings.Contains msg "c.proto" = true
    /\ Strings.Contains msg "a.proto, b.proto" = true.
Proof.
  destruct (AppFacts.missing_specific_file_is_reported
              Mock.World Mock.Context Mock.fileRepo Mock.goModRepo
              false Mock.sourceX (Mock.resolvedConfig "c.proto" false "") Mock.world0
              "/cache/github.com/acme/x@v1.2.3/schemas" Mock.world1
              (snd (App.fetchSource Mock.fileRepo Mock.goModRepo false Mock.sourceX
                      (Mock.resolvedConfig "c.proto" false "") Mock.world0))
              Mock.world1
              (fst (fst (ListFiles Mock.fileRepo
                           "/cache/github.com/acme/x@v1.2.3/schemas" "*.proto"
                           Mock.world1)))
              None Mock.world1 eq_refl ltac:(discriminate) eq_refl eq_refl eq_refl)
    as (msg & cs & Hrun & Hmsg & Hname & Hfiles).
  exists msg, cs. split; [exact Hrun | ]. split; [exact (Hname eq_refl) | ].
  rewrite Hmsg. reflexivity.
Defined.

End Scenarios.

(** ** More concrete runs *)

Module MoreScenarios.
Import Domain.


Lemma manifest_without_marker_touches_no_source :
  App.isConfigurationError
    (wrapf "failed to parse go.mod: " (GoMod.MarkerNotFound "go.mod"))
  /\ Forall (fun c => isSetupCall c = true)
            (Mock.callsMade (Mock.Sync false (Some Mock.config0) Mock.worldPlain)).
Proof.
  exact (ServiceFacts.configuration_error_touches_no_source
           Mock.World Mock.Context Mock.fileRepo Mock.goModRepo Mock.bufRepo
           false (Some Mock.config0) Mock.worldPlain
           (wrapf "failed to parse go.mod: " (GoMod.MarkerNotFound "go.mod"))
           Mock.worldPlain
           (Mock.callsMade (Mock.Sync false (Some Mock.config0) Mock.worldPlain))
           eq_refl).
Defined.

Lemma dry_run_on_manifest_only_previews :
  Forall (fun c => isPreviewCall c = true) (Mock.callsMade Mock.dryRun0).
Proof.
  exact (ServiceFacts.dry_run_only_previews
           Mock.World Mock.Context Mock.fileRepo Mock.goModRepo Mock.bufRepo
           false (Mock.config "" true "") Mock.world0
           (fst (fst Mock.dryRun0)) (Mock.worldAfter Mock.dryRun0)
           (Mock.callsMade Mock.dryRun0) eq_refl eq_refl).
Defined.

Lemma configured_run_skips_the_manifest :
  Forall (fun c => isManifestCall c = false)
         (Mock.callsMade (Mock.Sync false (Some (Mock.configured false)) Mock.world0))
  /\ map SyncResult.Repository
         (Mock.outcomes (Mock.Sync false (Some (Mock.configured false)) Mock.world0))
     = [Mock.sourceX; Mock.sourceY].
Proof.
  pose (run := Mock.Sync false (Some (Mock.configured false)) Mock.world0).
  destruct (ServiceFacts.configured_repositories_are_used_verbatim
              Mock.World Mock.Context Mock.fileRepo Mock.goModRepo Mock.bufRepo
              false (Mock.configured false) Mock.world0
              (fst (fst run)) (Mock.worldAfter run) (Mock.callsMade run)
              ltac:(discriminate) eq_refl) as [Hcalls Hrepos].
  split; [exact Hcalls | exact (Hrepos (Mock.outcomes run) eq_refl)].
Defined.

Lemma single_repo_run_has_one_outcome :
  length (Mock.outcomes (Mock.Sync false (Some (Mock.configured true)) Mock.world0))
  <= 1.
Proof.
  pose (run := Mock.Sync false (Some (Mock.configured true)) Mock.world0).
  exact (proj1 (ServiceFacts.single_repo_processes_the_first
                  Mock.World Mock.Context Mock.fileRepo Mock.goModRepo Mock.bufRepo
                  false (Mock.configured true) Mock.world0
                  (Mock.outcomes run) (Mock.worldAfter run) (Mock.callsMade run)
                  eq_refl eq_refl)).
Defined.

Lemma failed_source_lists_no_file :
  Forall (fun r => SyncResult.Success r = false -> SyncResult.FilesUpdated r = [])
         (Mock.outcomes Mock.realRun0).
Proof.
  exact (ServiceFacts.failed_outcome_lists_no_file
           Mock.World Mock.Context Mock.fileRepo Mock.goModRepo Mock.bufRepo
           false (Some Mock.config0) Mock.world0
           (Mock.outcomes Mock.realRun0) (Mock.worldAfter Mock.realRun0)
           (Mock.callsMade Mock.realRun0) eq_refl).
Defined.

Lemma both_files_are_copied_in_order :
  map ProtoFile.Path
      (fst (fst (fst (App.copyAllProtoFiles Mock.fileRepo Mock.schemasX "out"
                                            Mock.world1))))
  = ["out/a.proto"; "out/b.proto"]
  /\ filter isCopyFile
            (snd (App.copyAllProtoFiles Mock.fileRepo Mock.schemasX "out" Mock.world1))
     = [ CallCopyFile (Mock.schemasX ++ "/a.proto") "out/a.proto";
         CallCopyFile (Mock.schemasX ++ "/b.proto") "out/b.proto" ].
Proof.
  pose (run := App.copyAllProtoFiles Mock.fileRepo Mock.schemasX "out" Mock.world1).
  pose (listed := ListFiles Mock.fileRepo Mock.schemasX "*.proto" Mock.world1).
  destruct (ServiceFacts.copyAll_follows_the_listing
              Mock.World Mock.fileRepo Mock.schemasX "out" Mock.world1
              (fst (fst listed)) (snd listed)
              (fst (fst (fst run))) None (snd (fst run)) (snd run)
              eq_refl eq_refl) as [Hout Hcalls].
  fold run. rewrite Hout, Hcalls. split; reflexivity.
Defined.

Lemma missing_file_changes_nothing :
  exists msg,
    fst (fst (App.copySpecificFile Mock.fileRepo Mock.schemasX "out" "c.proto"
                                   Mock.world1))
    = inl (errorf msg)
    /\ forallb noWrite
         (snd (App.copySpecificFile Mock.fileRepo Mock.schemasX "out" "c.proto"
                                    Mock.world1)) = true.
Proof.
  pose (run := App.copySpecificFile Mock.fileRepo Mock.schemasX "out" "c.proto"
                                    Mock.world1).
  destruct (ServiceFacts.copySpecificFile_outcomes
              Mock.World Mock.fileRepo Mock.schemasX "out" "c.proto" Mock.world1
              (fst (fst run)) (snd (fst run)) (snd run) eq_refl)
    as [(cause & Herr & _) | [(cause & Herr & _) | (msg & Herr & Hcalls)]].
  - discriminate Herr.
  - discriminate Herr.
  - exists msg. split; [now rewrite <- Herr | exact Hcalls].
Defined.

Lemma target_is_created_after_the_download :
  exists rest,
    snd (App.fetchSource Mock.fileRepo Mock.goModRepo false Mock.sourceX
                         (Mock.resolvedConfig "" false "") Mock.world0)
    = CallDownloadModule "github.com/acme/x" "v1.2.3" :: rest.
Proof.
  pose (run := App.fetchSource Mock.fileRepo Mock.goModRepo false Mock.sourceX
                               (Mock.resolvedConfig "" false "") Mock.world0).
  exact (proj1 (ServiceFacts.fetchSource_creates_the_target_last
                  Mock.World Mock.Context Mock.fileRepo Mock.goModRepo
                  false Mock.sourceX (Mock.resolvedConfig "" false "") Mock.world0
                  (fst (fst run)) (snd (fst run)) (snd run) eq_refl)).
Defined.

Lemma known_versions_are_kept :
  let run := App.ListVersions Mock.listVersions [Mock.sourceX; Mock.sourceY]
                              Mock.world0 in
  App.mapGet (fst (fst (fst run))) "github.com/acme/x" = Some ["v1.0.0"; "v1.2.3"]
  /\ App.mapGet (fst (fst (fst run))) "github.com/acme/y" = None
  /\ length (snd run) = 1.
Proof.
  destruct (ServiceFacts.ListVersions_keeps_every_listing
              Mock.World Mock.listVersions Mock.knownVersions
              (fun _ _ => eq_refl) [Mock.sourceX; Mock.sourceY] Mock.world0)
    as (_ & Hget & Hlen).
  split; [exact (Hget "github.com/acme/x") | ].
  split; [exact (Hget "github.com/acme/y") | exact Hlen].
Defined.

Lemma listing_from_the_manifest_is_refused :
  (exists err,
      App.resultOf (CLI.handleListVersions Mock.fileRepo Mock.listVersions
                      (fun versions => versions) false Mock.config0) Mock.world0
      = Some err)
  /\ App.callsOf (CLI.handleListVersions Mock.fileRepo Mock.listVersions
                     (fun versions => versions) false Mock.config0) Mock.world0
     = [CallFileExists "buf.yaml"; CallFileExists "go.mod"].
Proof.
  destruct (ServiceFacts.list_versions_needs_configured_repositories
              Mock.World Mock.Context Mock.fileRepo Mock.listVersions
              (fun versions => versions) false Mock.config0 Mock.world0 eq_refl)
    as (Herr & Hcalls & _).
  split; [exact Herr | exact Hcalls].
Defined.

Lemma listing_with_one_failure_succeeds :
  App.resultOf (CLI.handleListVersions Mock.fileRepo Mock.listVersions
                  (@rev _) false (Mock.configured false)) Mock.world0
  = None
  /\ forallb CLI.isReport
       (App.callsOf (CLI.handleListVersions Mock.fileRepo Mock.listVersions
                       (@rev _) false (Mock.configured false)) Mock.world0)
     = true.
Proof.
  exact (ServiceFacts.list_versions_of_configured_repositories_never_fails
           Mock.World Mock.Context Mock.fileRepo Mock.listVersions
           (@rev _) false (Mock.configured false) Mock.world0
           ltac:(discriminate)).
Defined.

Lemma manifest_sources_are_canonical :
  Strings.HasPrefix (Repository.Name Mock.sourceY) "github.com/" = true
  /\ Repository.URL Mock.sourceY = ("https://" ++ Repository.Name Mock.sourceY)%string
  /\ Repository.Version Mock.sourceY <> ""
  /\ Regexp.allIn Regexp.nonSpace (Repository.Version Mock.sourceY) = true
  /\ Regexp.allIn Regexp.nonSpace (Repository.Name Mock.sourceY) = true.
Proof.
  exact (GoModMore.parsed_sources_are_canonical
           "go.mod" (GoMod.Content Mock.goMod None)
           {| GoModInfo.Repositories := [Mock.sourceX; Mock.sourceY];
              GoModInfo.ModuleName := "" |}
           Mock.sourceY eq_refl (or_intror (or_introl eq_refl))).
Defined.

Lemma github_remote_of_the_manifest :
  exists info,
    GoMod.ParseProtobufLibraries "go.mod" (GoMod.Content Mock.goMod None) = inr info
    /\ In Mock.sourceX (GoModInfo.Repositories info).
Proof.
  exact (GoModMore.github_remote_keeps_its_name
           "go.mod" Mock.goMod
           "replace local-x v0.0.0 => github.com/acme/x v1.2.3"
           "local-x" "v0.0.0" "acme/x" "v1.2.3"
           eq_refl (or_introl eq_refl) eq_refl).
Defined.

Lemma go_list_output_is_enough :
  exists versions,
    versions = ["v1.0.0"; "v1.2.3"]
    /\ Versions.ListVersions Mock.proxy "github.com/acme/x"
         (inr ("github.com/acme/x v1.0.0 v1.2.3" ++ String "010" "")%string)
       = inr versions
    /\ Versions.GetLatestVersion Mock.offline Mock.decodeNothing "github.com/acme/x"
         (inr ("github.com/acme/x v1.0.0 v1.2.3" ++ String "010" "")%string)
       = inr "v1.2.3".
Proof.
  destruct (InfrastructureFacts.go_list_answers_without_the_proxy
              Mock.proxy Mock.decodeNothing "github.com/acme/x"
              ("github.com/acme/x v1.0.0 v1.2.3" ++ String "010" "")%string
              Mock.offline eq_refl ltac:(vm_compute; lia))
    as (versions & Htl & _ & _ & Hlist & _ & _ & Hlatest).
  exists versions. subst versions. repeat split; assumption.
Defined.

Lemma latest_version_from_go_list :
  Versions.GetLatestVersion Mock.proxy Mock.decodeNothing "github.com/acme/x"
    (inr "github.com/acme/x v1.0.0 v1.2.3") = inr "v1.2.3"
  /\ "v1.2.3" <> "".
Proof.
  split; [reflexivity | ].
  exact (InfrastructureFacts.latest_version_is_not_empty
           Mock.proxy Mock.decodeNothing "github.com/acme/x"
           (inr "github.com/acme/x v1.0.0 v1.2.3") "v1.2.3" eq_refl).
Defined.

Lemma proxy_versions_start_with_a_version :
  Versions.ListVersions Mock.proxy "github.com/acme/x" (inl (errorf "exit status 1"))
  = inr ["v1.0.0"; "v1.2.3"]
  /\ (["v1.0.0"; "v1.2.3"] = [] \/ hd "" ["v1.0.0"; "v1.2.3"] <> "").
Proof.
  split; [reflexivity | ].
  exact (InfrastructureFacts.listed_versions_start_with_a_version
           Mock.proxy "github.com/acme/x" (inl (errorf "exit status 1"))
           ["v1.0.0"; "v1.2.3"] eq_refl).
Defined.

Lemma first_module_of_two :
  Buf.ParseBufYaml Mock.fileRepo Mock.readFile Mock.unmarshal "buf.yaml" Mock.world0
  = (inr {| ModuleInfo.Name := ""; ModuleInfo.Path := "proto" |}, Mock.world0)
  /\ ModuleInfo.Path {| ModuleInfo.Name := ""; ModuleInfo.Path := "proto" |} <> "".
Proof.
  split; [reflexivity | ].
  exact (proj1 (InfrastructureFacts.ParseBufYaml_gives_the_first_module
                  Mock.World Mock.fileRepo Mock.readFile Mock.unmarshal
                  "buf.yaml" Mock.world0
                  {| ModuleInfo.Name := ""; ModuleInfo.Path := "proto" |}
                  Mock.world0 eq_refl)).
Defined.

Lemma target_of_the_first_module :
  exists config' w' cs,
    App.resolveRepositories Mock.fileRepo Mock.goModRepo
      (Buf.bufRepository Mock.fileRepo Mock.readFile Mock.unmarshal)
      (Some Mock.config0) Mock.world0
    = (inr (config', [Mock.sourceX; Mock.sourceY]), w', cs)
    /\ SyncConfig.TargetPath config' = "proto"
    /\ SyncConfig.TargetPath config' <> "".
Proof.
  do 3 eexists. split; [reflexivity | ]. split; [reflexivity | ].
  refine (InfrastructureFacts.target_path_is_resolved_before_processing
            Mock.World Mock.Context Mock.fileRepo Mock.goModRepo
            Mock.readFile Mock.unmarshal
            (Some Mock.config0) Mock.world0 _ [Mock.sourceX; Mock.sourceY]
            _ _ eq_refl).
Defined.

End MoreScenarios.
